(** * Ethos Monitor: monitoring, ingestion, alert and defense pipeline

    A shallow embedding of the backend services of the Ethos Monitor
    (models/types.ts, token.service.ts, ethos.service.ts, alert.service.ts,
    database.service.ts, monitor.service.ts) and the properties the
    specification states about them.

    Conventions of the embedding:
    - a JavaScript number that the code compares, scales or prints is an
      integer [Z] (ids, scores, Unix timestamps); [Math.random()] is a
      rational [Q]; the numbers of a decoded token, which is not verified,
      are a [Num]: NaN, an infinity or a whole number;
    - a string is held as the bytes of its UTF-8 form; its [length] is
      counted in UTF-16 code units ([utf16Length]);
    - a value that may be [undefined] or [null] is an [option]; truthiness
      ([if (x)], [x || y], [!x]) is written out by [truthy]/[orElse];
    - an [async] function is a computation in the monad [M] (state and
      exceptions); everything outside the process (HTTP transports, the
      clock, the random source, built-in parsers) is read from an [Env]. *)

From Stdlib Require Import ZArith NArith List String Ascii Bool Lia DecimalString.
From Stdlib Require Import DecimalPos.
From Stdlib Require Import QArith Qround.
Import ListNotations.

Open Scope string_scope.
Open Scope list_scope.
Open Scope Z_scope.

(** ** JavaScript helpers *)

Module Js.

(** [String(n)] and [n.toString()] for an integer-valued number. *)
Definition numToString (n : Z) : string :=
  NilZero.string_of_int (Z.to_int n).

Definition strTruthy (s : string) : bool :=
  match s with EmptyString => false | String _ _ => true end.

Definition numTruthy (n : Z) : bool := negb (n =? 0).

(** A field typed [number | string]. *)
Inductive NumOrStr :=
| VNum (n : Z)
| VStr (s : string).

Definition valTruthy (v : NumOrStr) : bool :=
  match v with
  | VNum n => numTruthy n
  | VStr s => strTruthy s
  end.

(** [String(v)]. *)
Definition valToString (v : NumOrStr) : string :=
  match v with
  | VNum n => numToString n
  | VStr s => s
  end.

(** Truthiness of an optional field: [undefined] and [null] are falsy. *)
Definition truthy {A} (t : A -> bool) (o : option A) : bool :=
  match o with
  | Some a => t a
  | None => false
  end.

(** [a || b] on optional values: [a] when truthy, else [b] as it is. *)
Definition orElse {A} (t : A -> bool) (a b : option A) : option A :=
  if truthy t a then a else b.

(** [s.startsWith(p)]. *)
Definition startsWith (p s : string) : bool := String.prefix p s.

(** [s.replace(pat, rep)] with a string pattern: the first occurrence only. *)
Definition replace (pat rep s : string) : string :=
  match String.index 0 pat s with
  | Some i =>
      (String.substring 0 i s ++ rep ++
       String.substring (i + String.length pat)
                        (String.length s - (i + String.length pat)) s)%string
  | None => s
  end.

(** The time value handed to [new Date(ms)]. *)
Record Date := mkDate { timeValue : Z }.

(** A Date holds a time only within 8.64e15 ms of the epoch; outside it is
    an Invalid Date, on which [toISOString()] throws a RangeError. *)
Definition dateValid (d : Date) : bool :=
  Z.abs (timeValue d) <=? 8640000000000000.

(** *** The length of a string

    A string is held as the bytes of its UTF-8 form, while [s.length]
    counts UTF-16 code units: one for a character of up to three bytes,
    two for one of four bytes. [unitsOf] tells the units of a character
    from its first byte; a continuation byte adds none. *)
Definition unitsOf (c : ascii) : nat :=
  let n := nat_of_ascii c in
  if (n <? 128)%nat then 1%nat
  else if (n <? 192)%nat then 0%nat
  else if (n <? 240)%nat then 1%nat
  else 2%nat.

(** [s.length]. *)
Fixpoint utf16Length (s : string) : nat :=
  match s with
  | EmptyString => 0%nat
  | String c rest => (unitsOf c + utf16Length rest)%nat
  end.

(** *** Numbers of the token code

    A number as the token code computes with it: NaN (what [ToNumber]
    gives for [undefined]), an infinity (which [JSON.parse] gives for a
    literal like [1e999]), or a whole number. *)
Inductive Num :=
| NaN
| NegInfinity
| Finite (z : Z)
| Infinity.

(** [a - b]. *)
Definition numSub (a b : Num) : Num :=
  match a, b with
  | NaN, _ | _, NaN => NaN
  | Finite x, Finite y => Finite (x - y)
  | Infinity, Infinity | NegInfinity, NegInfinity => NaN
  | Infinity, _ | _, NegInfinity => Infinity
  | NegInfinity, _ | _, Infinity => NegInfinity
  end.

(** [a * b]: an infinity times zero is NaN. *)
Definition numMul (a b : Num) : Num :=
  let signed (positive : bool) := if positive then Infinity else NegInfinity in
  let scaled (positive : bool) (z : Z) :=
    if z =? 0 then NaN else signed (Bool.eqb positive (0 <? z)) in
  match a, b with
  | NaN, _ | _, NaN => NaN
  | Finite x, Finite y => Finite (x * y)
  | Infinity, Finite y | Finite y, Infinity => scaled true y
  | NegInfinity, Finite y | Finite y, NegInfinity => scaled false y
  | Infinity, Infinity | NegInfinity, NegInfinity => Infinity
  | Infinity, NegInfinity | NegInfinity, Infinity => NegInfinity
  end.

(** [a <= b] and [a < b]: false as soon as one side is NaN. *)
Definition numLeb (a b : Num) : bool :=
  match a, b with
  | NaN, _ | _, NaN => false
  | Finite x, Finite y => x <=? y
  | NegInfinity, _ | _, Infinity => true
  | Infinity, _ | _, NegInfinity => false
  end.

Definition numLtb (a b : Num) : bool :=
  match a, b with
  | NaN, _ | _, NaN => false
  | Finite x, Finite y => x <? y
  | Infinity, _ | _, NegInfinity => false
  | NegInfinity, _ | _, Infinity => true
  end.

(** [Math.max(a, b)]: NaN as soon as one argument is. *)
Definition numMax (a b : Num) : Num :=
  match a, b with
  | NaN, _ | _, NaN => NaN
  | Finite x, Finite y => Finite (Z.max x y)
  | Infinity, _ | _, Infinity => Infinity
  | NegInfinity, other | other, NegInfinity => other
  end.

(** [new Date(ms)] for a number: NaN and the infinities give an Invalid
    Date, held here as a time value out of range. *)
Definition dateOf (ms : Num) : Date :=
  match ms with
  | Finite t => mkDate t
  | _ => mkDate 8640000000000001
  end.

(** [String(n)], as a template literal prints a number. *)
Definition numberToString (n : Num) : string :=
  match n with
  | NaN => "NaN"
  | NegInfinity => "-Infinity"
  | Finite z => numToString z
  | Infinity => "Infinity"
  end.

End Js.

(** ** models/types.ts *)

Module Types.
Import Js.

Inductive ActivityType :=
| review | slash | vouch | unvouch | attestation | vote | reply.

Definition ActivityType_eqb (a b : ActivityType) : bool :=
  match a, b with
  | review, review | slash, slash | vouch, vouch | unvouch, unvouch
  | attestation, attestation | vote, vote | reply, reply => true
  | _, _ => false
  end.

(** The string an [ActivityType] is at run time (template literals). *)
Definition typeName (t : ActivityType) : string :=
  match t with
  | review => "review"
  | slash => "slash"
  | vouch => "vouch"
  | unvouch => "unvouch"
  | attestation => "attestation"
  | vote => "vote"
  | reply => "reply"
  end.

Record ActivityData := {
  data_id : option NumOrStr;
  data_score : option NumOrStr;
  data_comment : option string;
  data_createdAt : option NumOrStr
}.

Record Party := {
  profileId : Z;
  name : option string;
  username : option string;
  avatar : option string;
  primaryAddress : string
}.

(** [data] is read with [activity.data?.x] throughout, so it may be absent. *)
Record EthosActivity := {
  id : option string;
  type : ActivityType;
  data : option ActivityData;
  createdAt : option string;
  timestamp : option Z;
  author : Party;
  subject : Party
}.

Record SubjectUser := {
  su_profileId : Z;
  su_displayName : option string;
  su_username : option string;
  su_avatarUrl : option string;
  su_primaryAddress : option string;
  su_userkeys : option (list string)
}.

Record EthosVouch := {
  vouch_id : Z;
  vouch_subjectProfileId : Z;
  vouch_subjectUser : option SubjectUser
}.

Record EthosProfile := {
  profile_name : option string;
  profile_username : option string;
  profile_avatar : option string;
  profile_primaryAddress : option string
}.

Inductive AlertType := NEGATIVE_REVIEW | SLASH | UNVOUCH.

Record AutoDefense := {
  ad_enabled : bool;
  ad_requireConfirm : bool;
  ad_suggestedScore : Z;
  ad_suggestedComment : option string
}.

Record AlertTarget := {
  target_name : option string;
  target_address : string;
  target_profileUrl : string;
  target_profileId : option Z
}.

Record AlertAttacker := {
  attacker_name : option string;
  attacker_address : string;
  attacker_profileId : Z
}.

Record AlertPayload := {
  payload_type : AlertType;
  payload_target : AlertTarget;
  payload_attacker : AlertAttacker;
  payload_score : Z;
  payload_comment : option string;
  payload_timestamp : Date;
  payload_reviewId : string;
  payload_relationId : string;
  payload_autoDefense : option AutoDefense
}.

Record MonitorResult := {
  relationsChecked : Z;
  reviewsFound : Z;
  newNegative : Z;
  alertsSent : Z;
  errors : list string;
  duration : Z
}.

Record DefenseTemplate := {
  score : Z;
  messages : list string
}.

Definition DEFENSE_TEMPLATES : list DefenseTemplate :=
  [ {| score := 3;
       messages :=
         [ "Trusted and reliable community member. I vouch for their credibility.";
           "Known for integrity and positive contributions to the ecosystem.";
           "Solid reputation backed by consistent positive interactions.";
           "A valued member of the community with proven trustworthiness." ] |};
    {| score := 2;
       messages :=
         [ "Positive experience with this community member.";
           "Reliable and trustworthy in my interactions.";
           "Good standing member of the community." ] |} ].

(** [DEFENSE_TEMPLATES.find(t => t.score === score) || DEFENSE_TEMPLATES[0]]:
    the bucket the suggestion is drawn from. *)
Definition selectTemplate (requested : Z) : option DefenseTemplate :=
  match find (fun t => score t =? requested) DEFENSE_TEMPLATES with
  | Some t => Some t
  | None => nth_error DEFENSE_TEMPLATES 0
  end.

(** [Math.floor(Math.random() * template.messages.length)]. *)
Definition randomIndex (random : Q) (len : nat) : Z :=
  Qfloor (random * inject_Z (Z.of_nat len)).

(** [arr[i]] for an integer index: [undefined] outside the array. *)
Definition at_ {A} (l : list A) (i : Z) : option A :=
  if i <? 0 then None else nth_error l (Z.to_nat i).

Record Suggestion := {
  sg_score : Z;
  sg_message : option string
}.

(** [getRandomDefenseMessage(score)], with the value [Math.random()]
    returned made explicit. [None] stands for the TypeError of reading
    [.messages] of [undefined], which needs an empty template table. *)
Definition getRandomDefenseMessage (requested : Z) (random : Q)
  : option Suggestion :=
  match selectTemplate requested with
  | Some template =>
      Some {| sg_score := score template;
              sg_message :=
                at_ (messages template)
                    (randomIndex random (List.length (messages template))) |}
  | None => None
  end.

End Types.

(** ** Exceptions and promises *)

Module Control.

(** The completion of a call: a value, or a thrown error (its message). *)
Inductive Outcome (A : Type) :=
| Ok (a : A)
| Throw (e : string).
Arguments Ok {A} a.
Arguments Throw {A} e.

(** A settled promise. *)
Inductive Settled (A : Type) :=
| Fulfilled (a : A)
| Rejected (reason : string).
Arguments Fulfilled {A} a.
Arguments Rejected {A} reason.

(** [p.then(f)]: [f] runs on fulfilment only; a rejection passes through. *)
Definition then_ {A B} (p : Settled A) (f : A -> B) : Settled B :=
  match p with
  | Fulfilled a => Fulfilled (f a)
  | Rejected r => Rejected r
  end.

(** [await p]. *)
Definition await {A} (p : Settled A) : Outcome A :=
  match p with
  | Fulfilled a => Ok a
  | Rejected e => Throw e
  end.

(** [Promise.allSettled(ps)] is always fulfilled, with every outcome. *)
Definition allSettled {A} (ps : list (Settled A)) : Settled (list (Settled A)) :=
  Fulfilled ps.

End Control.

(** ** services/token.service.ts *)

Module TokenService.
Import Js Control.

(** What [jwt.decode] returned, read through the interface
    [PrivyTokenPayload]. The token is not verified and its payload is
    whatever the token carries, so any field can be missing ([None]).
    [exp] and [iat] are the numbers the fields are in arithmetic: a
    missing field is NaN there. *)
Record PrivyTokenPayload := {
  sid : option string;
  iss : option string;
  iat : Num;
  aud : option string;
  sub : option string;
  exp : Num
}.

(** [expiresIn] is [null] ([None]) or a number. *)
Record TokenStatus := {
  valid : bool;
  expiresAt : option Date;
  expiresIn : option Num;
  isExpired : bool;
  isExpiringSoon : bool;
  userId : option string;
  sessionId : option string
}.

(** The private fields of the singleton that carry the credential. *)
Record State := {
  currentToken : option string;
  tokenPayload : option PrivyTokenPayload
}.

(** What [jwt.decode(token)] does: throws, returns [null], or a payload. *)
Inductive Decoded :=
| DecodeThrows (e : string)
| DecodeNull
| DecodePayload (p : PrivyTokenPayload).

(** What [updateToken] tells its collaborators. *)
Inductive Notification :=
| EthosSetToken (token : string)
| EnvFileWrite (token : string).

Record UpdateResult := {
  success : bool;
  status : TokenStatus;
  error : option string
}.

Section WithDecoder.
Variable jwtDecode : string -> Decoded.

(** [decodeToken]: on a decoded payload the field [tokenPayload] is
    assigned first; the log line then formats
    [new Date(decoded.exp * 1000).toISOString()], which throws on an
    Invalid Date; the [catch] logs and the method returns [null]. *)
Definition decodeToken (st : State) (token : string)
  : State * option PrivyTokenPayload :=
  match jwtDecode token with
  | DecodeThrows _ => (st, None)
  | DecodeNull => (st, None)
  | DecodePayload decoded =>
      let st' := {| currentToken := currentToken st;
                    tokenPayload := Some decoded |} in
      if dateValid (dateOf (numMul (exp decoded) (Finite 1000)))
      then (st', Some decoded)
      else (st', None)
  end.

(** [getStatus()], at the clock reading [nowMs] of [Date.now()]. *)
Definition getStatus (st : State) (nowMs : Z) : TokenStatus :=
  match truthy strTruthy (currentToken st), tokenPayload st with
  | true, Some payload =>
      let now := nowMs / 1000 in
      let expiresIn := numSub (exp payload) (Finite now) in
      let isExpired := numLeb expiresIn (Finite 0) in
      let isExpiringSoon := numLtb expiresIn (Finite 3600) in
      {| valid := negb isExpired;
         expiresAt := Some (dateOf (numMul (exp payload) (Finite 1000)));
         expiresIn := Some (numMax (Finite 0) expiresIn);
         isExpired := isExpired;
         isExpiringSoon := isExpiringSoon;
         userId := sub payload;
         sessionId := sid payload |}
  | _, _ =>
      {| valid := false;
         expiresAt := None;
         expiresIn := None;
         isExpired := true;
         isExpiringSoon := true;
         userId := None;
         sessionId := None |}
  end.

(** [updateToken(newToken)]. [nowCheck] is the clock read for the expiry
    test, [nowStatus] the later one read by the [getStatus()] of the
    returned object. Neither [setToken] nor [updateEnvFile] throws (the
    latter catches its own errors), so the outer [catch] is not
    reached. *)
Definition updateToken (st : State) (newToken : string)
           (nowCheck nowStatus : Z)
  : UpdateResult * State * list Notification :=
  let '(st1, decoded) := decodeToken st newToken in
  match decoded with
  | None =>
      ({| success := false;
          status := getStatus st1 nowStatus;
          error := Some "Invalid token format" |}, st1, [])
  | Some payload =>
      let now := nowCheck / 1000 in
      if numLeb (exp payload) (Finite now) then
        ({| success := false;
            status := getStatus st1 nowStatus;
            error := Some "Token is already expired" |}, st1, [])
      else
        let st2 := {| currentToken := Some newToken;
                      tokenPayload := Some payload |} in
        ({| success := true;
            status := getStatus st2 nowStatus;
            error := None |}, st2,
         [EthosSetToken newToken; EnvFileWrite newToken])
  end.

End WithDecoder.

End TokenService.

(** ** config/env.ts: the part of [config_values] the services read *)

Module Config.

Record config_values := {
  ethos_userKey : string;
  telegram_enabled : bool;
  telegram_chatId : option string;
  discord_enabled : bool;
  discord_webhookUrl : option string;
  twitter_enabled : bool;
  autoDefense_enabled : bool;
  autoDefense_requireConfirm : bool;
  autoDefense_defaultScore : Z
}.

End Config.

(** ** services/alert.service.ts *)

Module AlertService.
Import Js Control Types Config.

(** The fields set by [initTelegram] and [initTwitter]: whether each client
    object was built. *)
Record State := {
  telegramBot : bool;
  twitterClient : bool
}.

(** The transports and the formatting code, as seen from [sendAlert]:
    formatting reads fields of the payload and can throw a TypeError; a
    transport call is fulfilled with what it delivered or is rejected. *)
Record Transports := {
  formatTelegram : AlertPayload -> Outcome string;
  telegramSendMessage : string -> string -> Settled Z;
  formatDiscord : AlertPayload -> Outcome string;
  discordPost : string -> string -> Settled (option string);
  formatTwitter : AlertPayload -> Outcome string
}.

Record AlertResults := {
  telegram : option string;
  discord : option string;
  twitter : option string
}.

Definition noResults : AlertResults :=
  {| telegram := None; discord := None; twitter := None |}.

(** What a channel's promise delivered: nothing when it was rejected. *)
Definition delivered (p : Settled (option string)) : option string :=
  match p with
  | Fulfilled msgId => msgId
  | Rejected _ => None
  end.

Section WithConfig.
Variable cfg : config_values.
Variable svc : State.
Variable net : Transports.

(** [sendTelegramAlert]: formatting happens before the [try], the
    transport call inside it. *)
Definition sendTelegramAlert (payload : AlertPayload)
  : Settled (option string) :=
  match telegramBot svc, telegram_chatId cfg with
  | true, Some chatId =>
      if strTruthy chatId then
        match formatTelegram net payload with
        | Throw e => Rejected e
        | Ok message =>
            match telegramSendMessage net chatId message with
            | Fulfilled message_id => Fulfilled (Some (numToString message_id))
            | Rejected _ => Fulfilled None
            end
        end
      else Fulfilled None
  | _, _ => Fulfilled None
  end.

(** [sendDiscordAlert]: returns [response.data?.id]. *)
Definition sendDiscordAlert (payload : AlertPayload)
  : Settled (option string) :=
  match discord_webhookUrl cfg with
  | Some url =>
      if strTruthy url then
        match formatDiscord net payload with
        | Throw e => Rejected e
        | Ok embed =>
            match discordPost net (url ++ "?wait=true")%string embed with
            | Fulfilled response_id => Fulfilled response_id
            | Rejected _ => Fulfilled None
            end
        end
      else Fulfilled None
  | None => Fulfilled None
  end.

(** [sendTwitterAlert]: formats inside the [try], sends nothing and
    returns a fixed marker. *)
Definition sendTwitterAlert (payload : AlertPayload)
  : Settled (option string) :=
  if twitterClient svc then
    match formatTwitter net payload with
    | Ok _ => Fulfilled (Some "twitter_dm_disabled")
    | Throw _ => Fulfilled None
    end
  else Fulfilled None.

Definition setTelegram (msgId : option string) (r : AlertResults) :=
  {| telegram := msgId; discord := discord r; twitter := twitter r |}.
Definition setDiscord (msgId : option string) (r : AlertResults) :=
  {| telegram := telegram r; discord := msgId; twitter := twitter r |}.
Definition setTwitter (msgId : option string) (r : AlertResults) :=
  {| telegram := telegram r; discord := discord r; twitter := msgId |}.

(** The promises [sendAlert] pushes: each is the channel's promise with
    the [.then] callback that writes its own field of [results]. *)
Definition promises (payload : AlertPayload)
  : list (Settled (AlertResults -> AlertResults)) :=
  (if telegram_enabled cfg
   then [then_ (sendTelegramAlert payload) setTelegram] else []) ++
  (if discord_enabled cfg
   then [then_ (sendDiscordAlert payload) setDiscord] else []) ++
  (if twitter_enabled cfg
   then [then_ (sendTwitterAlert payload) setTwitter] else []).

(** The writes the fulfilled callbacks made to [results]. *)
Definition runCallbacks (ps : list (Settled (AlertResults -> AlertResults)))
           (results : AlertResults) : AlertResults :=
  fold_left (fun r p => match p with
                        | Fulfilled write => write r
                        | Rejected _ => r
                        end) ps results.

(** [sendAlert(payload)]: [await Promise.allSettled(promises)] inside a
    [try], then [return results]. *)
Definition sendAlert (payload : AlertPayload) : Outcome AlertResults :=
  let ps := promises payload in
  match await (allSettled ps) with
  | Ok settled => Ok (runCallbacks settled noResults)
  | Throw _ => Ok (runCallbacks [] noResults)
  end.

End WithConfig.

End AlertService.

(** ** services/ethos.service.ts *)

Module EthosService.
Import Js Control.

(** A parsed response body. *)
#[local] Unset Elimination Schemes.
Inductive Json :=
| JNull
| JBool (b : bool)
| JNum (n : Z)
| JStr (s : string)
| JArr (items : list Json)
| JObj (fields : list (string * Json)).
#[local] Set Elimination Schemes.

(** What an expression over a response can evaluate to: [undefined], a
    piece of the body, or a method found on a prototype. *)
Inductive Value :=
| VUndefined
| VJson (j : Json)
| VBuiltin (method : string).

Definition toBoolean (v : Value) : bool :=
  match v with
  | VUndefined => false
  | VJson JNull => false
  | VJson (JBool b) => b
  | VJson (JNum n) => numTruthy n
  | VJson (JStr s) => strTruthy s
  | VJson (JArr _) => true
  | VJson (JObj _) => true
  | VBuiltin _ => true
  end.

(** [a || b]. *)
Definition or (a b : Value) : Value := if toBoolean a then a else b.

Fixpoint lookup (key : string) (fields : list (string * Json)) : Value :=
  match fields with
  | [] => VUndefined
  | (k, j) :: rest => if String.eqb k key then VJson j else lookup key rest
  end.

(** [v.key] for the property names this service reads. On an array,
    [values] and [map] are methods of [Array.prototype] and [length] is
    its size; none of the names read is a property of a string, number,
    boolean or function other than [length]. Reading a property of
    [undefined] or [null] throws a TypeError. *)
Definition getProp (v : Value) (key : string) : Outcome Value :=
  match v with
  | VUndefined => Throw "TypeError: Cannot read properties of undefined"
  | VJson JNull => Throw "TypeError: Cannot read properties of null"
  | VJson (JObj fields) => Ok (lookup key fields)
  | VJson (JArr items) =>
      if String.eqb key "length" then Ok (VJson (JNum (Z.of_nat (List.length items))))
      else if String.eqb key "values" then Ok (VBuiltin "values")
      else if String.eqb key "map" then Ok (VBuiltin "map")
      else Ok VUndefined
  | VJson (JStr s) =>
      if String.eqb key "length" then Ok (VJson (JNum (Z.of_nat (utf16Length s))))
      else Ok VUndefined
  | VJson (JBool _) => Ok VUndefined
  | VJson (JNum _) => Ok VUndefined
  | VBuiltin _ =>
      if String.eqb key "length" then Ok (VJson (JNum 0)) else Ok VUndefined
  end.

(** [v?.key]. *)
Definition getPropOpt (v : Value) (key : string) : Value :=
  match getProp v key with
  | Ok x => x
  | Throw _ => VUndefined
  end.

(** [Array.isArray(v)], giving the elements. *)
Definition asArray (v : Value) : option (list Json) :=
  match v with
  | VJson (JArr items) => Some items
  | _ => None
  end.

(** The response of the HTTP client: a body, or the error the response
    interceptor rethrows (status when the server answered). *)
Inductive Http :=
| HttpOk (data : Value)
| HttpError (status : option Z) (message : string).

(** *** [extractProfileId] *)

Definition isDigit (c : ascii) : bool :=
  (48 <=? nat_of_ascii c)%nat && (nat_of_ascii c <=? 57)%nat.

Definition digitValue (c : ascii) : Z := Z.of_nat (nat_of_ascii c) - 48.

Definition isSpace (c : ascii) : bool :=
  let n := nat_of_ascii c in
  ((n =? 32) || ((9 <=? n) && (n <=? 13)))%nat.

Fixpoint trimStart (s : string) : string :=
  match s with
  | String c rest => if isSpace c then trimStart rest else s
  | EmptyString => s
  end.

(** The longest prefix of decimal digits, as a number; [None] if empty. *)
Fixpoint leadingDigits (s : string) (acc : option Z) : option Z :=
  match s with
  | String c rest =>
      if isDigit c
      then leadingDigits rest
             (Some (10 * match acc with Some a => a | None => 0 end + digitValue c))
      else acc
  | EmptyString => acc
  end.

(** [parseInt(s, 10)]; [None] is [NaN]. White space is the ASCII part of
    what the language skips. *)
Definition parseInt (s : string) : option Z :=
  match trimStart s with
  | String "-" rest => option_map Z.opp (leadingDigits rest None)
  | String "+" rest => leadingDigits rest None
  | t => leadingDigits t None
  end.

(** The three results of [extractProfileId]: [null], [NaN], a number. *)
Inductive ProfileId :=
| PidNull
| PidNaN
| PidNum (n : Z).

Definition extractProfileId (userkey : string) : ProfileId :=
  if startsWith "profileId:" userkey then
    match parseInt (replace "profileId:" "" userkey) with
    | Some n => PidNum n
    | None => PidNaN
    end
  else PidNull.

(** [!profileId]. *)
Definition profileIdFalsy (p : ProfileId) : bool :=
  match p with
  | PidNull => true
  | PidNaN => true
  | PidNum n => negb (numTruthy n)
  end.

(** *** [getVouches] *)

(** An object built by the [map] callback of [getVouches]. *)
Record VouchObject := {
  vo_id : Value;
  vo_archived : Value;
  vo_authorProfileId : Value;
  vo_subjectProfileId : Value;
  vo_comment : Value;
  vo_staked : Value;
  vo_activityChecksum : Value;
  vo_createdAt : Value;
  vo_updatedAt : Value;
  vo_unvouchedAt : Value;
  vo_subjectUser : Value
}.

(** The callback [(v) => ({ id: v.id || v.subjectProfileId, ... })];
    [nowIso] is [new Date().toISOString()]. Every read is of the same
    [v], so the first one decides whether the callback throws. *)
Definition convertVouch (nowIso : string) (v : Json) : Outcome VouchObject :=
  match getProp (VJson v) "id" with
  | Throw e => Throw e
  | Ok v_id =>
      let get k := getPropOpt (VJson v) k in
      Ok {| vo_id := or v_id (get "subjectProfileId");
            vo_archived := or (get "archived") (VJson (JBool false));
            vo_authorProfileId := get "authorProfileId";
            vo_subjectProfileId := get "subjectProfileId";
            vo_comment := or (get "comment") (VJson JNull);
            vo_staked := or (get "staked") (VJson (JStr "0"));
            vo_activityChecksum := or (get "activityChecksum") (VJson (JStr ""));
            vo_createdAt := or (get "createdAt") (VJson (JStr nowIso));
            vo_updatedAt := or (get "updatedAt") (VJson (JStr nowIso));
            vo_unvouchedAt := or (get "unvouchedAt") (VJson JNull);
            vo_subjectUser := get "subjectUser" |}
  end.

(** [items.map(f)] for a callback that can throw. *)
Fixpoint mapThrowing {A B} (f : A -> Outcome B) (items : list A)
  : Outcome (list B) :=
  match items with
  | [] => Ok []
  | x :: rest =>
      match f x with
      | Throw e => Throw e
      | Ok y =>
          match mapThrowing f rest with
          | Throw e => Throw e
          | Ok ys => Ok (y :: ys)
          end
      end
  end.

Section WithClient.
(** [this.client.post('/api/v2/vouches', { authorProfileIds: [id] })]. *)
Variable postVouches : Z -> Http.
(** [this.client.post('/api/v2/activities/profile/received', ...)]. *)
Variable postReceived : string -> Http.
Variable nowIso : string.

(** The body of the [try] block of [getVouches]. *)
Definition getVouches_try (userkey : string) : Outcome (list VouchObject) :=
  let profileId := extractProfileId userkey in
  if profileIdFalsy profileId then Ok []
  else
    match profileId with
    | PidNum n =>
        match postVouches n with
        | HttpError _ message => Throw message
        | HttpOk data =>
            let vouches :=
              or (getPropOpt data "values") (or data (VJson (JArr []))) in
            (* [vouches.length] is read for the log line: [vouches] is
               truthy or the empty array, so the read does not throw *)
            match asArray vouches with
            | Some items => mapThrowing (convertVouch nowIso) items
            | None => Throw "TypeError: vouches.map is not a function"
            end
        end
    | PidNull | PidNaN => Ok [] (* falsy: not reached *)
    end.

(** [getVouches(userkey)]: the [catch] logs and returns [[]]. *)
Definition getVouches (userkey : string) : Outcome (list VouchObject) :=
  match getVouches_try userkey with
  | Ok vouches => Ok vouches
  | Throw _ => Ok []
  end.

(** The body of the [try] block of [getReceivedActivities]. *)
Definition getReceivedActivities_try (userkey : string)
  : Outcome (list Json) :=
  match postReceived userkey with
  | HttpError _ message => Throw message
  | HttpOk data =>
      let activities :=
        or (getPropOpt data "values")
           (or (getPropOpt data "activities") (VJson (JArr []))) in
      match asArray activities with
      | Some items => Ok items
      | None => Ok []
      end
  end.

(** [getReceivedActivities(userkey, types)]. *)
Definition getReceivedActivities (userkey : string) : Outcome (list Json) :=
  match getReceivedActivities_try userkey with
  | Ok activities => Ok activities
  | Throw _ => Ok []
  end.

End WithClient.

(** *** Single-item operations *)

(** The answer to a profile lookup, its body read as the declared type
    ([None] for a falsy body). *)
Inductive ProfileHttp :=
| ProfileOk (data : option Types.EthosProfile)
| ProfileError (status : option Z) (message : string).

(** The answer to [POST /api/v2/reviews]: the fields of the body that
    [postReview] reads, or the error message it builds. *)
Inductive ReviewHttp :=
| ReviewOk (data_id data_reviewId data_txHash : option string)
| ReviewError (message : string).

Record PostReviewResult := {
  success : bool;
  reviewId : option string;
  txHash : option string;
  error : option string
}.

Section WithItemClient.
Variable getWallet : string -> ProfileHttp.
Variable getProfiles : string -> ProfileHttp.
Variable postReviews : string -> Z -> string -> ReviewHttp.

(** [getProfile(userkey)]: an address is first looked up by wallet and
    any failure there falls through to the profiles endpoint, where
    only a 404 is turned into [null]. *)
Definition getProfile (userkey : string)
  : Outcome (option Types.EthosProfile) :=
  let viaProfiles :=
    match getProfiles userkey with
    | ProfileOk data => Ok data
    | ProfileError (Some 404) _ => Ok None
    | ProfileError _ message => Throw message
    end in
  if startsWith "address:" userkey || startsWith "0x" userkey then
    match getWallet (replace "address:" "" userkey) with
    | ProfileOk data => Ok data
    | ProfileError _ _ => viaProfiles
    end
  else viaProfiles.

(** [postReview(targetUserkey, score, comment)] never throws. *)
Definition postReview (targetUserkey : string) (score : Z) (comment : string)
  : PostReviewResult :=
  match postReviews targetUserkey score comment with
  | ReviewOk data_id data_reviewId data_txHash =>
      {| success := true;
         reviewId := orElse strTruthy data_id data_reviewId;
         txHash := data_txHash;
         error := None |}
  | ReviewError message =>
      {| success := false;
         reviewId := None;
         txHash := None;
         error := Some message |}
  end.

End WithItemClient.

Definition getProfileUrl (address : string) : string :=
  ("https://app.ethos.network/profile/" ++ address)%string.

Definition profileIdToUserkey (profileId : Z) : string :=
  ("profileId:" ++ numToString profileId)%string.

End EthosService.

(** ** services/database.service.ts *)

Module Db.
Import Js Control Types.

Inductive AlertChannel := TELEGRAM | DISCORD | TWITTER | ALL.
Inductive AlertStatus :=
| ALERT_PENDING | ALERT_CONFIRMED | ALERT_IGNORED | ALERT_EXPIRED.
Inductive DefenseStatus := PENDING | CONFIRMED | POSTED | FAILED.

Record Relation := {
  relation_id : string;
  relation_userkey : string;
  relation_name : option string;
  relation_address : string;
  relation_avatarUrl : option string;
  relation_score : Z;
  relation_isActive : bool
}.

Record Review := {
  review_id : string;
  review_relationId : string;
  review_authorKey : string;
  review_authorName : option string;
  review_authorAddr : option string;
  review_score : Z;
  review_comment : option string;
  review_activityId : option string;
  review_createdAt : Date;
  review_isNegative : bool;
  review_alerted : bool
}.

Record Alert := {
  alert_id : string;
  alert_reviewId : string;
  alert_relationId : string;
  alert_type : AlertType;
  alert_channel : AlertChannel;
  alert_messageId : option string;
  alert_status : AlertStatus;
  alert_respondedAt : option Date
}.

Record Defense := {
  defense_id : string;
  defense_reviewId : string;
  defense_targetKey : string;
  defense_score : Z;
  defense_comment : string;
  defense_status : DefenseStatus;
  defense_ethosReviewId : option string;
  defense_txHash : option string;
  defense_error : option string;
  defense_postedAt : option Date
}.

Record MonitorLog := {
  log_relationsChecked : Z;
  log_reviewsFound : Z;
  log_newNegative : Z;
  log_alertsSent : Z;
  log_errors : option string;
  log_duration : Z
}.

(** The tables, rows in insertion order. [idsDrawn] counts the ids the
    store has generated for rows created without one. *)
Record Store := {
  relations : list Relation;
  reviews : list Review;
  alerts : list Alert;
  defenses : list Defense;
  monitorLogs : list MonitorLog;
  idsDrawn : nat
}.

Definition emptyStore : Store :=
  {| relations := []; reviews := []; alerts := []; defenses := [];
     monitorLogs := []; idsDrawn := 0 |}.

(** A query: its completion and the store afterwards. *)
Definition Query (A : Type) := Store -> Outcome A * Store.

Definition optEqb (o : option string) (s : string) : bool :=
  match o with
  | Some x => String.eqb x s
  | None => false
  end.

(** [prisma.x.update({ where: { id } })]: rewrite the row with that key,
    or report that there is none. *)
Fixpoint updateFirst {A} (p : A -> bool) (f : A -> A) (rows : list A)
  : option (A * list A) :=
  match rows with
  | [] => None
  | r :: rest =>
      if p r then Some (f r, f r :: rest)
      else match updateFirst p f rest with
           | Some (r', rest') => Some (r', r :: rest')
           | None => None
           end
  end.

Section Queries.
(** Modelled from the spec: the Prisma schema (prisma/schema.prisma) is
    not among the sources. Taken from it are the generated row ids
    ([freshId], the n-th id the store hands out), the defaults of the
    columns the code leaves out on creation (a review is not alerted,
    an alert is pending, a relation is active), and the unique columns,
    which are the ones the code addresses with [findUnique], [update]
    and [upsert]: every [id], and [activityId] of a review. *)
Variable freshId : nat -> string.

Definition upsertRelation (id userkey : string) (name : option string)
           (address : string) (avatarUrl : option string) : Query Relation :=
  fun s =>
    let update r :=
      {| relation_id := relation_id r;
         relation_userkey := relation_userkey r;
         relation_name := name;
         relation_address := relation_address r;
         relation_avatarUrl := avatarUrl;
         relation_score := relation_score r;
         relation_isActive := relation_isActive r |} in
    let create :=
      {| relation_id := id;
         relation_userkey := userkey;
         relation_name := name;
         relation_address := address;
         relation_avatarUrl := avatarUrl;
         relation_score := 0;
         relation_isActive := true |} in
    let commit r rows :=
      (Ok r, {| relations := rows; reviews := reviews s; alerts := alerts s;
                defenses := defenses s; monitorLogs := monitorLogs s;
                idsDrawn := idsDrawn s |}) in
    match updateFirst (fun r => String.eqb (relation_id r) id) update
                      (relations s) with
    | Some (r, rows) => commit r rows
    | None => commit create (relations s ++ [create])
    end.

Definition getRelationById (id : string) : Query (option Relation) :=
  fun s => (Ok (find (fun r => String.eqb (relation_id r) id) (relations s)), s).

Definition reviewExists (activityId : string) : Query bool :=
  fun s =>
    let review :=
      find (fun r => optEqb (review_activityId r) activityId) (reviews s) in
    (Ok (match review with Some _ => true | None => false end), s).

(** The argument of [createReview]. *)
Record ReviewData := {
  rd_id : string;
  rd_relationId : string;
  rd_authorKey : string;
  rd_authorName : option string;
  rd_authorAddr : option string;
  rd_score : Z;
  rd_comment : option string;
  rd_activityId : option string;
  rd_createdAt : Date
}.

Definition createReview (data : ReviewData) : Query Review :=
  fun s =>
    let row :=
      {| review_id := rd_id data;
         review_relationId := rd_relationId data;
         review_authorKey := rd_authorKey data;
         review_authorName := rd_authorName data;
         review_authorAddr := rd_authorAddr data;
         review_score := rd_score data;
         review_comment := rd_comment data;
         review_activityId := rd_activityId data;
         review_createdAt := rd_createdAt data;
         review_isNegative := rd_score data <? 0;
         review_alerted := false |} in
    let clash r :=
      String.eqb (review_id r) (rd_id data) ||
      match rd_activityId data with
      | Some a => optEqb (review_activityId r) a
      | None => false
      end in
    if existsb clash (reviews s)
    then (Throw "PrismaClientKnownRequestError: Unique constraint failed", s)
    else (Ok row,
          {| relations := relations s; reviews := reviews s ++ [row];
             alerts := alerts s; defenses := defenses s;
             monitorLogs := monitorLogs s; idsDrawn := idsDrawn s |}).

(** [data: { alerted: true }]. *)
Definition alertedRow (r : Review) : Review :=
  {| review_id := review_id r;
     review_relationId := review_relationId r;
     review_authorKey := review_authorKey r;
     review_authorName := review_authorName r;
     review_authorAddr := review_authorAddr r;
     review_score := review_score r;
     review_comment := review_comment r;
     review_activityId := review_activityId r;
     review_createdAt := review_createdAt r;
     review_isNegative := review_isNegative r;
     review_alerted := true |}.

Definition markReviewAlerted (id : string) : Query Review :=
  fun s =>
    match updateFirst (fun r => String.eqb (review_id r) id) alertedRow (reviews s) with
    | Some (r, rows) =>
        (Ok r, {| relations := relations s; reviews := rows;
                  alerts := alerts s; defenses := defenses s;
                  monitorLogs := monitorLogs s; idsDrawn := idsDrawn s |})
    | None => (Throw "PrismaClientKnownRequestError: Record to update not found", s)
    end.

Definition createAlert (reviewId relationId : string) (type : AlertType)
           (channel : AlertChannel) (messageId : option string) : Query Alert :=
  fun s =>
    let row :=
      {| alert_id := freshId (idsDrawn s);
         alert_reviewId := reviewId;
         alert_relationId := relationId;
         alert_type := type;
         alert_channel := channel;
         alert_messageId := messageId;
         alert_status := ALERT_PENDING;
         alert_respondedAt := None |} in
    (Ok row, {| relations := relations s; reviews := reviews s;
                alerts := alerts s ++ [row]; defenses := defenses s;
                monitorLogs := monitorLogs s; idsDrawn := S (idsDrawn s) |}).

Definition updateAlertStatus (id : string) (status : AlertStatus)
           (now : Date) : Query Alert :=
  fun s =>
    let update a :=
      {| alert_id := alert_id a;
         alert_reviewId := alert_reviewId a;
         alert_relationId := alert_relationId a;
         alert_type := alert_type a;
         alert_channel := alert_channel a;
         alert_messageId := alert_messageId a;
         alert_status := status;
         alert_respondedAt := Some now |} in
    match updateFirst (fun a => String.eqb (alert_id a) id) update (alerts s) with
    | Some (a, rows) =>
        (Ok a, {| relations := relations s; reviews := reviews s;
                  alerts := rows; defenses := defenses s;
                  monitorLogs := monitorLogs s; idsDrawn := idsDrawn s |})
    | None => (Throw "PrismaClientKnownRequestError: Record to update not found", s)
    end.

Definition getAlertById (id : string) : Query (option Alert) :=
  fun s => (Ok (find (fun a => String.eqb (alert_id a) id) (alerts s)), s).

Definition createDefense (reviewId targetKey : string) (score : Z)
           (comment : string) (status : option DefenseStatus) : Query Defense :=
  fun s =>
    let row :=
      {| defense_id := freshId (idsDrawn s);
         defense_reviewId := reviewId;
         defense_targetKey := targetKey;
         defense_score := score;
         defense_comment := comment;
         defense_status := match status with Some st => st | None => PENDING end;
         defense_ethosReviewId := None;
         defense_txHash := None;
         defense_error := None;
         defense_postedAt := None |} in
    (Ok row, {| relations := relations s; reviews := reviews s;
                alerts := alerts s; defenses := defenses s ++ [row];
                monitorLogs := monitorLogs s; idsDrawn := S (idsDrawn s) |}).

(** The optional third argument of [updateDefenseStatus]; a field left
    out is not written. *)
Record DefenseExtra := {
  extra_ethosReviewId : option string;
  extra_txHash : option string;
  extra_error : option string
}.

Definition noExtra : DefenseExtra :=
  {| extra_ethosReviewId := None; extra_txHash := None; extra_error := None |}.

Definition written {A} (new old : option A) : option A :=
  match new with Some _ => new | None => old end.

Definition updateDefenseStatus (id : string) (status : DefenseStatus)
           (extra : DefenseExtra) (now : Date) : Query Defense :=
  fun s =>
    let update d :=
      {| defense_id := defense_id d;
         defense_reviewId := defense_reviewId d;
         defense_targetKey := defense_targetKey d;
         defense_score := defense_score d;
         defense_comment := defense_comment d;
         defense_status := status;
         defense_ethosReviewId :=
           written (extra_ethosReviewId extra) (defense_ethosReviewId d);
         defense_txHash := written (extra_txHash extra) (defense_txHash d);
         defense_error := written (extra_error extra) (defense_error d);
         defense_postedAt :=
           match status with
           | POSTED => Some now
           | _ => defense_postedAt d
           end |} in
    match updateFirst (fun d => String.eqb (defense_id d) id) update (defenses s) with
    | Some (d, rows) =>
        (Ok d, {| relations := relations s; reviews := reviews s;
                  alerts := alerts s; defenses := rows;
                  monitorLogs := monitorLogs s; idsDrawn := idsDrawn s |})
    | None => (Throw "PrismaClientKnownRequestError: Record to update not found", s)
    end.

Definition isActive (d : Defense) : bool :=
  match defense_status d with
  | PENDING | CONFIRMED => true
  | POSTED | FAILED => false
  end.

Definition getPendingDefense (reviewId : string) : Query (option Defense) :=
  fun s =>
    (Ok (find (fun d => String.eqb (defense_reviewId d) reviewId && isActive d)
              (defenses s)), s).

Definition logMonitorRun (data : MonitorLog) : Query MonitorLog :=
  fun s =>
    (Ok data, {| relations := relations s; reviews := reviews s;
                 alerts := alerts s; defenses := defenses s;
                 monitorLogs := monitorLogs s ++ [data];
                 idsDrawn := idsDrawn s |}).

End Queries.

End Db.

(** ** services/monitor.service.ts *)

Module MonitorService.
Import Js Control Types Config.

(** *** The world outside and inside the process *)

(** Everything the services read from outside the process. The oracles
    [clock], [random] and [dbFault] are indexed by [tick], the number of
    reads made so far. *)
Record Env := {
  cfg : config_values;
  (* the language run time *)
  clock : nat -> Z;                      (* Date.now() *)
  random : nat -> Q;                     (* Math.random() *)
  dateParse : string -> option Z;        (* new Date(s).getTime(); None is NaN *)
  toNumber : string -> option Z;         (* Number(s); None is NaN *)
  (* the store *)
  freshId : nat -> string;
  dbFault : nat -> bool;                 (* the query is rejected *)
  (* the Ethos API *)
  postVouches : Z -> EthosService.Http;
  postReceived : string -> EthosService.Http;
  getWallet : string -> EthosService.ProfileHttp;
  getProfiles : string -> EthosService.ProfileHttp;
  postReviews : string -> Z -> string -> EthosService.ReviewHttp;
  (* the unchecked casts [as EthosVouch[]] and [as EthosActivity[]] *)
  asVouch : EthosService.VouchObject -> EthosVouch;
  asActivity : EthosService.Json -> EthosActivity;
  nowIso : string;                       (* new Date().toISOString() *)
  (* the alert channels *)
  alertClients : AlertService.State;
  transports : AlertService.Transports
}.

(** The state of the process: the store, the fields of the
    [MonitorService] and [TokenService] singletons, the submissions made
    to the network through [postReview], and the count of oracle reads. *)
Record World := {
  db : Db.Store;
  isRunning : bool;
  lastRunAt : option Date;
  token : TokenService.State;
  submitted : list (string * Z * string);
  tick : nat
}.

(** The state of one cycle: the world and the [result] object that
    [runMonitorCycle] shares with [processActivity]. *)
Record Cycle := {
  world : World;
  result : MonitorResult
}.

(** *** The monad of [async] methods: state and exceptions *)

Definition M (S A : Type) := S -> Outcome A * S.

Definition ret {S A} (a : A) : M S A := fun s => (Ok a, s).

Definition throw {S A} (e : string) : M S A := fun s => (Throw e, s).

Definition bind {S A B} (m : M S A) (k : A -> M S B) : M S B :=
  fun s =>
    match m s with
    | (Ok a, s') => k a s'
    | (Throw e, s') => (Throw e, s')
    end.

(** [try { m } catch (error) { handler error }]. *)
Definition tryCatch {S A} (m : M S A) (handler : string -> M S A) : M S A :=
  fun s =>
    match m s with
    | (Ok a, s') => (Ok a, s')
    | (Throw e, s') => handler e s'
    end.

(** [try { m } finally { cleanup }], for a [cleanup] that is a plain
    assignment. *)
Definition finally_ {S A} (m : M S A) (cleanup : S -> S) : M S A :=
  fun s => let '(o, s') := m s in (o, cleanup s').

Definition modify {S} (f : S -> S) : M S unit := fun s => (Ok tt, f s).

Definition gets {S A} (f : S -> A) : M S A := fun s => (Ok (f s), s).

(** [for (const x of xs) { body x }]. *)
Fixpoint forEach {S A} (xs : list A) (body : A -> M S unit) : M S unit :=
  match xs with
  | [] => ret tt
  | x :: rest => bind (body x) (fun _ => forEach rest body)
  end.

Declare Scope monad_scope.
Delimit Scope monad_scope with monad.
Notation "x <- m ;; k" := (bind m (fun x => k))
  (at level 61, m at next level, right associativity) : monad_scope.
Notation "m ;;; k" := (bind m (fun _ => k))
  (at level 61, right associativity) : monad_scope.
Local Open Scope monad_scope.

Definition setDb (s : Db.Store) (w : World) : World :=
  {| db := s; isRunning := isRunning w; lastRunAt := lastRunAt w;
     token := token w; submitted := submitted w; tick := tick w |}.

Definition setIsRunning (b : bool) (w : World) : World :=
  {| db := db w; isRunning := b; lastRunAt := lastRunAt w;
     token := token w; submitted := submitted w; tick := tick w |}.

Definition setLastRunAt (d : Date) (w : World) : World :=
  {| db := db w; isRunning := isRunning w; lastRunAt := Some d;
     token := token w; submitted := submitted w; tick := tick w |}.

Definition addSubmitted (call : string * Z * string) (w : World) : World :=
  {| db := db w; isRunning := isRunning w; lastRunAt := lastRunAt w;
     token := token w; submitted := submitted w ++ [call]; tick := tick w |}.

Definition setToken (t : TokenService.State) (w : World) : World :=
  {| db := db w; isRunning := isRunning w; lastRunAt := lastRunAt w;
     token := t; submitted := submitted w; tick := tick w |}.

Definition advance (w : World) : World :=
  {| db := db w; isRunning := isRunning w; lastRunAt := lastRunAt w;
     token := token w; submitted := submitted w; tick := S (tick w) |}.

Definition setResult (r : MonitorResult) (c : Cycle) : Cycle :=
  {| world := world c; result := r |}.

(** A method of the world run inside a cycle. *)
Definition inWorld {A} (m : M World A) : M Cycle A :=
  fun c => let '(o, w) := m (world c) in (o, {| world := w; result := result c |}).

Section WithEnv.
Variable env : Env.

(** [Date.now()]. *)
Definition dateNow : M World Z :=
  fun w => (Ok (clock env (tick w)), advance w).

(** [new Date()]. *)
Definition newDate : M World Date :=
  now <- dateNow ;; ret (mkDate now).

(** [Math.random()]. *)
Definition mathRandom : M World Q :=
  fun w => (Ok (random env (tick w)), advance w).

(** [await db.query(...)]: the query runs on the store unless the
    store rejects it. *)
Definition query {A} (q : Db.Query A) : M World A :=
  fun w =>
    if dbFault env (tick w)
    then (Throw "PrismaClientInitializationError", advance w)
    else let '(o, s) := q (db w) in (o, advance (setDb s w)).

(** [await ethosService.postReview(...)], recording the submission. *)
Definition postReview (targetKey : string) (score : Z) (comment : string)
  : M World EthosService.PostReviewResult :=
  fun w =>
    (Ok (EthosService.postReview (postReviews env) targetKey score comment),
     addSubmitted (targetKey, score, comment) w).

(** [await alertService.sendAlert(payload)]. *)
Definition sendAlert (payload : AlertPayload) : M World AlertService.AlertResults :=
  fun w =>
    (AlertService.sendAlert (cfg env) (alertClients env) (transports env) payload, w).

(** *** [parseActivityTimestamp] *)

(** [ts < 10000000000 ? ts * 1000 : ts]. *)
Definition toMillis (ts : Z) : Z :=
  if ts <? 10000000000 then ts * 1000 else ts.

(** [Number(activity.data.createdAt)]. *)
Definition numberOf (v : NumOrStr) : option Z :=
  match v with
  | VNum n => Some n
  | VStr s => toNumber env s
  end.

Definition dataField {A} (f : ActivityData -> option A) (activity : EthosActivity)
  : option A :=
  match data activity with
  | Some d => f d
  | None => None
  end.

Definition parseActivityTimestamp (activity : EthosActivity) : M World Date :=
  let fromData :=
    match dataField data_createdAt activity with
    | Some v =>
        if valTruthy v then
          match numberOf v with
          | Some ts => ret (mkDate (toMillis ts))
          | None => newDate
          end
        else newDate
    | None => newDate
    end in
  let fromCreatedAt :=
    match createdAt activity with
    | Some s =>
        if strTruthy s then
          match dateParse env s with
          | Some parsed => ret (mkDate parsed)
          | None => fromData
          end
        else fromData
    | None => fromData
    end in
  match timestamp activity with
  | Some ts =>
      if numTruthy ts then ret (mkDate (toMillis ts)) else fromCreatedAt
  | None => fromCreatedAt
  end.

(** *** [processActivity] *)

(** [String(activity.data?.id || activity.id || `${activity.type}_${Date.now()}`)]. *)
Definition activityIdOf (activity : EthosActivity) : M World string :=
  let synthetic :=
    now <- dateNow ;;
    ret (typeName (type activity) ++ "_" ++ numToString now)%string in
  let fromId :=
    match id activity with
    | Some s => if strTruthy s then ret s else synthetic
    | None => synthetic
    end in
  match dataField data_id activity with
  | Some v => if valTruthy v then ret (valToString v) else fromId
  | None => fromId
  end.

(** The score as a number: the API's three words, or the number given. *)
Definition scoreOf (activity : EthosActivity) : Z :=
  match dataField data_score activity with
  | Some (VStr scoreValue) =>
      if String.eqb scoreValue "negative" then -1
      else if String.eqb scoreValue "positive" then 1
      else 0
  | Some (VNum scoreValue) => scoreValue
  | None => 0
  end.

(** [score < 0 || activity.type === 'slash']. *)
Definition isNegativeOf (activity : EthosActivity) : bool :=
  (scoreOf activity <? 0) || ActivityType_eqb (type activity) slash.

(** [activity.data?.comment || null]. *)
Definition commentOf (activity : EthosActivity) : option string :=
  orElse strTruthy (dataField data_comment activity) None.

Definition alertTypeOf (activity : EthosActivity) : AlertType :=
  if ActivityType_eqb (type activity) slash then SLASH else NEGATIVE_REVIEW.

(** [payload.type === 'SLASH' ? 'SLASH' : 'NEGATIVE_REVIEW']. *)
Definition storedAlertType (t : AlertType) : AlertType :=
  match t with
  | SLASH => SLASH
  | _ => NEGATIVE_REVIEW
  end.

Definition bump (f : MonitorResult -> MonitorResult) : M Cycle unit :=
  modify (fun c => setResult (f (result c)) c).

Definition incRelationsChecked (r : MonitorResult) : MonitorResult :=
  {| relationsChecked := relationsChecked r + 1; reviewsFound := reviewsFound r;
     newNegative := newNegative r; alertsSent := alertsSent r;
     errors := errors r; duration := duration r |}.

Definition addReviewsFound (n : Z) (r : MonitorResult) : MonitorResult :=
  {| relationsChecked := relationsChecked r; reviewsFound := reviewsFound r + n;
     newNegative := newNegative r; alertsSent := alertsSent r;
     errors := errors r; duration := duration r |}.

Definition incNewNegative (r : MonitorResult) : MonitorResult :=
  {| relationsChecked := relationsChecked r; reviewsFound := reviewsFound r;
     newNegative := newNegative r + 1; alertsSent := alertsSent r;
     errors := errors r; duration := duration r |}.

Definition incAlertsSent (r : MonitorResult) : MonitorResult :=
  {| relationsChecked := relationsChecked r; reviewsFound := reviewsFound r;
     newNegative := newNegative r; alertsSent := alertsSent r + 1;
     errors := errors r; duration := duration r |}.

Definition pushError (e : string) (r : MonitorResult) : MonitorResult :=
  {| relationsChecked := relationsChecked r; reviewsFound := reviewsFound r;
     newNegative := newNegative r; alertsSent := alertsSent r;
     errors := errors r ++ [e]; duration := duration r |}.

Definition setDuration (d : Z) (r : MonitorResult) : MonitorResult :=
  {| relationsChecked := relationsChecked r; reviewsFound := reviewsFound r;
     newNegative := newNegative r; alertsSent := alertsSent r;
     errors := errors r; duration := d |}.

(** The object literal [payload] of [processActivity]. *)
Definition alertPayload (activity : EthosActivity) (relationId : string)
           (review : Db.Review) (relation : Db.Relation) (defense : Suggestion)
           (now : Date) : AlertPayload :=
  {| payload_type := alertTypeOf activity;
     payload_target :=
       {| target_name := Db.relation_name relation;
          target_address := Db.relation_address relation;
          target_profileUrl :=
            EthosService.getProfileUrl (Db.relation_address relation);
          target_profileId := EthosService.parseInt relationId |};
     payload_attacker :=
       {| attacker_name :=
            orElse strTruthy (name (author activity)) (username (author activity));
          attacker_address := primaryAddress (author activity);
          attacker_profileId := profileId (author activity) |};
     payload_score := scoreOf activity;
     payload_comment := commentOf activity;
     payload_timestamp := now;
     payload_reviewId := Db.review_id review;
     payload_relationId := relationId;
     payload_autoDefense :=
       if autoDefense_enabled (cfg env)
       then Some {| ad_enabled := true;
                    ad_requireConfirm := autoDefense_requireConfirm (cfg env);
                    ad_suggestedScore := sg_score defense;
                    ad_suggestedComment := sg_message defense |}
       else None |}.

(** One block [if (alertResults.x) { await db.createAlert(...);
    result.alertsSent++; }]. The source has two, for [telegram] with
    channel [TELEGRAM] and for [discord] with channel [DISCORD]. *)
Definition storeAlert (review : Db.Review) (relationId : string)
           (payload : AlertPayload) (channel : Db.AlertChannel)
           (messageId : option string) : M Cycle unit :=
  if truthy strTruthy messageId
  then inWorld (query (Db.createAlert (freshId env) (Db.review_id review) relationId
                         (storedAlertType (payload_type payload))
                         channel messageId)) ;;;
       bump incAlertsSent
  else ret tt.

(** The block [if (config_values.autoDefense.enabled) { await
    db.createDefense(...) }]. The store takes a comment that is a string. *)
Definition storeDefense (review : Db.Review) (relation : Db.Relation)
           (defense : Suggestion) : M Cycle unit :=
  if autoDefense_enabled (cfg env)
  then match sg_message defense with
       | Some message =>
           inWorld (query (Db.createDefense (freshId env) (Db.review_id review)
                             (Db.relation_userkey relation)
                             (sg_score defense) message (Some Db.PENDING))) ;;;
           ret tt
       | None => throw "PrismaClientValidationError: Argument comment is missing"
       end
  else ret tt.

(** The part of [processActivity] after [const relation = ...; if
    (!relation) return;]. *)
Definition dispatchAlert (activity : EthosActivity) (relationId : string)
           (review : Db.Review) (relation : Db.Relation) : M Cycle unit :=
  rnd <- inWorld mathRandom ;;
  match getRandomDefenseMessage (autoDefense_defaultScore (cfg env)) rnd with
  | None => throw "TypeError: Cannot read properties of undefined"
  | Some defense =>
      now <- inWorld newDate ;;
      let payload := alertPayload activity relationId review relation defense now in
      alertResults <- inWorld (sendAlert payload) ;;
      storeAlert review relationId payload Db.TELEGRAM
                 (AlertService.telegram alertResults) ;;;
      storeAlert review relationId payload Db.DISCORD
                 (AlertService.discord alertResults) ;;;
      storeDefense review relation defense ;;;
      inWorld (query (Db.markReviewAlerted (Db.review_id review))) ;;;
      ret tt
  end.

(** The part of [processActivity] under [if (isNegative)]. *)
Definition alertNegative (activity : EthosActivity) (relationId : string)
           (review : Db.Review) : M Cycle unit :=
  bump incNewNegative ;;;
  relation <- inWorld (query (Db.getRelationById relationId)) ;;
  match relation with
  | None => ret tt
  | Some relation => dispatchAlert activity relationId review relation
  end.

Definition processActivity (activity : EthosActivity) (relationId : string)
  : M Cycle unit :=
  activityId <- inWorld (activityIdOf activity) ;;
  exists_ <- inWorld (query (Db.reviewExists activityId)) ;;
  if exists_ : bool then ret tt
  else
    let score := scoreOf activity in
    let isNegative := isNegativeOf activity in
    createdAt <- inWorld (parseActivityTimestamp activity) ;;
    review <- inWorld (query (Db.createReview
                {| Db.rd_id := (typeName (type activity) ++ "_" ++ activityId)%string;
                   Db.rd_relationId := relationId;
                   Db.rd_authorKey :=
                     EthosService.profileIdToUserkey (profileId (author activity));
                   Db.rd_authorName :=
                     orElse strTruthy (name (author activity))
                            (username (author activity));
                   Db.rd_authorAddr := Some (primaryAddress (author activity));
                   Db.rd_score := score;
                   Db.rd_comment := commentOf activity;
                   Db.rd_activityId := Some activityId;
                   Db.rd_createdAt := createdAt |})) ;;
    if isNegative then alertNegative activity relationId review else ret tt.

(** *** [runMonitorCycle] *)

Definition liftOutcome {S A} (o : Outcome A) : M S A := fun s => (o, s).

(** What [runMonitorCycle] knows of a relation's profile. *)
Record ProfileData := {
  pd_name : option string;
  pd_address : option string;
  pd_avatar : option string
}.

Definition embeddedProfile (vouch : EthosVouch) : ProfileData :=
  match vouch_subjectUser vouch with
  | Some subjectUser =>
      let addressKey :=
        match su_userkeys subjectUser with
        | Some userkeys => find (startsWith "address:") userkeys
        | None => None
        end in
      {| pd_name := orElse strTruthy (su_displayName subjectUser)
                           (su_username subjectUser);
         pd_address :=
           orElse strTruthy (su_primaryAddress subjectUser)
                  (match addressKey with
                   | Some k => if strTruthy k
                               then Some (replace "address:" "" k) else None
                   | None => None
                   end);
         pd_avatar := su_avatarUrl subjectUser |}
  | None => {| pd_name := None; pd_address := None; pd_avatar := None |}
  end.

(** The part of the loop body after the profile is known: the second
    [continue], the upsert, the listing and the inner loop. *)
Definition ingestRelation (vouch : EthosVouch) (relationUserkey : string)
           (profileData : ProfileData) : M Cycle unit :=
  match pd_address profileData with
  | Some address =>
      if strTruthy address then
        inWorld (query (Db.upsertRelation
                   (if strTruthy (numToString (vouch_id vouch))
                    then numToString (vouch_id vouch)
                    else numToString (vouch_subjectProfileId vouch))
                   relationUserkey (pd_name profileData) address
                   (pd_avatar profileData))) ;;;
        activities <- liftOutcome
                        (EthosService.getReceivedActivities (postReceived env)
                                                            relationUserkey) ;;
        bump (addReviewsFound (Z.of_nat (List.length activities))) ;;;
        forEach (map (asActivity env) activities)
                (fun activity =>
                   processActivity activity (numToString (vouch_id vouch)))
      else ret tt
  | None => ret tt
  end.

(** The body of the [try] inside the loop over the vouches. *)
Definition processRelation (vouch : EthosVouch) : M Cycle unit :=
  let relationUserkey :=
    EthosService.profileIdToUserkey (vouch_subjectProfileId vouch) in
  bump incRelationsChecked ;;;
  let profileData := embeddedProfile vouch in
  if truthy strTruthy (pd_address profileData)
  then ingestRelation vouch relationUserkey profileData
  else
    profile <- liftOutcome
                 (EthosService.getProfile (getWallet env) (getProfiles env)
                                          relationUserkey) ;;
    match profile with
    | None => ret tt
    | Some profile =>
        ingestRelation vouch relationUserkey
          {| pd_name := orElse strTruthy (profile_name profile)
                               (profile_username profile);
             pd_address := profile_primaryAddress profile;
             pd_avatar := profile_avatar profile |}
    end.

Definition relationError (vouch : EthosVouch) (error : string) : string :=
  ("Error processing relation " ++
   numToString (vouch_subjectProfileId vouch) ++ ": " ++ error)%string.

Definition skippedResult : MonitorResult :=
  {| relationsChecked := 0; reviewsFound := 0; newNegative := 0;
     alertsSent := 0; errors := ["Cycle already running"]; duration := 0 |}.

Definition freshResult : MonitorResult :=
  {| relationsChecked := 0; reviewsFound := 0; newNegative := 0;
     alertsSent := 0; errors := []; duration := 0 |}.

Definition logOf (r : MonitorResult) : Db.MonitorLog :=
  {| Db.log_relationsChecked := relationsChecked r;
     Db.log_reviewsFound := reviewsFound r;
     Db.log_newNegative := newNegative r;
     Db.log_alertsSent := alertsSent r;
     Db.log_errors :=
       match errors r with
       | [] => None
       | _ :: _ => Some (String.concat "; " (errors r))
       end;
     Db.log_duration := duration r |}.

(** The body of the outer [try] of [runMonitorCycle]. *)
Definition cycleBody (startTime : Z) : M Cycle unit :=
  vouches <- liftOutcome
               (EthosService.getVouches (postVouches env) (nowIso env)
                                        (ethos_userKey (cfg env))) ;;
  forEach (map (asVouch env) vouches)
          (fun vouch =>
             tryCatch (processRelation vouch)
                      (fun error => bump (pushError (relationError vouch error)))) ;;;
  endTime <- inWorld dateNow ;;
  bump (setDuration (endTime - startTime)) ;;;
  lastRun <- inWorld newDate ;;
  inWorld (modify (setLastRunAt lastRun)) ;;;
  r <- gets result ;;
  inWorld (query (Db.logMonitorRun (logOf r))) ;;;
  ret tt.

(** Run a cycle's code on the world, with its own [result] object. *)
Definition withResult {A} (r0 : MonitorResult) (m : M Cycle A) : M World A :=
  fun w => let '(o, c) := m {| world := w; result := r0 |} in (o, world c).

Definition clearIsRunning (c : Cycle) : Cycle :=
  {| world := setIsRunning false (world c); result := result c |}.

(** How a call of [runMonitorCycle] gets to its first [await]. *)
Inductive Entry :=
| Skip (result : MonitorResult)     (* the early [return] *)
| Enter (startTime : Z).            (* past the guard, with the flag up *)

(** The code of [runMonitorCycle] that runs before its first [await]: the
    test of [this.isRunning] with the early return, and past it
    [this.isRunning = true] and [const startTime = Date.now()]. *)
Definition enterCycle : M World Entry :=
  running <- gets isRunning ;;
  if running : bool then ret (Skip skippedResult)
  else (modify (setIsRunning true) ;;;
        startTime <- dateNow ;;
        ret (Enter startTime)).

(** From [const result = ...] to [return result]. *)
Definition finishCycle (startTime : Z) : M World MonitorResult :=
  withResult freshResult
    (finally_
       (tryCatch (cycleBody startTime)
                 (fun error => bump (pushError ("Cycle failed: " ++ error)%string)))
       clearIsRunning ;;;
     gets result).

Definition runMonitorCycle : M World MonitorResult :=
  entry <- enterCycle ;;
  match entry with
  | Skip result => ret result
  | Enter startTime => finishCycle startTime
  end.

(** *** [executeDefense] and [postCustomDefense] *)

(** [db.updateDefenseStatus]: [new Date()] is read for [POSTED] only. *)
Definition updateDefenseStatus (id : string) (status : Db.DefenseStatus)
           (extra : Db.DefenseExtra) : M World Db.Defense :=
  match status with
  | Db.POSTED =>
      now <- newDate ;; query (Db.updateDefenseStatus id status extra now)
  | _ => query (Db.updateDefenseStatus id status extra (mkDate 0))
  end.

Definition updateAlertStatus (id : string) (status : Db.AlertStatus)
  : M World Db.Alert :=
  now <- newDate ;; query (Db.updateAlertStatus id status now).

Definition executeDefense (alertId reviewId : string) : M World bool :=
  tryCatch
    (alert <- query (Db.getAlertById alertId) ;;
     match alert with
     | None => ret false
     | Some _ =>
         pendingDefense <- query (Db.getPendingDefense reviewId) ;;
         match pendingDefense with
         | None => ret false
         | Some pendingDefense =>
             updateDefenseStatus (Db.defense_id pendingDefense) Db.CONFIRMED
                                 Db.noExtra ;;;
             result <- postReview (Db.defense_targetKey pendingDefense)
                                  (Db.defense_score pendingDefense)
                                  (Db.defense_comment pendingDefense) ;;
             if EthosService.success result then
               updateDefenseStatus (Db.defense_id pendingDefense) Db.POSTED
                 {| Db.extra_ethosReviewId := EthosService.reviewId result;
                    Db.extra_txHash := EthosService.txHash result;
                    Db.extra_error := None |} ;;;
               updateAlertStatus alertId Db.ALERT_CONFIRMED ;;;
               ret true
             else
               updateDefenseStatus (Db.defense_id pendingDefense) Db.FAILED
                 {| Db.extra_ethosReviewId := None;
                    Db.extra_txHash := None;
                    Db.extra_error := EthosService.error result |} ;;;
               ret false
         end
     end)
    (fun _ => ret false).

Definition postCustomDefense (targetUserkey : string) (score : Z)
           (comment : string) (reviewId : option string)
  : M World EthosService.PostReviewResult :=
  tryCatch
    (result <- postReview targetUserkey score comment ;;
     (if EthosService.success result && truthy strTruthy reviewId then
        defense <- query (Db.getPendingDefense
                            (match reviewId with Some r => r | None => "" end)) ;;
        match defense with
        | Some defense =>
            updateDefenseStatus (Db.defense_id defense) Db.POSTED
              {| Db.extra_ethosReviewId := EthosService.reviewId result;
                 Db.extra_txHash := EthosService.txHash result;
                 Db.extra_error := None |} ;;;
            ret tt
        | None => ret tt
        end
      else ret tt) ;;;
     ret result)
    (fun error =>
       ret {| EthosService.success := false;
              EthosService.reviewId := None;
              EthosService.txHash := None;
              EthosService.error := Some error |}).

End WithEnv.

(** The same environment with another answer from an endpoint. *)
Definition withPostVouches (answer : Z -> EthosService.Http) (env : Env) : Env :=
  {| cfg := cfg env; clock := clock env; random := random env;
     dateParse := dateParse env; toNumber := toNumber env;
     freshId := freshId env; dbFault := dbFault env;
     postVouches := answer; postReceived := postReceived env;
     getWallet := getWallet env; getProfiles := getProfiles env;
     postReviews := postReviews env; asVouch := asVouch env;
     asActivity := asActivity env; nowIso := nowIso env;
     alertClients := alertClients env; transports := transports env |}.

Definition withPostReceived (answer : string -> EthosService.Http) (env : Env) : Env :=
  {| cfg := cfg env; clock := clock env; random := random env;
     dateParse := dateParse env; toNumber := toNumber env;
     freshId := freshId env; dbFault := dbFault env;
     postVouches := postVouches env; postReceived := answer;
     getWallet := getWallet env; getProfiles := getProfiles env;
     postReviews := postReviews env; asVouch := asVouch env;
     asActivity := asActivity env; nowIso := nowIso env;
     alertClients := alertClients env; transports := transports env |}.

(** *** Calls of [runMonitorCycle] on the event loop

    The process has one thread. A call of [runMonitorCycle] runs without
    interruption from its entry to its first [await]: that is
    [enterCycle]. Whatever else is triggered (the cron job, the start-up
    timeout, [scheduler.triggerMonitor()]) runs between that point and
    the return of the call. The rest of the call, [finishCycle], is taken
    as one step, [Return]: what is triggered meanwhile runs [enterCycle]
    on the world as the call in flight has left it. *)

Inductive Event :=
| Trigger (env : Env)     (* runMonitorCycle() is called *)
| Return.                 (* the oldest call in flight runs to its return *)

(** [inFlight]: the calls past [enterCycle] that have not returned, each
    with the start time it has read. *)
Record Loop := {
  current : World;
  inFlight : list (Env * Z);
  returned : list (Outcome MonitorResult)
}.

Definition idle (w : World) : Loop :=
  {| current := w; inFlight := []; returned := [] |}.

Definition step (l : Loop) (e : Event) : Loop :=
  match e with
  | Trigger env =>
      let '(o, w) := enterCycle env (current l) in
      match o with
      | Ok (Enter startTime) =>
          {| current := w; inFlight := inFlight l ++ [(env, startTime)];
             returned := returned l |}
      | Ok (Skip result) =>
          {| current := w; inFlight := inFlight l;
             returned := returned l ++ [Ok result] |}
      | Throw error =>
          {| current := w; inFlight := inFlight l;
             returned := returned l ++ [Throw error] |}
      end
  | Return =>
      match inFlight l with
      | [] => l
      | (env, startTime) :: rest =>
          let '(o, w) := finishCycle env startTime (current l) in
          {| current := w; inFlight := rest; returned := returned l ++ [o] |}
      end
  end.

Definition run (l : Loop) (events : list Event) : Loop :=
  fold_left step events l.

End MonitorService.

(** ** Concrete inputs *)

Module Sample.
Import Js Control Types Config MonitorService.

Definition config : config_values :=
  {| ethos_userKey := "profileId:7";
     telegram_enabled := true;
     telegram_chatId := Some "42";
     discord_enabled := true;
     discord_webhookUrl := Some "https://discord.example/hook";
     twitter_enabled := true;
     autoDefense_enabled := true;
     autoDefense_requireConfirm := true;
     autoDefense_defaultScore := 3 |}.

(** Every channel delivers: Telegram message 501, Discord message "d-1". *)
Definition delivering : AlertService.Transports :=
  {| AlertService.formatTelegram := fun _ => Ok "telegram text";
     AlertService.telegramSendMessage := fun _ _ => Fulfilled 501;
     AlertService.formatDiscord := fun _ => Ok "discord embed";
     AlertService.discordPost := fun _ _ => Fulfilled (Some "d-1");
     AlertService.formatTwitter := fun _ => Ok "twitter text" |}.

Definition clients : AlertService.State :=
  {| AlertService.telegramBot := true; AlertService.twitterClient := true |}.

Definition party (n : Z) (who address : string) : Party :=
  {| profileId := n; name := Some who; username := None; avatar := None;
     primaryAddress := address |}.

(** An environment in which the API lists nothing and the clock reads
    [t0 + tick]. *)
Definition quiet (t0 : Z) : Env :=
  {| cfg := config;
     clock := fun n => t0 + Z.of_nat n;
     random := fun _ => 0%Q;
     dateParse := fun _ => None;
     toNumber := fun _ => None;
     freshId := fun n => ("row" ++ numToString (Z.of_nat n))%string;
     dbFault := fun _ => false;
     postVouches := fun _ => EthosService.HttpOk
                               (EthosService.VJson (EthosService.JObj
                                  [("values", EthosService.JArr [])]));
     postReceived := fun _ => EthosService.HttpOk
                                (EthosService.VJson (EthosService.JObj
                                   [("values", EthosService.JArr [])]));
     getWallet := fun _ => EthosService.ProfileError (Some 404) "Not Found";
     getProfiles := fun _ => EthosService.ProfileError (Some 404) "Not Found";
     postReviews := fun _ _ _ => EthosService.ReviewError "Unauthorized";
     asVouch := fun _ => {| vouch_id := 0; vouch_subjectProfileId := 0;
                            vouch_subjectUser := None |};
     asActivity := fun _ =>
       {| id := None; type := review; data := None; createdAt := None;
          timestamp := None; author := party 0 "" ""; subject := party 0 "" "" |};
     nowIso := "2023-11-14T22:13:20.000Z";
     alertClients := clients;
     transports := delivering |}.

(** *** Tokens *)

(** The clock of the token examples: 2023-11-14T22:13:20Z. *)
Definition tokenNow : Z := 1700000000000.

(** A session that expires two hours after [tokenNow]. *)
Definition livePayload : TokenService.PrivyTokenPayload :=
  {| TokenService.sid := Some "session-1"; TokenService.iss := Some "privy.io";
     TokenService.iat := Finite 1699996400; TokenService.aud := Some "app";
     TokenService.sub := Some "did:privy:alice";
     TokenService.exp := Finite 1700007200 |}.

(** A session that expired ten seconds before [tokenNow]. *)
Definition stalePayload : TokenService.PrivyTokenPayload :=
  {| TokenService.sid := Some "session-0"; TokenService.iss := Some "privy.io";
     TokenService.iat := Finite 1699996390; TokenService.aud := Some "app";
     TokenService.sub := Some "did:privy:alice";
     TokenService.exp := Finite 1699999990 |}.

Definition decoder (token : string) : TokenService.Decoded :=
  if String.eqb token "live.jwt" then TokenService.DecodePayload livePayload
  else if String.eqb token "stale.jwt" then TokenService.DecodePayload stalePayload
  else if String.eqb token "" then TokenService.DecodeThrows "jwt must be provided"
  else TokenService.DecodeNull.

Definition holdingLive : TokenService.State :=
  {| TokenService.currentToken := Some "live.jwt";
     TokenService.tokenPayload := Some livePayload |}.

Definition holdingStale : TokenService.State :=
  {| TokenService.currentToken := Some "stale.jwt";
     TokenService.tokenPayload := Some stalePayload |}.

Definition noToken : TokenService.State :=
  {| TokenService.currentToken := None; TokenService.tokenPayload := None |}.

Definition world0 : World :=
  {| db := Db.emptyStore; isRunning := false; lastRunAt := None;
     token := noToken; submitted := []; tick := 0 |}.

Definition alice : Db.Relation :=
  {| Db.relation_id := "12"; Db.relation_userkey := "profileId:12";
     Db.relation_name := Some "alice"; Db.relation_address := "0xA11CE";
     Db.relation_avatarUrl := None; Db.relation_score := 0;
     Db.relation_isActive := true |}.

(** A world that already tracks the relation "12". *)
Definition world1 : World :=
  setDb {| Db.relations := [alice]; Db.reviews := []; Db.alerts := [];
           Db.defenses := []; Db.monitorLogs := []; Db.idsDrawn := 0 |} world0.

Definition cycle1 : Cycle :=
  {| world := world1; result := freshResult |}.

Definition activityOf (t : ActivityType) (d : option ActivityData) : EthosActivity :=
  {| id := None; type := t; data := d; createdAt := None; timestamp := None;
     author := party 99 "mallory" "0xBAD"; subject := party 12 "alice" "0xA11CE" |}.

(** [{ type: "slash", data: { id: 1, score: "positive" } }]. *)
Definition positiveSlash : EthosActivity :=
  activityOf slash
    (Some {| data_id := Some (VNum 1); data_score := Some (VStr "positive");
             data_comment := None; data_createdAt := None |}).

(** [{ type: "review", data: { id: 5, score: "negative", comment: "scam" } }]. *)
Definition negativeReview : EthosActivity :=
  activityOf review
    (Some {| data_id := Some (VNum 5); data_score := Some (VStr "negative");
             data_comment := Some "scam"; data_createdAt := None |}).

(** [{ type: "review", data: { score: "positive" } }]: no id anywhere. *)
Definition anonymousReview : EthosActivity :=
  activityOf review
    (Some {| data_id := None; data_score := Some (VStr "positive");
             data_comment := None; data_createdAt := None |}).

(** [{ type: "review", timestamp: 0, ... }]. *)
Definition epochReview : EthosActivity :=
  {| id := None; type := review; data := None; createdAt := None;
     timestamp := Some 0;
     author := party 99 "mallory" "0xBAD"; subject := party 12 "alice" "0xA11CE" |}.

(** An environment in which the API lists the relation 12 (alice), whose
    only received activity is [activity], and the clock reads
    [t0 + tick]. *)
Definition listing (activity : EthosActivity) (t0 : Z) : Env :=
  {| cfg := config;
     clock := fun n => t0 + Z.of_nat n;
     random := fun _ => 0%Q;
     dateParse := fun _ => None;
     toNumber := fun _ => None;
     freshId := fun n => ("row" ++ numToString (Z.of_nat n))%string;
     dbFault := fun _ => false;
     postVouches := fun _ =>
       EthosService.HttpOk
         (EthosService.VJson (EthosService.JObj
            [("values",
              EthosService.JArr
                [EthosService.JObj [("id", EthosService.JNum 12);
                                    ("subjectProfileId", EthosService.JNum 12)]])]));
     postReceived := fun _ =>
       EthosService.HttpOk
         (EthosService.VJson (EthosService.JObj
            [("values", EthosService.JArr [EthosService.JObj []])]));
     getWallet := fun _ => EthosService.ProfileError (Some 404) "Not Found";
     getProfiles := fun _ => EthosService.ProfileError (Some 404) "Not Found";
     postReviews := fun _ _ _ => EthosService.ReviewError "Unauthorized";
     asVouch := fun _ =>
       {| vouch_id := 12; vouch_subjectProfileId := 12;
          vouch_subjectUser :=
            Some {| su_profileId := 12; su_displayName := Some "alice";
                    su_username := None; su_avatarUrl := None;
                    su_primaryAddress := Some "0xA11CE"; su_userkeys := None |} |};
     asActivity := fun _ => activity;
     nowIso := "2023-11-14T22:13:20.000Z";
     alertClients := clients;
     transports := delivering |}.

(** An environment in which every call to the Ethos API times out. *)
Definition unreachable (t0 : Z) : Env :=
  withPostVouches (fun _ => EthosService.HttpError None "timeout of 30000ms exceeded")
    (withPostReceived
       (fun _ => EthosService.HttpError None "timeout of 30000ms exceeded")
       (quiet t0)).

(** An environment like [quiet] whose store rejects every query. *)
Definition rejecting (t0 : Z) : Env :=
  {| cfg := cfg (quiet t0); clock := clock (quiet t0); random := random (quiet t0);
     dateParse := dateParse (quiet t0); toNumber := toNumber (quiet t0);
     freshId := freshId (quiet t0); dbFault := fun _ => true;
     postVouches := postVouches (quiet t0); postReceived := postReceived (quiet t0);
     getWallet := getWallet (quiet t0); getProfiles := getProfiles (quiet t0);
     postReviews := postReviews (quiet t0); asVouch := asVouch (quiet t0);
     asActivity := asActivity (quiet t0); nowIso := nowIso (quiet t0);
     alertClients := alertClients (quiet t0); transports := transports (quiet t0) |}.


(** Transports where formatting the Telegram message throws and Discord
    delivers. *)
Definition telegramThrows : AlertService.Transports :=
  {| AlertService.formatTelegram :=
       fun _ => Throw "TypeError: Cannot read properties of undefined (reading 'slice')";
     AlertService.telegramSendMessage := fun _ _ => Fulfilled 501;
     AlertService.formatDiscord := fun _ => Ok "discord embed";
     AlertService.discordPost := fun _ _ => Fulfilled (Some "d-1");
     AlertService.formatTwitter := fun _ => Ok "twitter text" |}.

(** Transports that deliver nothing: the Telegram call and the Discord
    request are both rejected. *)
Definition offline : AlertService.Transports :=
  {| AlertService.formatTelegram := fun _ => Ok "telegram text";
     AlertService.telegramSendMessage := fun _ _ => Rejected "ETIMEDOUT";
     AlertService.formatDiscord := fun _ => Ok "discord embed";
     AlertService.discordPost := fun _ _ => Rejected "ETIMEDOUT";
     AlertService.formatTwitter := fun _ => Ok "twitter text" |}.

(** The cycle state after a first pass over [negativeReview]. *)
Definition afterFirstPass : Cycle :=
  snd (processActivity (quiet 1000) negativeReview "12" cycle1).

(** The world after the first pass over [negativeReview] (an alert "row0"
    and an active defense for the review "review_5"), holding a token that
    expired ten seconds before [tokenNow]. *)
Definition expiredWorld : World :=
  setToken holdingStale (world afterFirstPass).

End Sample.

(** ** The fallback order of the event timestamp, as documented *)

Module Documented.
Import Js Types MonitorService.

(** The first candidate that is there, else the fallback. *)
Fixpoint firstOf (candidates : list (option Z)) (fallback : Z) : Z :=
  match candidates with
  | [] => fallback
  | Some instant :: _ => instant
  | None :: rest => firstOf rest fallback
  end.

Definition andThen {A B} (o : option A) (f : A -> option B) : option B :=
  match o with
  | Some a => f a
  | None => None
  end.

(** Unix seconds below the threshold are upscaled; from the threshold on
    the value is milliseconds already. *)
Definition normalize (ts : Z) : Z :=
  if 10000000000 <=? ts then ts else 1000 * ts.

Definition embedded (activity : EthosActivity) : option NumOrStr :=
  andThen (data activity) data_createdAt.

Section WithEnv.
Variable env : Env.

(** The order in the words of the specification: the numeric timestamp,
    the ISO string if it parses, the embedded timestamp, the ingestion
    time [now]. *)
Definition claimedInstant (activity : EthosActivity) (now : Z) : Z :=
  firstOf
    [ option_map normalize (timestamp activity);
      andThen (createdAt activity) (dateParse env);
      option_map normalize (andThen (embedded activity) (numberOf env)) ]
    now.

Definition nonZero (n : Z) : option Z := if n =? 0 then None else Some n.

Definition nonEmpty (s : string) : option string :=
  match s with
  | EmptyString => None
  | String _ _ => Some s
  end.

Definition present (v : NumOrStr) : option NumOrStr :=
  match v with
  | VNum n => option_map VNum (nonZero n)
  | VStr s => option_map VStr (nonEmpty s)
  end.

(** The same order where a field counts only when it is present in the
    sense of the language: a zero number and an empty string are
    absent. *)
Definition documentedInstant (activity : EthosActivity) (now : Z) : Z :=
  firstOf
    [ option_map normalize (andThen (timestamp activity) nonZero);
      andThen (andThen (createdAt activity) nonEmpty) (dateParse env);
      option_map normalize
        (andThen (andThen (embedded activity) present) (numberOf env)) ]
    now.

End WithEnv.

End Documented.

(** ** Notions used in the statements *)

Module Notions.
Import Js Control Types Config MonitorService.

(** A relation between the state before and after that every run of a
    computation respects. *)
Definition respects {S A} (R : S -> S -> Prop) (m : M S A) : Prop :=
  forall s o s', m s = (o, s') -> R s s'.

(** The store is not written. *)
Definition sameDb (w w' : World) : Prop := db w' = db w.

(** A relation on cycles made of one on the store and one on the result. *)
Definition storeRel (Rs : Db.Store -> Db.Store -> Prop)
           (Rr : MonitorResult -> MonitorResult -> Prop) (c c' : Cycle) : Prop :=
  Rs (db (world c)) (db (world c')) /\ Rr (result c) (result c').

(** The flag is as it was. *)
Definition sameFlag (w w' : World) : Prop := isRunning w' = isRunning w.

Definition flagKept (c c' : Cycle) : Prop := sameFlag (world c) (world c').

(** The flag is up exactly while one call is in flight. *)
Definition guarded (l : Loop) : Prop :=
  (isRunning (current l) = false /\ inFlight l = [])
  \/ (isRunning (current l) = true /\ exists call, inFlight l = [call]).

(** The external activity ids on record, one per ActivityRecord. *)
Definition storedIds (s : Db.Store) : list (option string) :=
  map Db.review_activityId (Db.reviews s).


(** The id the source provides with a payload, if it provides one. *)
Definition sourceId (activity : EthosActivity) : option string :=
  match Documented.andThen (Documented.andThen (data activity) data_id)
                           Documented.present with
  | Some v => Some (valToString v)
  | None => Documented.andThen (id activity) Documented.nonEmpty
  end.




(** A relation on worlds that looks at the store only. *)
Definition onDb (Rs : Db.Store -> Db.Store -> Prop) (w w' : World) : Prop :=
  Rs (db w) (db w').

Definition anyResult (r r' : MonitorResult) : Prop := True.

(** The channel of an Alert row and the message id it carries. *)
Definition channelRow (a : Db.Alert) : Db.AlertChannel * option string :=
  (Db.alert_channel a, Db.alert_messageId a).


Definition sameAlerts (s s' : Db.Store) : Prop :=
  Db.alerts s' = Db.alerts s /\ Db.relations s' = Db.relations s.

Definition sameResult (r r' : MonitorResult) : Prop := r' = r.

(** A method that neither reads nor writes the credential: it does the
    same under any token state, and leaves that state in place. *)
Definition tokenBlind {A} (m : M World A) : Prop :=
  forall t w, m (setToken t w) = (let '(o, w') := m w in (o, setToken t w')).

(** The submissions made so far are not taken back. *)
Definition sameSubmitted (w w' : World) : Prop := submitted w' = submitted w.

End Notions.

(** ** services/token.service.ts: expiry monitoring and display *)

Module TokenExpiry.
Import Js Control TokenService.

(** [status.expiresIn || 0]: [null] and NaN give 0, and zero is zero
    either way. *)
Definition secondsLeft (status : TokenStatus) : Num :=
  match expiresIn status with
  | Some NaN | None => Finite 0
  | Some n => n
  end.

(** [Math.floor(seconds / 3600)]: an infinity stays what it is. *)
Definition hoursOf (seconds : Num) : Num :=
  match seconds with
  | Finite s => Finite (s / 3600)
  | other => other
  end.

(** [Math.floor((seconds % 3600) / 60)]; [%] takes the sign of the
    dividend, and is NaN on an infinity. *)
Definition minutesOf (seconds : Num) : Num :=
  match seconds with
  | Finite s => Finite (Z.rem s 3600 / 60)
  | _ => NaN
  end.

(** The logger methods the service calls. *)
Inductive Level := LogError | LogWarn | LogInfo.

(** [checkTokenExpiration()] at the clock reading [nowMs]: the lines it
    logs and the arguments of the calls it makes to [onTokenExpiring];
    [registered] tells whether that field holds a callback. *)
Definition checkTokenExpiration (st : State) (registered : bool) (nowMs : Z)
  : list (Level * string) * list TokenStatus :=
  let status := getStatus st nowMs in
  let calls := if registered then [status] else [] in
  if isExpired status then
    ([(LogError, "TOKEN EXPIRED! Please update your Privy token.")], calls)
  else if isExpiringSoon status then
    let hoursLeft := hoursOf (secondsLeft status) in
    let minutesLeft := minutesOf (secondsLeft status) in
    ([(LogWarn, ("Token expiring soon! " ++ numberToString hoursLeft ++ "h "
                 ++ numberToString minutesLeft ++ "m remaining.")%string)], calls)
  else ([], []).

(** [formatStatus()] at the clock reading [nowMs]. *)
Definition formatStatus (st : State) (nowMs : Z) : string :=
  let status := getStatus st nowMs in
  if negb (valid status) then "Token: EXPIRED or INVALID"
  else
    let hours := hoursOf (secondsLeft status) in
    let minutes := minutesOf (secondsLeft status) in
    ("Token: Valid (expires in " ++ numberToString hours ++ "h "
     ++ numberToString minutes ++ "m)")%string.

End TokenExpiry.

(** ** routes/token.route.ts *)

Module TokenRoute.
Import Js Control TokenService.



Section WithDecoder.
Variable jwtDecode : string -> Decoded.


End WithDecoder.

End TokenRoute.

(** ** services/ethos.service.ts: userkeys *)

Module Userkeys.
Import Js Control.

(** [addressToUserkey(address)]. *)
Definition addressToUserkey (address : string) : string :=
  ("address:" ++ address)%string.

(** A number that [String(n)] prints in plain decimal digits: an integer
    below 10^21 in absolute value. *)
Definition printsPlain (n : Z) : Prop := Z.abs n < 10 ^ 21.

End Userkeys.

(** ** What a cycle reports and what it leaves on record *)

Module Accounting.
Import Js Control Types Config MonitorService.

(** The Alert table grows at its end only, by pending rows for Telegram
    or Discord, and the count of alerts sent grows by their number. *)
Definition alertsAppended (c c' : Cycle) : Prop :=
  exists rows,
    Db.alerts (db (world c')) = Db.alerts (db (world c)) ++ rows
    /\ alertsSent (result c') = alertsSent (result c) + Z.of_nat (List.length rows)
    /\ Forall (fun row => Db.alert_status row = Db.ALERT_PENDING
                          /\ (Db.alert_channel row = Db.TELEGRAM
                              \/ Db.alert_channel row = Db.DISCORD)) rows.

Definition sameAlertRows (s s' : Db.Store) : Prop := Db.alerts s' = Db.alerts s.

Definition sameAlertsSent (r r' : MonitorResult) : Prop :=
  alertsSent r' = alertsSent r.

Definition anyStore (s s' : Db.Store) : Prop := True.

(** The count of relations and the list of errors are as before. *)
Definition sameChecked (r r' : MonitorResult) : Prop :=
  relationsChecked r' = relationsChecked r /\ errors r' = errors r.

Definition sameLogs (s s' : Db.Store) : Prop :=
  Db.monitorLogs s' = Db.monitorLogs s.

(** An entry of [result.errors] made by the [catch] of the loop over the
    relations. *)
Definition relationFailure (vouches : list EthosVouch) (entry : string) : Prop :=
  exists vouch error, In vouch vouches /\ entry = relationError vouch error.

End Accounting.

(** ** Concrete cycles *)

Module Runs.
Import Js Control Types Config MonitorService.

(** The result a call returned. *)
Definition reported (o : Outcome MonitorResult) : MonitorResult :=
  match o with
  | Ok r => r
  | Throw _ => freshResult
  end.

(** What [getVouches] lists in an environment. *)
Definition listed (env : Env) : list EthosService.VouchObject :=
  match EthosService.getVouches (postVouches env) (nowIso env)
                                (ethos_userKey (cfg env)) with
  | Ok vouches => vouches
  | Throw _ => []
  end.

(** A first cycle over the relation 12 and its negative review. *)
Definition env1 : Env := Sample.listing Sample.negativeReview 1000.

Definition run1 : Outcome MonitorResult * World :=
  runMonitorCycle env1 Sample.world0.

End Runs.

Module DefenseNotions.
Import Js Control Types Config MonitorService.

(** The test of [getPendingDefense]: a defense for the review that is
    pending or confirmed. *)
Definition pendingFor (reviewId : string) (d : Db.Defense) : bool :=
  String.eqb (Db.defense_reviewId d) reviewId && Db.isActive d.

(** The store writes of a confirmed defense, in their order. *)
Definition confirmedThen (s : Db.Store) (defenseId alertId : string)
           (extra : Db.DefenseExtra) (postedAt respondedAt : Date) (s' : Db.Store)
  : Prop :=
  exists d1 s1 d2 s2 a,
    Db.updateDefenseStatus defenseId Db.CONFIRMED Db.noExtra (mkDate 0) s = (Ok d1, s1)
    /\ Db.updateDefenseStatus defenseId Db.POSTED extra postedAt s1 = (Ok d2, s2)
    /\ Db.updateAlertStatus alertId Db.ALERT_CONFIRMED respondedAt s2 = (Ok a, s').

End DefenseNotions.

(** ** Concrete confirmations *)

Module Confirmations.
Import Js Control Types Config MonitorService.

(** An environment like [Sample.quiet] in which the Ethos API accepts
    every review. *)
Definition accepting (t0 : Z) : Env :=
  {| cfg := cfg (Sample.quiet t0); clock := clock (Sample.quiet t0);
     random := random (Sample.quiet t0);
     dateParse := dateParse (Sample.quiet t0); toNumber := toNumber (Sample.quiet t0);
     freshId := freshId (Sample.quiet t0); dbFault := dbFault (Sample.quiet t0);
     postVouches := postVouches (Sample.quiet t0);
     postReceived := postReceived (Sample.quiet t0);
     getWallet := getWallet (Sample.quiet t0);
     getProfiles := getProfiles (Sample.quiet t0);
     postReviews := fun _ _ _ =>
       EthosService.ReviewOk (Some "ethos-review-1") None (Some "0xfeed");
     asVouch := asVouch (Sample.quiet t0);
     asActivity := asActivity (Sample.quiet t0); nowIso := nowIso (Sample.quiet t0);
     alertClients := alertClients (Sample.quiet t0);
     transports := transports (Sample.quiet t0) |}.

(** The world after the first pass over [Sample.negativeReview]: the
    alerts "row0" and "row1" and the pending defense "row2" for the
    review "review_5". *)
Definition alerted : World := world Sample.afterFirstPass.

(** The confirmation of the alert "row0" there. *)
Definition confirmed : World :=
  snd (executeDefense (accepting 5000) "row0" "review_5" alerted).

End Confirmations.

(** ** Telegram buttons and their callbacks (alert.service.ts,
    monitor.service.ts) *)

Module TelegramButtons.
Import Js Control Types Config MonitorService.
Local Open Scope monad_scope.

(** [TelegramCallbackData] (models/types.ts). *)
Record TelegramCallbackData := {
  action : string;
  alertId : string;
  reviewId : string
}.

(** A button of an inline keyboard. The data of a callback button is
    sent as the JSON text of the object and read back with [JSON.parse];
    it is kept here as the object. *)
Inductive Button :=
| CallbackButton (label : string) (data : TelegramCallbackData)
| UrlButton (label url : string).

(** The local function [callbackData] of [createTelegramButtons]. *)
Definition callbackData (payload : AlertPayload) (action : string)
  : TelegramCallbackData :=
  {| action := action;
     alertId := payload_reviewId payload;
     reviewId := payload_reviewId payload |}.

(** [createTelegramButtons(payload)]; [frontendUrl] is
    [config_values.frontend.url]. *)
Definition createTelegramButtons (frontendUrl : string) (payload : AlertPayload)
  : list (list Button) :=
  if truthy ad_requireConfirm (payload_autoDefense payload) then
    [ [ CallbackButton "✅ Confirmer défense" (callbackData payload "confirm");
        CallbackButton "✏️ Modifier" (callbackData payload "edit") ];
      [ CallbackButton "❌ Ignorer" (callbackData payload "ignore") ];
      [ UrlButton "📊 Dashboard"
                  (frontendUrl ++ "/defend/" ++ payload_reviewId payload)%string ] ]
  else
    [ [ CallbackButton "🛡️ Défendre" (callbackData payload "confirm");
        CallbackButton "👁️ Ignorer" (callbackData payload "ignore") ];
      [ UrlButton "📊 Dashboard" (frontendUrl ++ "/alerts")%string ] ].

(** The map [callbackHandlers]. *)
Definition Handler := TelegramCallbackData -> M World unit.
Definition Handlers := string -> option Handler.

Definition noHandlers : Handlers := fun _ => None.

(** [onCallback(action, handler)]: [callbackHandlers.set]. *)
Definition onCallback (name : string) (handler : Handler) (handlers : Handlers)
  : Handlers :=
  fun key => if String.eqb key name then Some handler else handlers key.

(** [registerCallbackHandlers()] of the monitor service. *)
Definition registerCallbackHandlers (env : Env) : Handlers :=
  onCallback "edit" (fun _ => ret tt)
    (onCallback "ignore"
       (fun data => updateAlertStatus env (alertId data) Db.ALERT_IGNORED ;;; ret tt)
       (onCallback "confirm"
          (fun data => executeDefense env (alertId data) (reviewId data) ;;; ret tt)
          noHandlers)).

(** What the bot answers to a button click. *)
Inductive Answer := ActionProcessed | UnknownAction | ErrorProcessing.

(** The [callback_query] listener, on the parsed data of a click. *)
Definition onCallbackQuery (handlers : Handlers) (parsed : TelegramCallbackData)
  : M World Answer :=
  tryCatch
    match handlers (action parsed) with
    | Some handler => handler parsed ;;; ret ActionProcessed
    | None => ret UnknownAction
    end
    (fun _ => ret ErrorProcessing).

(** An alert payload for the review "review_5" of the relation 12. *)
Definition samplePayload : AlertPayload :=
  {| payload_type := NEGATIVE_REVIEW;
     payload_target := {| target_name := Some "alice"; target_address := "0xA11CE";
                          target_profileUrl := "https://app.ethos.network/profile/0xA11CE";
                          target_profileId := Some 12 |};
     payload_attacker := {| attacker_name := Some "mallory"; attacker_address := "0xBAD";
                            attacker_profileId := 99 |};
     payload_score := -1;
     payload_comment := Some "scam";
     payload_timestamp := mkDate 1003;
     payload_reviewId := "review_5";
     payload_relationId := "12";
     payload_autoDefense :=
       Some {| ad_enabled := true; ad_requireConfirm := true; ad_suggestedScore := 3;
               ad_suggestedComment := Some "Reliable." |} |}.

End TelegramButtons.

(** ** routes/settings.route.ts *)

Module SettingsRoute.
Import Js Control.

(** *** Strings and objects of the language *)

(** [s.includes(sub)]. *)
Definition includes (sub s : string) : bool :=
  match String.index 0 sub s with
  | Some _ => true
  | None => false
  end.

(** [s.split(sep)] for a separator of one character. *)
Fixpoint split (sep : ascii) (s : string) : list string :=
  match s with
  | EmptyString => [EmptyString]
  | String c rest =>
      if Ascii.eqb c sep then EmptyString :: split sep rest
      else match split sep rest with
           | first :: others => String c first :: others
           | [] => [String c EmptyString]
           end
  end.

Fixpoint trimEnd (s : string) : string :=
  match s with
  | EmptyString => EmptyString
  | String c rest =>
      match trimEnd rest with
      | EmptyString => if EthosService.isSpace c then EmptyString
                       else String c EmptyString
      | t => String c t
      end
  end.

(** [s.trim()]. White space is the ASCII part of what the language
    strips. *)
Definition trim (s : string) : string := trimEnd (EthosService.trimStart s).

(** An object used as a record of strings ([Record<string, string>]): its
    own properties in the order they were created, which is the order the
    language lists them in unless a key is an array index. *)
Definition Obj := list (string * string).

(** [o[key]]. *)
Fixpoint get (key : string) (o : Obj) : option string :=
  match o with
  | [] => None
  | (k, v) :: rest => if String.eqb k key then Some v else get key rest
  end.

Fixpoint assign (key value : string) (o : Obj) : Obj :=
  match o with
  | [] => [(key, value)]
  | (k, v) :: rest =>
      if String.eqb k key then (k, value) :: rest else (k, v) :: assign key value rest
  end.

(** [o[key] = value] with a string: the key [__proto__] names the setter
    of the prototype, which ignores a string. *)
Definition setProp (key value : string) (o : Obj) : Obj :=
  if String.eqb key "__proto__" then o else assign key value o.

(** [delete o[key]]. *)
Definition delete (key : string) (o : Obj) : Obj :=
  filter (fun p => negb (String.eqb (fst p) key)) o.

(** *** [readEnvFile] and [writeEnvFile] *)

(** The callback of [content.split('\n').forEach]. *)
Definition readLine (env : Obj) (line : string) : Obj :=
  let trimmed := trim line in
  if strTruthy trimmed && negb (startsWith "#" trimmed) then
    match split "=" trimmed with
    | key :: valueParts =>
        if strTruthy key
        then setProp (trim key) (trim (String.concat "=" valueParts)) env
        else env
    | [] => env
    end
  else env.

(** [readEnvFile()]; [file] is the content of the .env file, [None] when
    reading it fails. *)
Definition readEnvFile (file : option string) : Obj :=
  match file with
  | Some content => fold_left readLine (split "010" content) []
  | None => []
  end.

Definition groups : list (string * list string) :=
  [ ("server", ["PORT"; "NODE_ENV"; "FRONTEND_URL"]);
    ("ethos", ["ETHOS_API_URL"; "ETHOS_PRIVY_TOKEN"; "ETHOS_USER_KEY"; "ETHOS_CLIENT_ID"]);
    ("telegram", ["TELEGRAM_BOT_TOKEN"; "TELEGRAM_CHAT_ID"]);
    ("discord", ["DISCORD_WEBHOOK_URL"]);
    ("twitter", ["TWITTER_API_KEY"; "TWITTER_API_SECRET"; "TWITTER_ACCESS_TOKEN";
                 "TWITTER_ACCESS_SECRET"]);
    ("database", ["DATABASE_URL"]);
    ("monitor", ["MONITOR_INTERVAL_MINUTES"; "AUTO_DEFENSE_ENABLED";
                 "AUTO_DEFENSE_REQUIRE_CONFIRM"; "AUTO_DEFENSE_DEFAULT_SCORE"]) ].

(** [c.toUpperCase()] on the ASCII letters. *)
Definition toUpperCase (c : ascii) : ascii :=
  let n := nat_of_ascii c in
  if ((97 <=? n) && (n <=? 122))%nat then ascii_of_nat (n - 32) else c.

(** [groupName.charAt(0).toUpperCase() + groupName.slice(1)]. *)
Definition capitalize (s : string) : string :=
  match s with
  | EmptyString => EmptyString
  | String c rest => String (toUpperCase c) rest
  end.

(** The lines of one group: its heading, a line for each of its keys
    that [env] defines, an empty line. *)
Definition groupLines (env : Obj) (group : string * list string) : list string :=
  (("# " ++ capitalize (fst group) ++ " Configuration")%string
   :: flat_map (fun key => match get key env with
                           | Some value => [(key ++ "=" ++ value)%string]
                           | None => []
                           end) (snd group))
  ++ [EmptyString].

(** The set [addedKeys] after the loop over the groups. *)
Definition addedKeys (env : Obj) : list string :=
  flat_map (fun group : string * list string =>
              filter (fun key => match get key env with
                                 | Some _ => true
                                 | None => false
                                 end) (snd group)) groups.

(** The text [writeEnvFile(env)] writes. *)
Definition writeEnvFile (env : Obj) : string :=
  String.concat (String "010" EmptyString)
    (flat_map (groupLines env) groups
     ++ flat_map (fun entry : string * string =>
                    if existsb (String.eqb (fst entry)) (addedKeys env) then []
                    else [(fst entry ++ "=" ++ snd entry)%string]) env).

(** *** [maskValue] *)

(** A byte that continues a character. *)
Definition isContinuation (c : ascii) : bool := (unitsOf c =? 0)%nat.

(** The code point of a character of four bytes, less 0x10000. *)
Definition astral (b1 b2 b3 b4 : ascii) : N :=
  ((N_of_ascii b1 mod 8) * 262144 + (N_of_ascii b2 mod 64) * 4096
   + (N_of_ascii b3 mod 64) * 64 + N_of_ascii b4 mod 64 - 65536)%N.

(** A surrogate [u] on its own, which a cut through a character of two
    code units leaves behind: held as the three bytes the UTF-8 scheme
    gives a code point of its size, the first of which is 0xED. *)
Definition surrogate (u : N) : string :=
  String (ascii_of_N 237)
    (String (ascii_of_N (128 + (u / 64) mod 64))
       (String (ascii_of_N (128 + u mod 64)) EmptyString)).

(** The two code units of the character of four bytes that starts with
    [c] and goes on in [rest]. *)
Definition highHalf (c : ascii) (rest : string) : string :=
  match rest with
  | String b2 (String b3 (String b4 _)) =>
      surrogate (55296 + astral c b2 b3 b4 / 1024)
  | _ => EmptyString
  end.

Definition lowHalf (c : ascii) (rest : string) : string :=
  match rest with
  | String b2 (String b3 (String b4 _)) =>
      surrogate (56320 + astral c b2 b3 b4 mod 1024)
  | _ => EmptyString
  end.

(** What follows the continuation bytes at the head of [s]. *)
Fixpoint afterContinuation (s : string) : string :=
  match s with
  | EmptyString => EmptyString
  | String c rest => if isContinuation c then afterContinuation rest else s
  end.

(** [s.slice(0, n)]: the first [n] code units. A character is kept with
    its continuation bytes; where the cut falls inside a character of two
    units, the high surrogate is the last unit kept. *)
Fixpoint sliceTo (n : nat) (s : string) : string :=
  match s with
  | EmptyString => EmptyString
  | String c rest =>
      if isContinuation c then String c (sliceTo n rest)
      else if (unitsOf c <=? n)%nat then String c (sliceTo (n - unitsOf c) rest)
      else match n with
           | O => EmptyString
           | S _ => highHalf c rest
           end
  end.

(** [s.slice(n)]: what follows the first [n] code units; after a cut
    inside a character of two units, that starts with the low
    surrogate. *)
Fixpoint sliceFrom (n : nat) (s : string) : string :=
  match s with
  | EmptyString => EmptyString
  | String c rest =>
      if isContinuation c then sliceFrom n rest
      else match n with
           | O => s
           | S _ =>
               if (unitsOf c <=? n)%nat then sliceFrom (n - unitsOf c) rest
               else (lowHalf c rest ++ afterContinuation rest)%string
           end
  end.

(** [value.slice(-n)]: the last [n] code units, or all of a shorter
    string; [slice(-0)] is [slice(0)], the whole string. *)
Definition sliceEnd (n : nat) (value : string) : string :=
  match n with
  | O => value
  | S _ => sliceFrom (utf16Length value - n) value
  end.

Definition maskValue (value : option string) (showLength : nat) : string :=
  match value with
  | Some v =>
      if strTruthy v then
        if (utf16Length v <=? showLength * 2)%nat then "****"
        else (sliceTo showLength v ++ "****" ++ sliceEnd showLength v)%string
      else ""
  | None => ""
  end.

(** A string of ASCII characters, each of which is one byte and one code
    unit. *)
Fixpoint isAscii (s : string) : bool :=
  match s with
  | EmptyString => true
  | String c rest => (nat_of_ascii c <? 128)%nat && isAscii rest
  end.

(** Secrets with characters beyond ASCII: [e-acute] is U+00E9, two
    bytes and one code unit; [grin] is U+1F600, four bytes and the two
    code units D83D DE00. *)
Definition eAcute : string := String "195" (String "169" EmptyString).

Definition grin : string :=
  String "240" (String "159" (String "152" (String "128" EmptyString))).

(** *** [GET /api/settings] *)

Record Settings := {
  telegram_enabled : bool;
  telegram_botToken : string;
  telegram_chatId : string;
  discord_enabled : bool;
  discord_webhookUrl : string;
  twitter_enabled : bool;
  twitter_apiKey : string;
  twitter_apiSecret : string;
  twitter_accessToken : string;
  twitter_accessSecret : string;
  autoDefense_enabled : bool;
  autoDefense_requireConfirm : bool;
  autoDefense_defaultScore : option Z;       (* None is NaN *)
  monitorInterval : option Z                 (* None is NaN *)
}.

Definition orString (o : option string) (fallback : string) : string :=
  match orElse strTruthy o (Some fallback) with
  | Some s => s
  | None => fallback
  end.

Definition isString (o : option string) (s : string) : bool :=
  match o with
  | Some v => String.eqb v s
  | None => false
  end.

(** The object [settings] built from the file. *)
Definition getSettings (env : Obj) : Settings :=
  {| telegram_enabled := truthy strTruthy (get "TELEGRAM_BOT_TOKEN" env)
                         && truthy strTruthy (get "TELEGRAM_CHAT_ID" env);
     telegram_botToken := maskValue (get "TELEGRAM_BOT_TOKEN" env) 4;
     telegram_chatId := orString (get "TELEGRAM_CHAT_ID" env) "";
     discord_enabled := truthy strTruthy (get "DISCORD_WEBHOOK_URL" env);
     discord_webhookUrl := maskValue (get "DISCORD_WEBHOOK_URL" env) 4;
     twitter_enabled := truthy strTruthy (get "TWITTER_API_KEY" env);
     twitter_apiKey := maskValue (get "TWITTER_API_KEY" env) 4;
     twitter_apiSecret := maskValue (get "TWITTER_API_SECRET" env) 4;
     twitter_accessToken := maskValue (get "TWITTER_ACCESS_TOKEN" env) 4;
     twitter_accessSecret := maskValue (get "TWITTER_ACCESS_SECRET" env) 4;
     autoDefense_enabled := isString (get "AUTO_DEFENSE_ENABLED" env) "true";
     autoDefense_requireConfirm :=
       negb (isString (get "AUTO_DEFENSE_REQUIRE_CONFIRM" env) "false");
     autoDefense_defaultScore :=
       EthosService.parseInt (orString (get "AUTO_DEFENSE_DEFAULT_SCORE" env) "3");
     monitorInterval :=
       EthosService.parseInt (orString (get "MONITOR_INTERVAL_MINUTES" env) "5") |}.

(** *** [POST /api/settings] *)

(** A value of the request body where the handler expects a scalar. *)
Inductive Scalar :=
| SUndefined
| SNull
| SBool (b : bool)
| SNum (n : Z)
| SStr (s : string).

Definition scalarTruthy (v : Scalar) : bool :=
  match v with
  | SUndefined | SNull => false
  | SBool b => b
  | SNum n => numTruthy n
  | SStr s => strTruthy s
  end.

(** [String(v)]. *)
Definition scalarToString (v : Scalar) : string :=
  match v with
  | SUndefined => "undefined"
  | SNull => "null"
  | SBool true => "true"
  | SBool false => "false"
  | SNum n => numToString n
  | SStr s => s
  end.

Record TelegramBody := {
  tg_enabled : Scalar; tg_botToken : Scalar; tg_chatId : Scalar
}.

Record DiscordBody := { dc_enabled : Scalar; dc_webhookUrl : Scalar }.

Record TwitterBody := {
  tw_enabled : Scalar; tw_apiKey : Scalar; tw_apiSecret : Scalar;
  tw_accessToken : Scalar; tw_accessSecret : Scalar
}.

Record AutoDefenseBody := {
  ad_enabled : Scalar; ad_requireConfirm : Scalar; ad_defaultScore : Scalar
}.

(** The parts of the body the handler reads; [None] is a part that is
    missing or falsy. *)
Record Body := {
  body_telegram : option TelegramBody;
  body_discord : option DiscordBody;
  body_twitter : option TwitterBody;
  body_autoDefense : option AutoDefenseBody;
  body_monitorInterval : Scalar
}.

(** [if (v && !v.includes('****')) env[key] = v]: [includes] exists on
    strings only, so a truthy value of another type throws. *)
Definition setSecret (key : string) (v : Scalar) (env : Obj) : Outcome Obj :=
  if scalarTruthy v then
    match v with
    | SStr s => Ok (if includes "****" s then env else setProp key s env)
    | _ => Throw "TypeError: includes is not a function"
    end
  else Ok env.

(** [if (v) env[key] = v]; the object holds whatever was assigned, and
    the file gets its text. *)
Definition setIfTruthy (key : string) (v : Scalar) (env : Obj) : Obj :=
  if scalarTruthy v then setProp key (scalarToString v) env else env.

(** [if (enabled === false) { delete ... }]. *)
Definition deleteIfDisabled (enabled : Scalar) (keys : list string) (env : Obj) : Obj :=
  match enabled with
  | SBool false => fold_left (fun e key => delete key e) keys env
  | _ => env
  end.

Definition andThen {A B} (o : Outcome A) (f : A -> Outcome B) : Outcome B :=
  match o with
  | Ok a => f a
  | Throw e => Throw e
  end.

(** The updates the handler makes to the object read from the file,
    before it writes it back. *)
Definition applySettings (body : Body) (env : Obj) : Outcome Obj :=
  andThen
    match body_telegram body with
    | Some t =>
        andThen (setSecret "TELEGRAM_BOT_TOKEN" (tg_botToken t) env) (fun env =>
        Ok (deleteIfDisabled (tg_enabled t) ["TELEGRAM_BOT_TOKEN"; "TELEGRAM_CHAT_ID"]
              (setIfTruthy "TELEGRAM_CHAT_ID" (tg_chatId t) env)))
    | None => Ok env
    end (fun env =>
  andThen
    match body_discord body with
    | Some d =>
        andThen (setSecret "DISCORD_WEBHOOK_URL" (dc_webhookUrl d) env) (fun env =>
        Ok (deleteIfDisabled (dc_enabled d) ["DISCORD_WEBHOOK_URL"] env))
    | None => Ok env
    end (fun env =>
  andThen
    match body_twitter body with
    | Some t =>
        andThen (setSecret "TWITTER_API_KEY" (tw_apiKey t) env) (fun env =>
        andThen (setSecret "TWITTER_API_SECRET" (tw_apiSecret t) env) (fun env =>
        andThen (setSecret "TWITTER_ACCESS_TOKEN" (tw_accessToken t) env) (fun env =>
        andThen (setSecret "TWITTER_ACCESS_SECRET" (tw_accessSecret t) env) (fun env =>
        Ok (deleteIfDisabled (tw_enabled t)
              ["TWITTER_API_KEY"; "TWITTER_API_SECRET"; "TWITTER_ACCESS_TOKEN";
               "TWITTER_ACCESS_SECRET"] env)))))
    | None => Ok env
    end (fun env =>
  let env :=
    match body_autoDefense body with
    | Some a =>
        setProp "AUTO_DEFENSE_DEFAULT_SCORE" (scalarToString (ad_defaultScore a))
          (setProp "AUTO_DEFENSE_REQUIRE_CONFIRM" (scalarToString (ad_requireConfirm a))
             (setProp "AUTO_DEFENSE_ENABLED" (scalarToString (ad_enabled a)) env))
    | None => env
    end in
  Ok (setIfTruthy "MONITOR_INTERVAL_MINUTES" (body_monitorInterval body) env)))).

(** The body the settings page saves ([saveSettings] of the page): the
    notifications as [GET /api/settings] returned them, with the
    automatic defense and the interval the page holds. *)
Definition pageBody (s : Settings) (autoDefense : AutoDefenseBody)
           (interval : Scalar) : Body :=
  {| body_telegram :=
       Some {| tg_enabled := SBool (telegram_enabled s);
               tg_botToken := SStr (telegram_botToken s);
               tg_chatId := SStr (telegram_chatId s) |};
     body_discord :=
       Some {| dc_enabled := SBool (discord_enabled s);
               dc_webhookUrl := SStr (discord_webhookUrl s) |};
     body_twitter :=
       Some {| tw_enabled := SBool (twitter_enabled s);
               tw_apiKey := SStr (twitter_apiKey s);
               tw_apiSecret := SStr (twitter_apiSecret s);
               tw_accessToken := SStr (twitter_accessToken s);
               tw_accessSecret := SStr (twitter_accessSecret s) |};
     body_autoDefense := Some autoDefense;
     body_monitorInterval := interval |}.

End SettingsRoute.

(** ** Settings that the .env file keeps *)

Module EnvFile.
Import Js Control SettingsRoute.

Fixpoint contains (c : ascii) (s : string) : bool :=
  match s with
  | EmptyString => false
  | String d rest => Ascii.eqb d c || contains c rest
  end.

Definition firstChar (s : string) : option ascii :=
  match s with
  | EmptyString => None
  | String c _ => Some c
  end.

Fixpoint lastChar (s : string) : option ascii :=
  match s with
  | EmptyString => None
  | String c rest =>
      match lastChar rest with
      | Some d => Some d
      | None => Some c
      end
  end.

Definition notSpace (o : option ascii) : bool :=
  match o with
  | Some c => negb (EthosService.isSpace c)
  | None => true
  end.

(** Neither the first nor the last character is white space. *)
Definition tight (s : string) : bool :=
  notSpace (firstChar s) && notSpace (lastChar s).

(** Every character is an ASCII character. *)
Fixpoint plain (s : string) : bool :=
  match s with
  | EmptyString => true
  | String c rest => (nat_of_ascii c <? 128)%nat && plain rest
  end.

Definition startsWithDigit (s : string) : bool :=
  match firstChar s with
  | Some c => EthosService.isDigit c
  | None => false
  end.

(** A key that a line of the file can carry: not empty, of ASCII
    characters, without white space at its ends, without [=] or a line
    break, not a comment, and not the name of the prototype. A key that
    starts with a digit is left aside: the language lists the keys that
    are array indices before the others. *)
Definition keyFits (key : string) : bool :=
  strTruthy key && plain key && tight key
  && negb (contains "=" key) && negb (contains "010" key)
  && negb (startsWith "#" key) && negb (String.eqb key "__proto__")
  && negb (startsWithDigit key).

(** A value that a line of the file can carry: of ASCII characters,
    without white space at its ends and without a line break. *)
Definition valueFits (value : string) : bool :=
  plain value && tight value && negb (contains "010" value).

Fixpoint distinct (keys : list string) : bool :=
  match keys with
  | [] => true
  | key :: rest => negb (existsb (String.eqb key) rest) && distinct rest
  end.

(** Settings that the file can carry. *)
Definition fits (env : Obj) : bool :=
  distinct (map fst env)
  && forallb (fun entry => keyFits (fst entry) && valueFits (snd entry)) env.

(** Settings with a token that holds [=], an empty value and a key of no
    group. *)
Definition sample : Obj :=
  [ ("PORT", "3001"); ("ETHOS_PRIVY_TOKEN", "eyJhbGciOiJFUzI1NiJ9.e30=.c2ln==");
    ("TELEGRAM_CHAT_ID", ""); ("MY_NOTE", "kept as it is") ].

Definition assignEntry (o : Obj) (entry : string * string) : Obj :=
  assign (fst entry) (snd entry) o.

Definition entryLine (entry : string * string) : string :=
  fst entry ++ "=" ++ snd entry.

Definition fitting (entry : string * string) : Prop :=
  keyFits (fst entry) = true /\ valueFits (snd entry) = true.

(** The entries of [env] under the keys [keys], in the order of [keys]. *)
Definition present (env : Obj) (keys : list string) : list (string * string) :=
  flat_map (fun key => match get key env with
                       | Some value => [(key, value)]
                       | None => []
                       end) keys.

(** The entries that [writeEnvFile] writes, in the order of their lines. *)
Definition entriesWritten (env : Obj) : list (string * string) :=
  flat_map (fun group => present env (snd group)) groups
  ++ filter (fun entry => negb (existsb (String.eqb (fst entry)) (addedKeys env))) env.


(** The lines [writeEnvFile] joins. *)
Definition linesOf (env : Obj) : list string :=
  flat_map (groupLines env) groups
  ++ flat_map (fun entry : string * string =>
                 if existsb (String.eqb (fst entry)) (addedKeys env) then []
                 else [(fst entry ++ "=" ++ snd entry)%string]) env.

End EnvFile.

(** ** What a cycle leaves of the rows it found *)

Module History.
Import Js Control Types Config MonitorService.

(** A relation after an upsert: who it is stays, its name and avatar may
    change. *)
Definition keptRelation (r r' : Db.Relation) : Prop :=
  Db.relation_id r' = Db.relation_id r
  /\ Db.relation_userkey r' = Db.relation_userkey r
  /\ Db.relation_address r' = Db.relation_address r
  /\ Db.relation_score r' = Db.relation_score r
  /\ Db.relation_isActive r' = Db.relation_isActive r.

(** A review later on: the same row, or the same row marked as alerted. *)
Definition keptReview (v v' : Db.Review) : Prop :=
  v' = v \/ v' = Db.alertedRow v.

(** [after] is [before] row by row, each row kept, followed by new rows. *)
Definition extends {A} (kept : A -> A -> Prop) (before after : list A) : Prop :=
  exists old new, after = old ++ new /\ Forall2 kept before old.

Definition grown (s s' : Db.Store) : Prop :=
  extends keptRelation (Db.relations s) (Db.relations s')
  /\ extends keptReview (Db.reviews s) (Db.reviews s')
  /\ extends eq (Db.defenses s) (Db.defenses s').

End History.

(** ** services/token.service.ts: [updateEnvFile] *)

Module TokenFile.
Import Js Control SettingsRoute EnvFile.

(** [s] with the prefix [p] taken off. *)
Fixpoint stripPrefix (p s : string) : option string :=
  match p with
  | EmptyString => Some s
  | String a p' =>
      match s with
      | EmptyString => None
      | String b s' => if Ascii.eqb a b then stripPrefix p' s' else None
      end
  end.

(** A line terminator starts [s]: LF, CR, U+2028 or U+2029, the last two
    in the three bytes of UTF-8. These are what [.] does not match. *)
Definition atLineTerminator (s : string) : bool :=
  match s with
  | EmptyString => false
  | String c rest =>
      Ascii.eqb c "010" || Ascii.eqb c "013"
      || (Ascii.eqb c "226"
          && (startsWith (String "128" (String "168" EmptyString)) rest
              || startsWith (String "128" (String "169" EmptyString)) rest))
  end.

(** What [.*] matches at the start of [s], and what follows. *)
Fixpoint restOfLine (s : string) : string * string :=
  match s with
  | EmptyString => (EmptyString, EmptyString)
  | String c rest =>
      if atLineTerminator s then (EmptyString, s)
      else let (matched, after) := restOfLine rest in (String c matched, after)
  end.

(** The leftmost match of [/key.*/] in [s], for a [key] of plain
    characters: what is before the match, the match, what is after it. *)
Fixpoint exec (key s : string) : option (string * string * string) :=
  match stripPrefix key s with
  | Some rest =>
      let (matched, after) := restOfLine rest in
      Some (EmptyString, (key ++ matched)%string, after)
  | None =>
      match s with
      | EmptyString => None
      | String c rest =>
          match exec key rest with
          | Some (before, matched, after) => Some (String c before, matched, after)
          | None => None
          end
      end
  end.

(** The replacement text of [String.prototype.replace] for a pattern
    without groups: [$$], [$&], the text before and the text after the
    match are substituted, any other [$] stands for itself. *)
Fixpoint expand (matched before after replacement : string) : string :=
  match replacement with
  | EmptyString => EmptyString
  | String c rest =>
      if Ascii.eqb c "$" then
        match rest with
        | String d rest' =>
            if Ascii.eqb d "$" then String "$" (expand matched before after rest')
            else if Ascii.eqb d "&" then
              (matched ++ expand matched before after rest')%string
            else if Ascii.eqb d "`" then
              (before ++ expand matched before after rest')%string
            else if Ascii.eqb d "'" then
              (after ++ expand matched before after rest')%string
            else String c (expand matched before after rest)
        | EmptyString => String c EmptyString
        end
      else String c (expand matched before after rest)
  end.

Definition tokenKey : string := "ETHOS_PRIVY_TOKEN=".

(** The new content of the file. *)
Definition updateEnvContent (newToken envContent : string) : string :=
  match exec tokenKey envContent with
  | Some (before, matched, after) =>
      (before ++ expand matched before after (tokenKey ++ newToken) ++ after)%string
  | None =>
      (envContent ++ String "010" EmptyString ++ tokenKey ++ newToken)%string
  end.

(** [updateEnvFile(newToken)] on the file, taken to be valid UTF-8:
    [None] is a file that cannot be read, and [writable] tells whether
    [fs.writeFileSync] succeeds; an error is logged and not thrown. *)
Definition updateEnvFile (newToken : string) (file : option string)
           (writable : bool) : option string :=
  match file with
  | Some envContent =>
      if writable then Some (updateEnvContent newToken envContent) else file
  | None => None
  end.

(** A token of ASCII characters without [$] and without a line break. *)
Definition tokenPlain (token : string) : bool :=
  plain token && negb (contains "$" token)
  && negb (contains "010" token) && negb (contains "013" token).

(** The pattern occurs in [s]. *)
Definition mentions (s : string) : bool :=
  match exec tokenKey s with
  | Some _ => true
  | None => false
  end.

(** No line of the settings has the pattern but the line of the token,
    and the token on file is on one line. *)
Definition tokenLineOnly (env : Obj) : bool :=
  forallb (fun entry =>
             if String.eqb (fst entry) "ETHOS_PRIVY_TOKEN"
             then negb (contains "013" (snd entry))
             else negb (mentions (entryLine entry))) env.


(** The lines of a file written with a token, before and after the line
    of the token. *)
Definition linesBefore (env : Obj) : list string :=
  groupLines env ("server", ["PORT"; "NODE_ENV"; "FRONTEND_URL"])
  ++ "# Ethos Configuration"
     :: match get "ETHOS_API_URL" env with
        | Some value => [("ETHOS_API_URL" ++ "=" ++ value)%string]
        | None => []
        end.

Definition linesAfter (env : Obj) : list string :=
  flat_map (fun key => match get key env with
                       | Some value => [(key ++ "=" ++ value)%string]
                       | None => []
                       end) ["ETHOS_USER_KEY"; "ETHOS_CLIENT_ID"]
  ++ EmptyString
     :: flat_map (groupLines env) (skipn 2 groups)
  ++ flat_map (fun entry : string * string =>
                 if existsb (String.eqb (fst entry)) (addedKeys env) then []
                 else [(fst entry ++ "=" ++ snd entry)%string]) env.

(** Settings with a token on file. *)
Definition tokenSample : Obj :=
  [ ("FRONTEND_URL", "http://localhost:3000");
    ("ETHOS_PRIVY_TOKEN", "eyJhbGciOiJFUzI1NiJ9.e30.c2ln");
    ("ETHOS_USER_KEY", "profileId:7"); ("MY_NOTE", "kept as it is") ].

End TokenFile.

(** * Properties *)

(** ** Defense suggestions (models/types.ts) *)

Section DefenseSuggestion.
Import Js Types.
Import Notions.

Lemma randomIndex_range (random : Q) (len : nat) :
  (0 <= random)%Q -> (random < 1)%Q -> (0 < len)%nat ->
  0 <= randomIndex random len < Z.of_nat len.
Proof.
  intros Hlo Hhi Hlen. unfold randomIndex.
  set (n := inject_Z (Z.of_nat len)).
  assert (Hn : (0 < n)%Q).
  { unfold n. change 0%Q with (inject_Z 0). rewrite <- Zlt_Qlt. lia. }
  split.
  - change 0 with (Qfloor 0). apply Qfloor_resp_le.
    apply Qmult_le_0_compat; [exact Hlo | apply Qlt_le_weak, Hn].
  - rewrite Zlt_Qlt. eapply Qle_lt_trans; [apply Qfloor_le |].
    fold n. setoid_replace n with (1 * n)%Q at 2 by ring.
    apply Qmult_lt_compat_r; assumption.
Qed.

Lemma at_In {A} (l : list A) (i : Z) :
  0 <= i < Z.of_nat (List.length l) -> exists x, at_ l i = Some x /\ In x l.
Proof.
  intros [Hlo Hhi]. unfold at_.
  destruct (Z.ltb_spec i 0) as [Hneg | _]; [lia |].
  destruct (nth_error l (Z.to_nat i)) as [x |] eqn:Hnth.
  - exists x. split; [reflexivity | eapply nth_error_In, Hnth].
  - apply nth_error_None in Hnth. lia.
Qed.

(** A suggestion drawn from [bucket]: its score and one of its messages. *)
Lemma draw_from_bucket (bucket : DefenseTemplate) (random : Q) :
  (0 <= random)%Q -> (random < 1)%Q -> (0 < List.length (messages bucket))%nat ->
  exists message,
    at_ (messages bucket) (randomIndex random (List.length (messages bucket)))
      = Some message
    /\ In message (messages bucket).
Proof.
  intros Hlo Hhi Hlen. apply at_In. apply randomIndex_range; assumption.
Qed.

(** C9. For every requested score the suggestion carries the canonical
    score of the selected bucket, which is the bucket whose score equals
    the request or else the first (default) bucket, and its message is
    one of that bucket's messages; for a request of 3 the score is 3 and
    the message is one of the four messages of bucket 3. *)
Theorem getRandomDefenseMessage_in_bucket (requested : Z) (random : Q) :
  (0 <= random)%Q -> (random < 1)%Q ->
  exists bucket message,
    getRandomDefenseMessage requested random
      = Some {| sg_score := score bucket; sg_message := Some message |}
    /\ In bucket DEFENSE_TEMPLATES
    /\ In message (messages bucket)
    /\ ((exists t, In t DEFENSE_TEMPLATES /\ score t = requested) ->
        score bucket = requested)
    /\ ((forall t, In t DEFENSE_TEMPLATES -> score t <> requested) ->
        nth_error DEFENSE_TEMPLATES 0 = Some bucket)
    /\ (requested = 3 ->
        score bucket = 3 /\
        In message
           [ "Trusted and reliable community member. I vouch for their credibility.";
             "Known for integrity and positive contributions to the ecosystem.";
             "Solid reputation backed by consistent positive interactions.";
             "A valued member of the community with proven trustworthiness." ]).
Proof.
  intros Hlo Hhi.
  unfold getRandomDefenseMessage, selectTemplate, DEFENSE_TEMPLATES.
  cbn [find score].
  destruct (Z.eqb_spec 3 requested) as [H3 | H3];
    [| destruct (Z.eqb_spec 2 requested) as [H2 | H2]].
  - (* the bucket of score 3 matches *)
    match goal with |- context [Some {| sg_score := score ?b |}] => set (bucket := b) end.
    destruct (draw_from_bucket bucket random Hlo Hhi) as (message & Hat & Hin);
      [cbn; lia |].
    exists bucket, message. rewrite Hat.
    repeat split; cbn; auto; try (intros; lia).
  - (* the bucket of score 2 matches *)
    match goal with |- context [Some {| sg_score := score ?b |}] => set (bucket := b) end.
    destruct (draw_from_bucket bucket random Hlo Hhi) as (message & Hat & Hin);
      [cbn; lia |].
    exists bucket, message. rewrite Hat.
    repeat split; cbn; auto; try (intros; lia).
    intros Hnone. exfalso. apply (Hnone bucket); cbn; auto.
  - (* no bucket matches: the first one is the default *)
    cbn [nth_error].
    match goal with |- context [Some {| sg_score := score ?b |}] => set (bucket := b) end.
    destruct (draw_from_bucket bucket random Hlo Hhi) as (message & Hat & Hin);
      [cbn; lia |].
    exists bucket, message. rewrite Hat.
    repeat split; cbn; auto; try (intros; lia).
    intros (t & [Ht | [Ht | []]] & Hscore); subst t; cbn in Hscore; lia.
Qed.

Lemma getRandomDefenseMessage_in_bucket_witness :
  exists bucket message,
    getRandomDefenseMessage 3 (1 # 2)
      = Some {| sg_score := score bucket; sg_message := Some message |}
    /\ In bucket DEFENSE_TEMPLATES
    /\ In message (messages bucket)
    /\ ((exists t, In t DEFENSE_TEMPLATES /\ score t = 3) -> score bucket = 3)
    /\ ((forall t, In t DEFENSE_TEMPLATES -> score t <> 3) ->
        nth_error DEFENSE_TEMPLATES 0 = Some bucket)
    /\ (3 = 3 ->
        score bucket = 3 /\
        In message
           [ "Trusted and reliable community member. I vouch for their credibility.";
             "Known for integrity and positive contributions to the ecosystem.";
             "Solid reputation backed by consistent positive interactions.";
             "A valued member of the community with proven trustworthiness." ]).
Proof.
  apply (getRandomDefenseMessage_in_bucket 3 (1 # 2)).
  - unfold Qle; simpl; lia.
  - unfold Qlt; simpl; lia.
Defined.

End DefenseSuggestion.

(** ** Timestamp normalization (monitor.service.ts) *)

Section TimestampNormalization.
Import Js Control Types MonitorService Documented.
Import Notions.

Lemma toMillis_normalize (ts : Z) : toMillis ts = normalize ts.
Proof.
  unfold toMillis, normalize.
  destruct (Z.ltb_spec ts 10000000000), (Z.leb_spec 10000000000 ts); lia.
Qed.

Lemma numTruthy_nonZero (n : Z) :
  nonZero n = if numTruthy n then Some n else None.
Proof. unfold nonZero, numTruthy. destruct (n =? 0); reflexivity. Qed.

Lemma present_truthy (v : NumOrStr) :
  present v = if valTruthy v then Some v else None.
Proof.
  destruct v as [n | s]; cbn.
  - rewrite numTruthy_nonZero. destruct (numTruthy n); reflexivity.
  - destruct s; reflexivity.
Qed.

(** C8, as amended. The creation instant follows the documented order
    with the presence tests of the language: a non-zero numeric
    timestamp first, scaled from seconds below 10000000000; then the
    non-empty createdAt string if it parses; then the embedded
    data.createdAt if it is non-zero or non-empty and converts to a
    number, with the same scaling; otherwise the clock. The call always
    returns a Date, 1700000000 and 1700000000000 give the same instant,
    and the store is left as it was. *)
Theorem parseActivityTimestamp_documented_order
        (env : Env) (activity : EthosActivity) (w : World) :
  fst (parseActivityTimestamp env activity w)
    = Ok (mkDate (documentedInstant env activity (clock env (tick w))))
  /\ db (snd (parseActivityTimestamp env activity w)) = db w
  /\ toMillis 1700000000 = toMillis 1700000000000.
Proof.
  split; [| split; [| reflexivity]];
    unfold parseActivityTimestamp, documentedInstant, embedded, dataField, andThen.
  - destruct (timestamp activity) as [ts |]; cbn [firstOf option_map].
    + rewrite numTruthy_nonZero.
      destruct (numTruthy ts); cbn [firstOf option_map ret fst];
        [now rewrite toMillis_normalize |].
      destruct (createdAt activity) as [[| c s] |]; cbn [nonEmpty strTruthy firstOf];
        try destruct (dateParse env (String c s)); cbn [firstOf ret fst]; try reflexivity;
        destruct (data activity) as [d |]; try reflexivity;
        destruct (data_createdAt d) as [v |]; try reflexivity;
        rewrite present_truthy; destruct (valTruthy v); try reflexivity;
        destruct (numberOf env v); cbn [option_map firstOf ret fst];
        try reflexivity; now rewrite toMillis_normalize.
    + destruct (createdAt activity) as [[| c s] |]; cbn [nonEmpty strTruthy firstOf];
        try destruct (dateParse env (String c s)); cbn [firstOf ret fst]; try reflexivity;
        destruct (data activity) as [d |]; try reflexivity;
        destruct (data_createdAt d) as [v |]; try reflexivity;
        rewrite present_truthy; destruct (valTruthy v); try reflexivity;
        destruct (numberOf env v); cbn [option_map firstOf ret fst];
        try reflexivity; now rewrite toMillis_normalize.
  - destruct (timestamp activity) as [ts |];
      try destruct (numTruthy ts); try reflexivity;
      destruct (createdAt activity) as [[| c s] |]; cbn [strTruthy];
      try destruct (dateParse env (String c s)); try reflexivity;
      destruct (data activity) as [d |]; try reflexivity;
      destruct (data_createdAt d) as [v |]; try reflexivity;
      destruct (valTruthy v); try reflexivity;
      destruct (numberOf env v); reflexivity.
Qed.

(** C8 as stated fails on a timestamp field of 0: the claim takes the
    numeric field first (instant 0), the code passes it over and returns
    the ingestion time. *)
Lemma zero_timestamp_is_skipped :
  fst (parseActivityTimestamp (Sample.quiet 1700000000123) Sample.epochReview
                              Sample.world0)
    = Ok (mkDate 1700000000123)
  /\ claimedInstant (Sample.quiet 1700000000123) Sample.epochReview 1700000000123 = 0
  /\ fst (parseActivityTimestamp (Sample.quiet 1700000000123) Sample.epochReview
                                 Sample.world0)
     <> Ok (mkDate (claimedInstant (Sample.quiet 1700000000123) Sample.epochReview
                                   (clock (Sample.quiet 1700000000123)
                                          (tick Sample.world0)))).
Proof.
  split; [reflexivity | split; [reflexivity |]].
  vm_compute. discriminate.
Qed.

End TimestampNormalization.

(** ** The credential watchdog (token.service.ts) *)

Section CredentialWatchdog.
Import Js TokenService.
Import Notions.

(** A token that does not decode (the decoder throws or returns [null])
    leaves the credential as it was. *)
Lemma updateToken_undecodable_unchanged
      (jwtDecode : string -> Decoded) (st : State) (newToken : string)
      (nowCheck nowStatus : Z) :
  (jwtDecode newToken = DecodeNull \/ exists e, jwtDecode newToken = DecodeThrows e) ->
  updateToken jwtDecode st newToken nowCheck nowStatus
    = ({| success := false; status := getStatus st nowStatus;
          error := Some "Invalid token format" |}, st, []).
Proof.
  intros [Hd | [e Hd]]; unfold updateToken, decodeToken; rewrite Hd; reflexivity.
Qed.

(** A token that decodes replaces the held payload before any check: an
    expired one is refused, yet its payload stays behind, next to the
    previous token. *)
Lemma updateToken_expired_keeps_payload
      (jwtDecode : string -> Decoded) (st : State) (newToken : string)
      (payload : PrivyTokenPayload) (nowCheck nowStatus : Z) :
  jwtDecode newToken = DecodePayload payload ->
  dateValid (dateOf (numMul (exp payload) (Finite 1000))) = true ->
  numLeb (exp payload) (Finite (nowCheck / 1000)) = true ->
  let '(r, st', notes) := updateToken jwtDecode st newToken nowCheck nowStatus in
  success r = false
  /\ error r = Some "Token is already expired"
  /\ notes = []
  /\ currentToken st' = currentToken st
  /\ tokenPayload st' = Some payload.
Proof.
  intros Hd Hvalid Hexp. unfold updateToken, decodeToken.
  rewrite Hd, Hvalid, Hexp. repeat split.
Qed.

(** The same assignment precedes the log line of [decodeToken]: a payload
    whose expiry is no valid date (out of range, or missing) makes that
    line throw, the token is reported as undecodable, and its payload
    stays behind as well. *)
Lemma updateToken_unprintable_expiry_keeps_payload
      (jwtDecode : string -> Decoded) (st : State) (newToken : string)
      (payload : PrivyTokenPayload) (nowCheck nowStatus : Z) :
  jwtDecode newToken = DecodePayload payload ->
  dateValid (dateOf (numMul (exp payload) (Finite 1000))) = false ->
  let '(r, st', notes) := updateToken jwtDecode st newToken nowCheck nowStatus in
  success r = false
  /\ error r = Some "Invalid token format"
  /\ notes = []
  /\ currentToken st' = currentToken st
  /\ tokenPayload st' = Some payload.
Proof.
  intros Hd Hvalid. unfold updateToken, decodeToken. rewrite Hd, Hvalid.
  repeat split.
Qed.

(** C6 fails on the code. The watchdog holds a live token; [updateToken]
    is given one that expired ten seconds ago. The call is refused, the
    token string is kept, but the decoded payload is now the expired
    one, and [getStatus()] turns from valid to expired. *)
Theorem updateToken_expired_not_atomic :
  let '(r, st', notes) :=
    updateToken Sample.decoder Sample.holdingLive "stale.jwt"
                Sample.tokenNow Sample.tokenNow in
  success r = false
  /\ error r = Some "Token is already expired"
  /\ currentToken st' = currentToken Sample.holdingLive
  /\ tokenPayload Sample.holdingLive = Some Sample.livePayload
  /\ tokenPayload st' = Some Sample.stalePayload
  /\ st' <> Sample.holdingLive
  /\ isExpired (getStatus Sample.holdingLive Sample.tokenNow) = false
  /\ valid (getStatus Sample.holdingLive Sample.tokenNow) = true
  /\ isExpired (getStatus st' Sample.tokenNow) = true
  /\ valid (getStatus st' Sample.tokenNow) = false.
Proof.
  vm_compute. repeat split; try reflexivity. discriminate.
Qed.

End CredentialWatchdog.

(** ** Alert fan-out (alert.service.ts) *)

Section AlertFanOut.
Import Js Control Types Config AlertService.
Import Notions.

Lemma sendAlert_results (cfg : config_values) (svc : State) (net : Transports)
      (payload : AlertPayload) :
  sendAlert cfg svc net payload
    = Ok {| telegram := if telegram_enabled cfg
                        then delivered (sendTelegramAlert cfg svc net payload)
                        else None;
            discord := if discord_enabled cfg
                       then delivered (sendDiscordAlert cfg net payload)
                       else None;
            twitter := if twitter_enabled cfg
                       then delivered (sendTwitterAlert svc net payload)
                       else None |}.
Proof.
  unfold sendAlert, promises, allSettled, await, runCallbacks.
  destruct (telegram_enabled cfg), (discord_enabled cfg), (twitter_enabled cfg);
    destruct (sendTelegramAlert cfg svc net payload) as [[t |] | rt];
    destruct (sendDiscordAlert cfg net payload) as [[d |] | rd];
    destruct (sendTwitterAlert svc net payload) as [[x |] | rx];
    reflexivity.
Qed.

(** What each channel method delivers, in terms of its transport. *)
Lemma sendTelegramAlert_delivered (cfg : config_values) (svc : State)
      (net : Transports) (payload : AlertPayload) (msgId : string) :
  delivered (sendTelegramAlert cfg svc net payload) = Some msgId <->
  telegramBot svc = true
  /\ exists chatId message message_id,
       telegram_chatId cfg = Some chatId /\ chatId <> ""
       /\ formatTelegram net payload = Ok message
       /\ telegramSendMessage net chatId message = Fulfilled message_id
       /\ msgId = numToString message_id.
Proof.
  unfold sendTelegramAlert. split.
  - destruct (telegramBot svc); [| discriminate].
    destruct (telegram_chatId cfg) as [chatId |]; [| discriminate].
    destruct (strTruthy chatId) eqn:Hc; [| discriminate].
    destruct (formatTelegram net payload) as [message | e]; [| discriminate].
    destruct (telegramSendMessage net chatId message) as [message_id | r] eqn:Hs;
      [| discriminate].
    cbn [delivered]. intros H. injection H as <-. split; [reflexivity |].
    exists chatId, message, message_id. repeat split; try assumption.
    intros ->. discriminate.
  - intros (-> & chatId & message & message_id & -> & Hc & -> & Hs & ->).
    destruct chatId; [now elim Hc |]. cbn [strTruthy]. now rewrite Hs.
Qed.

Lemma sendDiscordAlert_delivered (cfg : config_values) (net : Transports)
      (payload : AlertPayload) (msgId : string) :
  delivered (sendDiscordAlert cfg net payload) = Some msgId <->
  exists url embed,
    discord_webhookUrl cfg = Some url /\ url <> ""
    /\ formatDiscord net payload = Ok embed
    /\ discordPost net (url ++ "?wait=true")%string embed = Fulfilled (Some msgId).
Proof.
  unfold sendDiscordAlert. split.
  - destruct (discord_webhookUrl cfg) as [url |]; [| discriminate].
    destruct (strTruthy url) eqn:Hu; [| discriminate].
    destruct (formatDiscord net payload) as [embed | e]; [| discriminate].
    destruct (discordPost net (url ++ "?wait=true")%string embed)
      as [response_id | r] eqn:Hs; [| discriminate].
    cbn [delivered]. intros ->. exists url, embed. repeat split; try assumption.
    intros ->. discriminate.
  - intros (url & embed & -> & Hu & -> & Hs).
    destruct url; [now elim Hu |]. cbn [strTruthy]. now rewrite Hs.
Qed.

Lemma sendTwitterAlert_delivered (svc : State) (net : Transports)
      (payload : AlertPayload) (msgId : string) :
  delivered (sendTwitterAlert svc net payload) = Some msgId <->
  twitterClient svc = true
  /\ (exists message, formatTwitter net payload = Ok message)
  /\ msgId = "twitter_dm_disabled".
Proof.
  unfold sendTwitterAlert. split.
  - destruct (twitterClient svc); [| discriminate].
    destruct (formatTwitter net payload) as [message | e]; [| discriminate].
    cbn [delivered]. intros H. injection H as <-. eauto.
  - intros (-> & [message ->] & ->). reflexivity.
Qed.

(** C4, as amended. [sendAlert] always returns. The map it returns holds
    a Telegram entry exactly when Telegram is enabled, the bot is built,
    a chat id is set, the message is formatted and the transport
    ([sendMessage]) is fulfilled: the entry is the message id the
    transport returned, as text. It holds a Discord entry exactly when
    Discord is enabled, a webhook URL is set, the embed is formatted and
    the request is fulfilled with an id: the entry is that id. For
    Twitter, for which nothing is sent, the entry is the fixed text
    [twitter_dm_disabled], exactly when Twitter is enabled, its client is
    built and the message is formatted. Each entry depends on its own
    channel only: with other transports, which agree on one channel, the
    entry of that channel is the same, whether the others deliver, are
    rejected or throw. *)
Theorem sendAlert_fan_out_isolation
        (cfg : config_values) (svc : State) (net : Transports)
        (payload : AlertPayload) :
  exists results,
    sendAlert cfg svc net payload = Ok results
    /\ (forall msgId,
          telegram results = Some msgId <->
          telegram_enabled cfg = true /\ telegramBot svc = true
          /\ exists chatId message message_id,
               telegram_chatId cfg = Some chatId /\ chatId <> ""
               /\ formatTelegram net payload = Ok message
               /\ telegramSendMessage net chatId message = Fulfilled message_id
               /\ msgId = numToString message_id)
    /\ (forall msgId,
          discord results = Some msgId <->
          discord_enabled cfg = true
          /\ exists url embed,
               discord_webhookUrl cfg = Some url /\ url <> ""
               /\ formatDiscord net payload = Ok embed
               /\ discordPost net (url ++ "?wait=true")%string embed
                  = Fulfilled (Some msgId))
    /\ (forall msgId,
          twitter results = Some msgId <->
          twitter_enabled cfg = true /\ twitterClient svc = true
          /\ (exists message, formatTwitter net payload = Ok message)
          /\ msgId = "twitter_dm_disabled")
    /\ (forall net',
          exists results',
            sendAlert cfg svc net' payload = Ok results'
            /\ (formatTelegram net' payload = formatTelegram net payload ->
                (forall chatId message,
                    telegramSendMessage net' chatId message
                    = telegramSendMessage net chatId message) ->
                telegram results' = telegram results)
            /\ (formatDiscord net' payload = formatDiscord net payload ->
                (forall url embed,
                    discordPost net' url embed = discordPost net url embed) ->
                discord results' = discord results)
            /\ (formatTwitter net' payload = formatTwitter net payload ->
                twitter results' = twitter results)).
Proof.
  eexists. split; [apply sendAlert_results |].
  cbn [telegram discord twitter].
  split; [| split; [| split; [| intros net'; eexists;
                                 split; [apply sendAlert_results |]]]].
  - intros msgId. destruct (telegram_enabled cfg).
    + rewrite sendTelegramAlert_delivered. tauto.
    + split; [discriminate | intros [H _]; discriminate].
  - intros msgId. destruct (discord_enabled cfg).
    + rewrite sendDiscordAlert_delivered. tauto.
    + split; [discriminate | intros [H _]; discriminate].
  - intros msgId. destruct (twitter_enabled cfg).
    + rewrite sendTwitterAlert_delivered. tauto.
    + split; [discriminate | intros [H _]; discriminate].
  - cbn [telegram discord twitter]. split; [| split].
    + intros Hf Hs. destruct (telegram_enabled cfg); [| reflexivity].
      unfold sendTelegramAlert. rewrite Hf.
      destruct (telegramBot svc); [| reflexivity].
      destruct (telegram_chatId cfg) as [chatId |]; [| reflexivity].
      destruct (strTruthy chatId); [| reflexivity].
      destruct (formatTelegram net payload) as [message | e]; [| reflexivity].
      now rewrite Hs.
    + intros Hf Hs. destruct (discord_enabled cfg); [| reflexivity].
      unfold sendDiscordAlert. rewrite Hf.
      destruct (discord_webhookUrl cfg) as [url |]; [| reflexivity].
      destruct (strTruthy url); [| reflexivity].
      destruct (formatDiscord net payload) as [embed | e]; [| reflexivity].
      now rewrite Hs.
    + intros Hf. destruct (twitter_enabled cfg); [| reflexivity].
      unfold sendTwitterAlert. now rewrite Hf.
Qed.

(** C4 as stated fails for Twitter: with the three channels enabled and
    both transports rejecting every call, no delivery id is returned to
    any channel, yet the map has an entry for Twitter. *)
Lemma twitter_entry_without_delivery :
  (forall chatId message,
      telegramSendMessage Sample.offline chatId message = Rejected "ETIMEDOUT")
  /\ (forall url embed,
        discordPost Sample.offline url embed = Rejected "ETIMEDOUT")
  /\ telegram_enabled Sample.config = true
  /\ discord_enabled Sample.config = true
  /\ twitter_enabled Sample.config = true
  /\ forall payload,
       sendAlert Sample.config Sample.clients Sample.offline payload
       = Ok {| telegram := None; discord := None;
               twitter := Some "twitter_dm_disabled" |}.
Proof. repeat split. Qed.

(** Channel A throws, channel B delivers: the map holds B's id alone. *)
Lemma telegram_throws_discord_delivers (payload : AlertPayload) :
  sendTelegramAlert Sample.config Sample.clients Sample.telegramThrows payload
    = Rejected "TypeError: Cannot read properties of undefined (reading 'slice')"
  /\ sendAlert Sample.config Sample.clients Sample.telegramThrows payload
     = Ok {| telegram := None; discord := Some "d-1";
             twitter := Some "twitter_dm_disabled" |}.
Proof. split; reflexivity. Qed.

End AlertFanOut.

(** ** The list operations of the network client (ethos.service.ts) *)

Section ListOperations.
Import Js Control Types Config EthosService.
Import Notions.

Lemma getVouches_returns (post : Z -> Http) (iso userkey : string) :
  exists vouches, getVouches post iso userkey = Ok vouches.
Proof.
  unfold getVouches. destruct (getVouches_try post iso userkey); eauto.
Qed.

Lemma getReceivedActivities_returns (post : string -> Http) (userkey : string) :
  exists activities, getReceivedActivities post userkey = Ok activities.
Proof.
  unfold getReceivedActivities.
  destruct (getReceivedActivities_try post userkey); eauto.
Qed.

Lemma getVouches_no_profileId (post : Z -> Http) (iso userkey : string) :
  profileIdFalsy (extractProfileId userkey) = true ->
  getVouches post iso userkey = Ok [].
Proof.
  intros H. unfold getVouches, getVouches_try. rewrite H. reflexivity.
Qed.

Lemma getVouches_transport_error (post : Z -> Http) (iso userkey : string)
      (n : Z) (status : option Z) (message : string) :
  extractProfileId userkey = PidNum n -> post n = HttpError status message ->
  getVouches post iso userkey = Ok [].
Proof.
  intros Hp Hpost. unfold getVouches, getVouches_try. rewrite Hp.
  destruct (profileIdFalsy (PidNum n)); [reflexivity |].
  rewrite Hpost. reflexivity.
Qed.

(** Only a body that is an object whose [values] is an array yields
    vouches; every other shape ends in the empty list. *)
Lemma getVouches_nonempty_shape (post : Z -> Http) (iso userkey : string)
      (vouches : list VouchObject) :
  getVouches post iso userkey = Ok vouches -> vouches <> [] ->
  exists n fields items,
    extractProfileId userkey = PidNum n /\ n <> 0
    /\ post n = HttpOk (VJson (JObj fields))
    /\ lookup "values" fields = VJson (JArr items)
    /\ mapThrowing (convertVouch iso) items = Ok vouches.
Proof.
  unfold getVouches, getVouches_try. intros H Hne.
  destruct (extractProfileId userkey) as [| | n] eqn:Hp; cbn in H;
    try (injection H as <-; now elim Hne).
  unfold numTruthy in H. destruct (Z.eqb_spec n 0) as [Hz | Hz]; cbn in H;
    [injection H as <-; now elim Hne |].
  destruct (post n) as [data | status message] eqn:Hpost;
    [| injection H as <-; now elim Hne].
  unfold or in H.
  destruct data as [| [| b | k | s | items | fields] | m];
    cbn [getPropOpt getProp toBoolean String.eqb Ascii.eqb Bool.eqb] in H;
    try (destruct b); try (destruct (numTruthy k)); try (destruct (strTruthy s));
    cbn in H; try (injection H as <-; now elim Hne).
  destruct (lookup "values" fields) as [| [| b | k | s | items | fs] | m] eqn:Hl;
    cbn [toBoolean] in H;
    try (destruct b); try (destruct (numTruthy k)); try (destruct (strTruthy s));
    cbn in H; try (injection H as <-; now elim Hne).
  exists n, fields, items. repeat split; auto.
  destruct (mapThrowing (convertVouch iso) items);
    [assumption | injection H as <-; now elim Hne].
Qed.

Lemma getReceivedActivities_transport_error (post : string -> Http)
      (userkey : string) (status : option Z) (message : string) :
  post userkey = HttpError status message ->
  getReceivedActivities post userkey = Ok [].
Proof.
  intros H. unfold getReceivedActivities, getReceivedActivities_try.
  rewrite H. reflexivity.
Qed.

(** Only an object whose [values] is an array, or whose [values] is
    falsy and whose [activities] is an array, yields activities. *)
Lemma getReceivedActivities_nonempty_shape (post : string -> Http)
      (userkey : string) (activities : list Json) :
  getReceivedActivities post userkey = Ok activities -> activities <> [] ->
  exists fields,
    post userkey = HttpOk (VJson (JObj fields))
    /\ (lookup "values" fields = VJson (JArr activities)
        \/ (toBoolean (lookup "values" fields) = false
            /\ lookup "activities" fields = VJson (JArr activities))).
Proof.
  unfold getReceivedActivities, getReceivedActivities_try. intros H Hne.
  destruct (post userkey) as [data | status message] eqn:Hpost;
    [| injection H as <-; now elim Hne].
  unfold or in H.
  destruct data as [| [| b | k | s | items | fields] | m];
    cbn [getPropOpt getProp toBoolean String.eqb Ascii.eqb Bool.eqb] in H;
    cbn in H; try (injection H as <-; now elim Hne).
  exists fields. split; [reflexivity |].
  destruct (lookup "values" fields) as [| [| b | k | s | items | fs] | m] eqn:Hl;
    cbn [toBoolean] in H |- *.
  all: try (destruct b); try (destruct (numTruthy k)); try (destruct (strTruthy s)).
  all: cbn in H; try (injection H as <-; now elim Hne).
  all: try (left; injection H as ->; reflexivity).
  all: right; split; [reflexivity |].
  all: destruct (lookup "activities" fields) as [| [| b' | k' | s' | items' | fs'] | m'];
    cbn [toBoolean] in H;
    try (destruct b'); try (destruct (numTruthy k')); try (destruct (strTruthy s'));
    cbn in H; try (injection H as <-; now elim Hne);
    injection H as ->; reflexivity.
Qed.

End ListOperations.

(** ** Reasoning about the monad *)

Section MonadFacts.
Import Js Control Types MonitorService.
Import Notions.

Lemma bind_inv {S A B} (m : M S A) (k : A -> M S B) (s s' : S) (o : Outcome B) :
  bind m k s = (o, s') ->
  (exists a s1, m s = (Ok a, s1) /\ k a s1 = (o, s'))
  \/ (exists e, m s = (Throw e, s') /\ o = Throw e).
Proof.
  unfold bind. destruct (m s) as [[a | e] s1]; intros H.
  - left. eauto.
  - right. injection H as <- <-. eauto.
Qed.

Lemma bind_Ok {S A B} (m : M S A) (k : A -> M S B) (s s' : S) (b : B) :
  bind m k s = (Ok b, s') ->
  exists a s1, m s = (Ok a, s1) /\ k a s1 = (Ok b, s').
Proof.
  intros H. destruct (bind_inv _ _ _ _ _ H) as [? | (e & _ & He)];
    [assumption | discriminate].
Qed.

Lemma inWorld_inv {A} (m : M World A) (c c' : Cycle) (o : Outcome A) :
  inWorld m c = (o, c') ->
  m (world c) = (o, world c') /\ result c' = result c.
Proof.
  unfold inWorld. destruct (m (world c)) as [o1 w1]. intros H.
  injection H as <- <-. split; reflexivity.
Qed.

Lemma query_inv {A} (env : Env) (q : Db.Query A) (w w' : World) (o : Outcome A) :
  query env q w = (o, w') ->
  (dbFault env (tick w) = true /\ w' = advance w /\ exists e, o = Throw e)
  \/ (dbFault env (tick w) = false
      /\ exists s, q (db w) = (o, s) /\ w' = advance (setDb s w)).
Proof.
  unfold query. destruct (dbFault env (tick w)).
  - intros H. injection H as <- <-. left. eauto.
  - destruct (q (db w)) as [o1 s1]. intros H. injection H as <- <-.
    right. eauto.
Qed.

Lemma query_Ok {A} (env : Env) (q : Db.Query A) (w w' : World) (a : A) :
  query env q w = (Ok a, w') ->
  dbFault env (tick w) = false
  /\ exists s, q (db w) = (Ok a, s) /\ w' = advance (setDb s w).
Proof.
  intros H. destruct (query_inv _ _ _ _ _ H) as [(_ & _ & e & He) | ?];
    [discriminate | assumption].
Qed.

Section Preorder.
Context {S : Type} (R : S -> S -> Prop).
Hypothesis R_refl : forall s, R s s.
Hypothesis R_trans : forall s1 s2 s3, R s1 s2 -> R s2 s3 -> R s1 s3.

Lemma respects_ret {A} (a : A) : respects R (ret a).
Proof. intros s o s' H. injection H as _ <-. apply R_refl. Qed.

Lemma respects_throw {A} (e : string) : respects R (@throw S A e).
Proof. intros s o s' H. injection H as _ <-. apply R_refl. Qed.

Lemma respects_bind {A B} (m : M S A) (k : A -> M S B) :
  respects R m -> (forall a, respects R (k a)) -> respects R (bind m k).
Proof.
  intros Hm Hk s o s' H.
  destruct (bind_inv _ _ _ _ _ H) as [(a & s1 & H1 & H2) | (e & H1 & _)].
  - eapply R_trans; [eapply Hm, H1 | eapply Hk, H2].
  - eapply Hm, H1.
Qed.

Lemma respects_gets {A} (f : S -> A) : respects R (gets f).
Proof. intros s o s' H. injection H as _ <-. apply R_refl. Qed.

Lemma respects_liftOutcome {A} (o : Outcome A) : respects R (liftOutcome o).
Proof. intros s o' s' H. injection H as _ <-. apply R_refl. Qed.

Lemma respects_tryCatch {A} (m : M S A) (handler : string -> M S A) :
  respects R m -> (forall e, respects R (handler e)) ->
  respects R (tryCatch m handler).
Proof.
  intros Hm Hh s o s'. unfold tryCatch.
  destruct (m s) as [[a | e] s1] eqn:E; intros H.
  - injection H as _ <-. eapply Hm, E.
  - eapply R_trans; [eapply Hm, E | eapply Hh, H].
Qed.

Lemma respects_forEach {A} (xs : list A) (body : A -> M S unit) :
  (forall x, respects R (body x)) -> respects R (forEach xs body).
Proof.
  intros Hb. induction xs as [| x rest IH]; cbn [forEach].
  - apply respects_ret.
  - apply respects_bind; [apply Hb | intros _; apply IH].
Qed.

End Preorder.

(** A relation that looks at the store only, and that every query that
    can run respects. *)
Lemma respects_query {A} (env : Env) (R : World -> World -> Prop) (q : Db.Query A) :
  (forall w, R w (advance w)) ->
  (forall w o s, q (db w) = (o, s) -> R w (advance (setDb s w))) ->
  respects R (query env q).
Proof.
  intros Hadv Hq w o w' H.
  destruct (query_inv _ _ _ _ _ H) as [(_ & -> & _) | (_ & s & Hs & ->)].
  - apply Hadv.
  - eapply Hq, Hs.
Qed.

Lemma bind_cong {S A B} (m : M S A) (k1 k2 : A -> M S B) (s : S) :
  (forall a s1, k1 a s1 = k2 a s1) -> bind m k1 s = bind m k2 s.
Proof.
  intros H. unfold bind. destruct (m s) as [[a | e] s1]; [apply H | reflexivity].
Qed.

Lemma bind_cong_l {S A B} (m1 m2 : M S A) (k : A -> M S B) (s : S) :
  m1 s = m2 s -> bind m1 k s = bind m2 k s.
Proof. intros H. unfold bind. now rewrite H. Qed.

Lemma withResult_cong {A} (r0 : MonitorResult) (m1 m2 : M Cycle A) (w : World) :
  m1 {| world := w; result := r0 |} = m2 {| world := w; result := r0 |} ->
  withResult r0 m1 w = withResult r0 m2 w.
Proof. intros H. unfold withResult. now rewrite H. Qed.

Lemma forEach_ext {S A} (xs : list A) (f g : A -> M S unit) :
  (forall x, f x = g x) -> forEach xs f = forEach xs g.
Proof.
  intros H. induction xs as [| x rest IH]; cbn [forEach];
    [reflexivity | now rewrite H, IH].
Qed.

End MonadFacts.

(** ** The single-flight guard (monitor.service.ts, scheduler) *)

Section SingleFlight.
Import Js Control Types MonitorService.
Import Notions.

(** A trigger that finds the flag set returns the fixed result and
    leaves the world, the store included, as it is. *)
Lemma enterCycle_skips (env : Env) (w : World) :
  isRunning w = true -> enterCycle env w = (Ok (Skip skippedResult), w).
Proof.
  intros H. unfold enterCycle, bind, gets. rewrite H. reflexivity.
Qed.

(** A trigger that finds the flag down raises it and reads the clock. *)
Lemma enterCycle_enters (env : Env) (w : World) :
  isRunning w = false ->
  enterCycle env w
  = (Ok (Enter (clock env (tick w))), advance (setIsRunning true w)).
Proof.
  intros H. unfold enterCycle, bind, gets. rewrite H. reflexivity.
Qed.

Lemma runMonitorCycle_skips (env : Env) (w : World) :
  isRunning w = true -> runMonitorCycle env w = (Ok skippedResult, w).
Proof.
  intros H. unfold runMonitorCycle, bind. rewrite (enterCycle_skips env w H).
  reflexivity.
Qed.

(** A call that finds the flag down is the rest of the cycle, run with
    the flag up. *)
Lemma runMonitorCycle_idle (env : Env) (w : World) :
  isRunning w = false ->
  runMonitorCycle env w
  = finishCycle env (clock env (tick w)) (advance (setIsRunning true w)).
Proof.
  intros H. unfold runMonitorCycle, bind. rewrite (enterCycle_enters env w H).
  reflexivity.
Qed.

(** However its body ends, the cycle returns its result object and the
    flag is down afterwards. *)
Lemma finishCycle_clears (env : Env) (startTime : Z) (w w' : World)
      (o : Outcome MonitorResult) :
  finishCycle env startTime w = (o, w') ->
  isRunning w' = false /\ exists r, o = Ok r.
Proof.
  unfold finishCycle, bind, withResult, finally_, tryCatch, gets.
  destruct (cycleBody env startTime {| world := w; result := freshResult |})
    as [[[] | e] c]; cbn; intros H; injection H as <- <-; cbn; eauto.
Qed.

Lemma step_guarded (l : Loop) (e : Event) : guarded l -> guarded (step l e).
Proof.
  intros [[Hr Hf] | [Hr [call Hf]]]; destruct e as [env' |]; unfold step.
  - rewrite (enterCycle_enters env' _ Hr), Hf. right.
    cbn [current inFlight app isRunning setIsRunning advance]. eauto.
  - rewrite Hf. left. auto.
  - rewrite (enterCycle_skips env' _ Hr). right. cbn [current inFlight]. eauto.
  - rewrite Hf. destruct call as [env startTime].
    destruct (finishCycle env startTime (current l)) as [o w'] eqn:E.
    apply finishCycle_clears in E as [E _]. left. split; [exact E | reflexivity].
Qed.

Lemma run_guarded (events : list Event) (l : Loop) :
  guarded l -> guarded (run l events).
Proof.
  revert l. induction events as [| e rest IH]; intros l H; cbn;
    [assumption | apply IH, step_guarded, H].
Qed.

Lemma sameFlag_refl (w : World) : sameFlag w w.
Proof. reflexivity. Qed.

Lemma sameFlag_trans (w1 w2 w3 : World) :
  sameFlag w1 w2 -> sameFlag w2 w3 -> sameFlag w1 w3.
Proof. unfold sameFlag. congruence. Qed.

Lemma flagKept_refl (c : Cycle) : flagKept c c.
Proof. reflexivity. Qed.

Lemma flagKept_trans (c1 c2 c3 : Cycle) :
  flagKept c1 c2 -> flagKept c2 c3 -> flagKept c1 c3.
Proof. unfold flagKept, sameFlag. congruence. Qed.

Lemma flagKept_inWorld {A} (m : M World A) :
  respects sameFlag m -> respects flagKept (inWorld m).
Proof. intros Hm c o c' H. apply inWorld_inv in H as [H _]. eapply Hm, H. Qed.

Lemma query_sameFlag {A} (env : Env) (q : Db.Query A) :
  respects sameFlag (query env q).
Proof. apply respects_query; intros; reflexivity. Qed.

(** A computation made of steps that leave the flag alone leaves it
    alone; [known] closes the parts for which that is proved. *)
Ltac keeps refl trans known :=
  repeat first
    [ known
    | solve [intros ? ? ? H; injection H as _ <-; reflexivity]
    | apply query_sameFlag
    | apply flagKept_inWorld
    | apply (respects_forEach _ refl trans); intros ?
    | apply (respects_tryCatch _ trans); [| intros ?]
    | apply (respects_bind _ trans); [| intros ?]
    | match goal with
      | |- respects _ (match ?x with _ => _ end) => destruct x
      end ].

Lemma activityIdOf_sameFlag (env : Env) (activity : EthosActivity) :
  respects sameFlag (activityIdOf env activity).
Proof. unfold activityIdOf. keeps sameFlag_refl sameFlag_trans fail. Qed.

Lemma parseActivityTimestamp_sameFlag (env : Env) (activity : EthosActivity) :
  respects sameFlag (parseActivityTimestamp env activity).
Proof. unfold parseActivityTimestamp. keeps sameFlag_refl sameFlag_trans fail. Qed.

Lemma processActivity_flagKept (env : Env) (activity : EthosActivity)
      (relationId : string) :
  respects flagKept (processActivity env activity relationId).
Proof.
  unfold processActivity, alertNegative, dispatchAlert, storeAlert, storeDefense.
  keeps flagKept_refl flagKept_trans
        ltac:(first [apply activityIdOf_sameFlag
                    | apply parseActivityTimestamp_sameFlag]).
Qed.

Lemma processRelation_flagKept (env : Env) (vouch : EthosVouch) :
  respects flagKept (processRelation env vouch).
Proof.
  unfold processRelation, ingestRelation.
  keeps flagKept_refl flagKept_trans ltac:(apply processActivity_flagKept).
Qed.

(** The body of a cycle leaves the flag as it finds it. *)
Lemma cycleBody_flagKept (env : Env) (startTime : Z) :
  respects flagKept (cycleBody env startTime).
Proof.
  unfold cycleBody.
  keeps flagKept_refl flagKept_trans ltac:(apply processRelation_flagKept).
Qed.

(** C3. The calls of [runMonitorCycle] on the event loop, each cut at its
    first [await] into [enterCycle] and [finishCycle]. From an idle
    process and through any sequence of triggers and returns: at most one
    cycle is in flight, and the flag is up exactly while one is. A trigger
    that arrives while a cycle is in flight returns at once the result
    with all counts zero and the notice "Cycle already running", and
    leaves the world untouched (no ingestion, no CycleLog row). The return
    of the cycle in flight, whether its body succeeded or failed, yields a
    result and takes the flag down, so that no cycle is in flight
    afterwards. A trigger that finds no cycle in flight raises the flag
    before anything else can run, and followed by its return it is the
    call [runMonitorCycle] as a whole. Taking the rest of a call as one
    step loses nothing: in whatever world a call finds the flag up, it
    returns that result and changes nothing, and the body of a cycle
    leaves the flag as it finds it. *)
Theorem single_flight (w : World) (events : list Event) :
  isRunning w = false ->
  let l := run (idle w) events in
  (List.length (inFlight l) <= 1)%nat
  /\ (isRunning (current l) = true <-> inFlight l <> [])
  /\ (inFlight l <> [] ->
      forall env,
        runMonitorCycle env (current l) = (Ok skippedResult, current l)
        /\ step l (Trigger env)
           = {| current := current l; inFlight := inFlight l;
                returned := returned l ++ [Ok skippedResult] |})
  /\ (inFlight l <> [] ->
      isRunning (current (step l Return)) = false
      /\ inFlight (step l Return) = []
      /\ exists r, returned (step l Return) = returned l ++ [Ok r])
  /\ (inFlight l = [] ->
      forall env,
        (exists startTime,
            inFlight (step l (Trigger env)) = [(env, startTime)]
            /\ returned (step l (Trigger env)) = returned l
            /\ isRunning (current (step l (Trigger env))) = true)
        /\ exists o,
             runMonitorCycle env (current l)
             = (o, current (run l [Trigger env; Return]))
             /\ returned (run l [Trigger env; Return]) = returned l ++ [o]
             /\ inFlight (run l [Trigger env; Return]) = [])
  /\ skippedResult
     = {| relationsChecked := 0; reviewsFound := 0; newNegative := 0;
          alertsSent := 0; errors := ["Cycle already running"]; duration := 0 |}
  /\ (forall env w',
        isRunning w' = true -> runMonitorCycle env w' = (Ok skippedResult, w'))
  /\ (forall env startTime c o c',
        cycleBody env startTime c = (o, c') ->
        isRunning (world c') = isRunning (world c)).
Proof.
  intros Hidle l.
  assert (Htail :
            skippedResult
            = {| relationsChecked := 0; reviewsFound := 0; newNegative := 0;
                 alertsSent := 0; errors := ["Cycle already running"];
                 duration := 0 |}
            /\ (forall env w',
                  isRunning w' = true ->
                  runMonitorCycle env w' = (Ok skippedResult, w'))
            /\ (forall env startTime c o c',
                  cycleBody env startTime c = (o, c') ->
                  isRunning (world c') = isRunning (world c))).
  { split; [reflexivity |]. split; [intros env w'; apply runMonitorCycle_skips |].
    intros env startTime c o c' H. exact (cycleBody_flagKept env startTime c o c' H). }
  assert (G : guarded l).
  { apply run_guarded. left. split; [exact Hidle | reflexivity]. }
  destruct G as [[Hr Hf] | [Hr [[env0 start0] Hf]]]; rewrite ?Hf.
  - split; [cbn; lia |].
    split; [rewrite Hr; split; [discriminate | intros Hne; now elim Hne] |].
    split; [intros Hne; now elim Hne |].
    split; [intros Hne; now elim Hne |].
    split; [| exact Htail].
    intros _ env. unfold run, fold_left, step.
    rewrite (enterCycle_enters env _ Hr), Hf. cbn [app inFlight current returned].
    split; [eexists; repeat split |].
    rewrite (runMonitorCycle_idle env _ Hr).
    destruct (finishCycle env (clock env (tick (current l)))
                          (advance (setIsRunning true (current l)))) as [o w'].
    exists o. cbn [current returned inFlight]. repeat split.
  - split; [cbn; lia |].
    split; [split; [discriminate | intros _; exact Hr] |].
    split; [| split; [| split; [discriminate | exact Htail]]]; intros _.
    + intros env. split; [apply runMonitorCycle_skips, Hr |].
      unfold step. rewrite (enterCycle_skips env _ Hr), Hf. reflexivity.
    + unfold step. rewrite Hf.
      destruct (finishCycle env0 start0 (current l)) as [o w'] eqn:E.
      apply finishCycle_clears in E as [E [r ->]].
      cbn [current inFlight returned]. eauto.
Qed.

Lemma single_flight_witness :
  let l := run (idle Sample.world0) [Trigger (Sample.quiet 1000);
                                     Trigger (Sample.quiet 2000)] in
  (List.length (inFlight l) <= 1)%nat
  /\ (isRunning (current l) = true <-> inFlight l <> [])
  /\ (inFlight l <> [] ->
      forall env,
        runMonitorCycle env (current l) = (Ok skippedResult, current l)
        /\ step l (Trigger env)
           = {| current := current l; inFlight := inFlight l;
                returned := returned l ++ [Ok skippedResult] |})
  /\ (inFlight l <> [] ->
      isRunning (current (step l Return)) = false
      /\ inFlight (step l Return) = []
      /\ exists r, returned (step l Return) = returned l ++ [Ok r])
  /\ (inFlight l = [] ->
      forall env,
        (exists startTime,
            inFlight (step l (Trigger env)) = [(env, startTime)]
            /\ returned (step l (Trigger env)) = returned l
            /\ isRunning (current (step l (Trigger env))) = true)
        /\ exists o,
             runMonitorCycle env (current l)
             = (o, current (run l [Trigger env; Return]))
             /\ returned (run l [Trigger env; Return]) = returned l ++ [o]
             /\ inFlight (run l [Trigger env; Return]) = [])
  /\ skippedResult
     = {| relationsChecked := 0; reviewsFound := 0; newNegative := 0;
          alertsSent := 0; errors := ["Cycle already running"]; duration := 0 |}
  /\ (forall env w',
        isRunning w' = true -> runMonitorCycle env w' = (Ok skippedResult, w'))
  /\ (forall env startTime c o c',
        cycleBody env startTime c = (o, c') ->
        isRunning (world c') = isRunning (world c)).
Proof.
  apply (single_flight Sample.world0
           [Trigger (Sample.quiet 1000); Trigger (Sample.quiet 2000)]).
  reflexivity.
Defined.

(** A cycle whose log row the store rejects fails in its outer [try]:
    the error is recorded in the result, and the flag is down all the
    same. *)
Lemma failed_cycle_clears_guard :
  let env := Sample.rejecting 1000 in
  let '(o, w') := runMonitorCycle env Sample.world0 in
  o = Ok {| relationsChecked := 0; reviewsFound := 0; newNegative := 0;
            alertsSent := 0;
            errors := ["Cycle failed: PrismaClientInitializationError"];
            duration := 1 |}
  /\ isRunning w' = false
  /\ Db.monitorLogs (db w') = [].
Proof. vm_compute. repeat split. Qed.

End SingleFlight.

(** ** What the steps of a cycle leave alone *)

Section Frames.
Import Js Control Types Config MonitorService.
Import Notions.

Lemma sameDb_refl (w : World) : sameDb w w.
Proof. reflexivity. Qed.

Lemma sameDb_trans (w1 w2 w3 : World) : sameDb w1 w2 -> sameDb w2 w3 -> sameDb w1 w3.
Proof. unfold sameDb. congruence. Qed.

Lemma dateNow_sameDb (env : Env) : respects sameDb (dateNow env).
Proof. intros w o w' H. injection H as _ <-. reflexivity. Qed.

Lemma newDate_sameDb (env : Env) : respects sameDb (newDate env).
Proof. intros w o w' H. injection H as _ <-. reflexivity. Qed.

Lemma mathRandom_sameDb (env : Env) : respects sameDb (mathRandom env).
Proof. intros w o w' H. injection H as _ <-. reflexivity. Qed.

Lemma sendAlert_sameDb (env : Env) (payload : AlertPayload) :
  respects sameDb (sendAlert env payload).
Proof. intros w o w' H. injection H as _ <-. reflexivity. Qed.

Lemma activityIdOf_sameDb (env : Env) (activity : EthosActivity) :
  respects sameDb (activityIdOf env activity).
Proof.
  unfold activityIdOf.
  assert (Hs : respects sameDb
                 (bind (dateNow env)
                       (fun now => ret (typeName (type activity) ++ "_"
                                        ++ numToString now)%string))).
  { apply (respects_bind _ sameDb_trans); [apply dateNow_sameDb |].
    intros now. apply (respects_ret _ sameDb_refl). }
  destruct (dataField data_id activity) as [v |]; [destruct (valTruthy v) |];
    try apply (respects_ret _ sameDb_refl);
    destruct (id activity) as [s |]; try destruct (strTruthy s);
    try apply (respects_ret _ sameDb_refl); exact Hs.
Qed.

Lemma parseActivityTimestamp_sameDb (env : Env) (activity : EthosActivity) :
  respects sameDb (parseActivityTimestamp env activity).
Proof.
  unfold parseActivityTimestamp.
  destruct (timestamp activity) as [ts |]; [destruct (numTruthy ts) |];
    try apply (respects_ret _ sameDb_refl);
    (destruct (createdAt activity) as [s |]; [destruct (strTruthy s) |];
     [destruct (dateParse env s) | |]);
    try apply (respects_ret _ sameDb_refl);
    (destruct (dataField data_createdAt activity) as [v |];
     [destruct (valTruthy v); [destruct (numberOf env v) |] |]);
    try apply (respects_ret _ sameDb_refl); apply newDate_sameDb.
Qed.

Section StoreRel.
Variable Rs : Db.Store -> Db.Store -> Prop.
Variable Rr : MonitorResult -> MonitorResult -> Prop.
Hypothesis Rs_refl : forall s, Rs s s.
Hypothesis Rs_trans : forall s1 s2 s3, Rs s1 s2 -> Rs s2 s3 -> Rs s1 s3.
Hypothesis Rr_refl : forall r, Rr r r.
Hypothesis Rr_trans : forall r1 r2 r3, Rr r1 r2 -> Rr r2 r3 -> Rr r1 r3.

Lemma storeRel_refl (c : Cycle) : storeRel Rs Rr c c.
Proof. split; [apply Rs_refl | apply Rr_refl]. Qed.

Lemma storeRel_trans (c1 c2 c3 : Cycle) :
  storeRel Rs Rr c1 c2 -> storeRel Rs Rr c2 c3 -> storeRel Rs Rr c1 c3.
Proof. intros [H1 H2] [H3 H4]. split; eauto. Qed.

Lemma storeRel_reads {A} (m : M World A) :
  respects sameDb m -> respects (storeRel Rs Rr) (inWorld m).
Proof.
  intros Hm c o c' H. apply inWorld_inv in H as [H Hr].
  apply Hm in H. unfold sameDb in H. split.
  - rewrite H. apply Rs_refl.
  - rewrite Hr. apply Rr_refl.
Qed.

Lemma storeRel_query {A} (env : Env) (q : Db.Query A) :
  (forall s o s', q s = (o, s') -> Rs s s') ->
  respects (storeRel Rs Rr) (inWorld (query env q)).
Proof.
  intros Hq c o c' H. apply inWorld_inv in H as [H Hr]. split.
  - destruct (query_inv _ _ _ _ _ H) as [(_ & -> & _) | (_ & s & Hs & ->)]; cbn.
    + apply Rs_refl.
    + eapply Hq, Hs.
  - rewrite Hr. apply Rr_refl.
Qed.

Lemma storeRel_bump (f : MonitorResult -> MonitorResult) :
  (forall r, Rr r (f r)) -> respects (storeRel Rs Rr) (bump f).
Proof.
  intros Hf c o c' H. injection H as _ <-. split; cbn; [apply Rs_refl | apply Hf].
Qed.

End StoreRel.

(** *** Queries and the tables they write *)

Lemma updateFirst_map {A X} (f : A -> X) (p : A -> bool) (g : A -> A)
      (rows rows' : list A) (r : A) :
  (forall a, f (g a) = f a) ->
  Db.updateFirst p g rows = Some (r, rows') -> map f rows' = map f rows.
Proof.
  intros Hf. revert r rows'.
  induction rows as [| a rest IH]; intros r rows' H; cbn in H; [discriminate |].
  destruct (p a).
  - injection H as <- <-. cbn. now rewrite Hf.
  - destruct (Db.updateFirst p g rest) as [[r1 rest1] |]; [| discriminate].
    injection H as <- <-. cbn. f_equal. eapply IH. reflexivity.
Qed.

End Frames.

(** ** Ingestion of one activity (monitor.service.ts, database.service.ts) *)

Section AlertingFrame.
Import Js Control Types Config MonitorService.
Import Notions.

Variable env : Env.
Variable Rs : Db.Store -> Db.Store -> Prop.
Variable Rr : MonitorResult -> MonitorResult -> Prop.
Hypothesis Rs_refl : forall s, Rs s s.
Hypothesis Rs_trans : forall s1 s2 s3, Rs s1 s2 -> Rs s2 s3 -> Rs s1 s3.
Hypothesis Rr_refl : forall r, Rr r r.
Hypothesis Rr_trans : forall r1 r2 r3, Rr r1 r2 -> Rr r2 r3 -> Rr r1 r3.

Hypothesis createAlert_Rs :
  forall reviewId relationId type channel messageId s o s',
    Db.createAlert (freshId env) reviewId relationId type channel messageId s = (o, s') ->
    Rs s s'.
Hypothesis createDefense_Rs :
  forall reviewId targetKey score comment status s o s',
    Db.createDefense (freshId env) reviewId targetKey score comment status s = (o, s') ->
    Rs s s'.
Hypothesis markReviewAlerted_Rs :
  forall id s o s', Db.markReviewAlerted id s = (o, s') -> Rs s s'.
Hypothesis incAlertsSent_Rr : forall r, Rr r (incAlertsSent r).
Hypothesis incNewNegative_Rr : forall r, Rr r (incNewNegative r).

Let R := storeRel Rs Rr.
Let R_refl := storeRel_refl Rs Rr Rs_refl Rr_refl.
Let R_trans := storeRel_trans Rs Rr Rs_trans Rr_trans.

Lemma storeAlert_respects review relationId payload channel messageId :
  respects R (storeAlert env review relationId payload channel messageId).
Proof.
  unfold storeAlert. destruct (truthy strTruthy messageId).
  - apply (respects_bind _ R_trans).
    + apply storeRel_query; auto. intros s o s'. apply createAlert_Rs.
    + intros _. apply storeRel_bump; auto.
  - apply (respects_ret _ R_refl).
Qed.





End AlertingFrame.

Section IdempotentIngestion.
Import Js Control Types Config MonitorService.
Import Notions.









(** *** The ids on record stay unique through a whole cycle *)





Lemma anyResult_refl (r : MonitorResult) : anyResult r r.
Proof. exact I. Qed.

Lemma anyResult_trans (r1 r2 r3 : MonitorResult) :
  anyResult r1 r2 -> anyResult r2 r3 -> anyResult r1 r3.
Proof. intros _ _. exact I. Qed.














(** The same two cycles over a payload that carries an id store it once. *)
Lemma identified_payload_stored_once :
  sourceId Sample.negativeReview = Some "5"
  /\ (let w1 := snd (runMonitorCycle (Sample.listing Sample.negativeReview 1000)
                                      Sample.world0) in
      let w2 := snd (runMonitorCycle (Sample.listing Sample.negativeReview 5000) w1) in
      storedIds (db w1) = [Some "5"]
      /\ storedIds (db w2) = [Some "5"]
      /\ List.length (Db.alerts (db w2)) = List.length (Db.alerts (db w1))
      /\ List.length (Db.defenses (db w2)) = List.length (Db.defenses (db w1))).
Proof. vm_compute. repeat split. Qed.

End IdempotentIngestion.

(** ** The stored negativity flag (database.service.ts) *)

Section NegativityFlag.
Import Js Control Types Config MonitorService.
Import Notions.

(** [createReview] derives the flag from the score alone. *)
Lemma createReview_flag (data : Db.ReviewData) (s s' : Db.Store) (row : Db.Review) :
  Db.createReview data s = (Ok row, s') ->
  Db.review_isNegative row = (Db.rd_score data <? 0)
  /\ Db.reviews s' = Db.reviews s ++ [row].
Proof.
  unfold Db.createReview. destruct (existsb _ (Db.reviews s)); [discriminate |].
  intros H. injection H as <- <-. split; reflexivity.
Qed.

(** [processActivity] hands [createReview] the score and not the type, so
    no slash with a score of zero or more is stored as negative. *)
Lemma slash_flag_follows_score (data : Db.ReviewData) (s s' : Db.Store) (row : Db.Review) :
  0 <= Db.rd_score data ->
  Db.createReview data s = (Ok row, s') ->
  Db.review_isNegative row = false.
Proof.
  intros Hs H. apply createReview_flag in H as [-> _]. apply Z.ltb_ge, Hs.
Qed.

(** C2 fails on the code. The slash [{ type: "slash", data: { id: 1,
    score: "positive" } }] is negative by the rule of [processActivity]
    (it is counted and alerted as a slash), yet the ActivityRecord that
    [createReview] persists for it has the negativity flag unset. *)
Theorem positive_slash_stored_not_negative :
  let '(o, c) := processActivity (Sample.quiet 1000) Sample.positiveSlash "12"
                                 Sample.cycle1 in
  o = Ok tt
  /\ type Sample.positiveSlash = slash
  /\ scoreOf Sample.positiveSlash = 1
  /\ isNegativeOf Sample.positiveSlash = true
  /\ newNegative (result c) = 1
  /\ map Db.alert_type (Db.alerts (db (world c))) = [SLASH; SLASH]
  /\ map Db.review_activityId (Db.reviews (db (world c))) = [Some "1"]
  /\ map Db.review_isNegative (Db.reviews (db (world c))) = [false].
Proof. vm_compute. repeat split. Qed.

End NegativityFlag.

(** ** Alert rows (monitor.service.ts) *)

Section AlertRows.
Import Js Control Types Config MonitorService.
Import Notions.

Lemma sameAlerts_refl (s : Db.Store) : sameAlerts s s.
Proof. split; reflexivity. Qed.


Lemma sameResult_refl (r : MonitorResult) : sameResult r r.
Proof. reflexivity. Qed.


Let K_refl := storeRel_refl _ _ sameAlerts_refl sameResult_refl.













(** No row for Twitter: with the three channels enabled the result of the
    dispatch has an entry for each, for Twitter the fixed text, and the
    pass writes the Telegram and the Discord row only. *)
Lemma twitter_entry_has_no_row :
  (forall payload,
     AlertService.sendAlert Sample.config Sample.clients Sample.delivering payload
     = Ok {| AlertService.telegram := Some "501";
             AlertService.discord := Some "d-1";
             AlertService.twitter := Some "twitter_dm_disabled" |})
  /\ fst (processActivity (Sample.quiet 1000) Sample.negativeReview "12" Sample.cycle1)
     = Ok tt
  /\ isNegativeOf Sample.negativeReview = true
  /\ map channelRow (Db.alerts (db (world Sample.afterFirstPass)))
     = [(Db.TELEGRAM, Some "501"); (Db.DISCORD, Some "d-1")]
  /\ ~ (exists row, In row (Db.alerts (db (world Sample.afterFirstPass)))
                    /\ Db.alert_channel row = Db.TWITTER).
Proof.
  split; [intros payload; reflexivity |].
  split; [vm_compute; reflexivity |].
  split; [reflexivity |].
  split; [vm_compute; reflexivity |].
  intros (row & Hin & Hch). vm_compute in Hin.
  destruct Hin as [<- | [<- | []]]; discriminate.
Qed.

End AlertRows.

(** ** Defense submission and the credential (monitor.service.ts) *)

Section DefenseSubmission.
Import Js Control Types Config MonitorService.
Import Notions.

Lemma tokenBlind_ret {A} (a : A) : tokenBlind (ret a).
Proof. intros t w. reflexivity. Qed.

Lemma tokenBlind_bind {A B} (m : M World A) (k : A -> M World B) :
  tokenBlind m -> (forall a, tokenBlind (k a)) -> tokenBlind (bind m k).
Proof.
  intros Hm Hk t w. unfold bind. rewrite Hm.
  destruct (m w) as [[a | e] w1]; [apply Hk | reflexivity].
Qed.

Lemma tokenBlind_tryCatch {A} (m : M World A) (handler : string -> M World A) :
  tokenBlind m -> (forall e, tokenBlind (handler e)) -> tokenBlind (tryCatch m handler).
Proof.
  intros Hm Hh t w. unfold tryCatch. rewrite Hm.
  destruct (m w) as [[a | e] w1]; [reflexivity | apply Hh].
Qed.

Lemma tokenBlind_query {A} (env : Env) (q : Db.Query A) : tokenBlind (query env q).
Proof.
  intros t w. unfold query. cbn [tick db setToken].
  destruct (dbFault env (tick w)); [reflexivity |].
  destruct (q (db w)) as [o s]. reflexivity.
Qed.

Lemma tokenBlind_newDate (env : Env) : tokenBlind (newDate env).
Proof. intros t w. reflexivity. Qed.

Lemma tokenBlind_postReview (env : Env) targetKey score comment :
  tokenBlind (postReview env targetKey score comment).
Proof. intros t w. reflexivity. Qed.

Lemma tokenBlind_updateDefenseStatus (env : Env) id status extra :
  tokenBlind (updateDefenseStatus env id status extra).
Proof.
  unfold updateDefenseStatus. destruct status;
    try apply tokenBlind_query.
  apply tokenBlind_bind; [apply tokenBlind_newDate | intros; apply tokenBlind_query].
Qed.

Lemma tokenBlind_updateAlertStatus (env : Env) id status :
  tokenBlind (updateAlertStatus env id status).
Proof.
  apply tokenBlind_bind; [apply tokenBlind_newDate | intros; apply tokenBlind_query].
Qed.

Lemma executeDefense_tokenBlind (env : Env) (alertId reviewId : string) :
  tokenBlind (executeDefense env alertId reviewId).
Proof.
  unfold executeDefense.
  apply tokenBlind_tryCatch; [| intros; apply tokenBlind_ret].
  apply tokenBlind_bind; [apply tokenBlind_query | intros [alert |]];
    [| apply tokenBlind_ret].
  apply tokenBlind_bind; [apply tokenBlind_query | intros [pending |]];
    [| apply tokenBlind_ret].
  apply tokenBlind_bind; [apply tokenBlind_updateDefenseStatus | intros _].
  apply tokenBlind_bind; [apply tokenBlind_postReview | intros result].
  destruct (EthosService.success result).
  - apply tokenBlind_bind; [apply tokenBlind_updateDefenseStatus | intros _].
    apply tokenBlind_bind; [apply tokenBlind_updateAlertStatus | intros _].
    apply tokenBlind_ret.
  - apply tokenBlind_bind; [apply tokenBlind_updateDefenseStatus | intros _].
    apply tokenBlind_ret.
Qed.

Lemma postCustomDefense_tokenBlind (env : Env) (targetUserkey : string) (score : Z)
      (comment : string) (reviewId : option string) :
  tokenBlind (postCustomDefense env targetUserkey score comment reviewId).
Proof.
  unfold postCustomDefense.
  apply tokenBlind_tryCatch; [| intros; apply tokenBlind_ret].
  apply tokenBlind_bind; [apply tokenBlind_postReview | intros result].
  apply tokenBlind_bind; [| intros; apply tokenBlind_ret].
  destruct (EthosService.success result && truthy strTruthy reviewId);
    [| apply tokenBlind_ret].
  apply tokenBlind_bind; [apply tokenBlind_query | intros [defense |]];
    [| apply tokenBlind_ret].
  apply tokenBlind_bind; [apply tokenBlind_updateDefenseStatus | intros _].
  apply tokenBlind_ret.
Qed.

Lemma sameSubmitted_refl (w : World) : sameSubmitted w w.
Proof. reflexivity. Qed.

Lemma sameSubmitted_trans (w1 w2 w3 : World) :
  sameSubmitted w1 w2 -> sameSubmitted w2 w3 -> sameSubmitted w1 w3.
Proof. unfold sameSubmitted. congruence. Qed.

Lemma query_sameSubmitted {A} (env : Env) (q : Db.Query A) :
  respects sameSubmitted (query env q).
Proof.
  apply respects_query; [reflexivity | intros w o s _; reflexivity].
Qed.

Lemma updateDefenseStatus_sameSubmitted (env : Env) id status extra :
  respects sameSubmitted (updateDefenseStatus env id status extra).
Proof.
  unfold updateDefenseStatus. destruct status; try apply query_sameSubmitted.
  apply (respects_bind _ sameSubmitted_trans).
  - intros w o w' H. injection H as _ <-. reflexivity.
  - intros now. apply query_sameSubmitted.
Qed.

Lemma updateAlertStatus_sameSubmitted (env : Env) id status :
  respects sameSubmitted (updateAlertStatus env id status).
Proof.
  apply (respects_bind _ sameSubmitted_trans).
  - intros w o w' H. injection H as _ <-. reflexivity.
  - intros now. apply query_sameSubmitted.
Qed.

(** [postCustomDefense] submits first, in every state. *)
Lemma postCustomDefense_submits (env : Env) (targetUserkey : string) (score : Z)
      (comment : string) (reviewId : option string) (w : World) :
  submitted (snd (postCustomDefense env targetUserkey score comment reviewId w))
    = submitted w ++ [(targetUserkey, score, comment)].
Proof.
  unfold postCustomDefense, tryCatch, bind at 1, postReview.
  set (result := EthosService.postReview _ _ _ _).
  set (w1 := addSubmitted _ w).
  match goal with
  | |- context [bind ?m ?k w1] =>
      assert (Hk : respects sameSubmitted (bind m k));
      [| destruct (bind m k w1) as [[r | e] w2] eqn:E; apply Hk in E;
         unfold ret; cbn [snd]; exact E]
  end.
  apply (respects_bind _ sameSubmitted_trans);
    [| intros; apply (respects_ret _ sameSubmitted_refl)].
  destruct (EthosService.success result && truthy strTruthy reviewId);
    [| apply (respects_ret _ sameSubmitted_refl)].
  apply (respects_bind _ sameSubmitted_trans); [apply query_sameSubmitted |].
  intros [defense |]; [| apply (respects_ret _ sameSubmitted_refl)].
  apply (respects_bind _ sameSubmitted_trans);
    [apply updateDefenseStatus_sameSubmitted
    | intros; apply (respects_ret _ sameSubmitted_refl)].
Qed.

Lemma bind_step {S A B} (m : M S A) (k : A -> M S B) (s s1 : S) (a : A) :
  m s = (Ok a, s1) -> bind m k s = k a s1.
Proof. intros H. unfold bind. rewrite H. reflexivity. Qed.

Lemma query_run {A} (env : Env) (q : Db.Query A) (w : World) (a : A) (s : Db.Store) :
  dbFault env (tick w) = false -> q (db w) = (Ok a, s) ->
  query env q w = (Ok a, advance (setDb s w)).
Proof. intros Hf Hq. unfold query. rewrite Hf, Hq. reflexivity. Qed.

Lemma updateFirst_exists {A} (p q : A -> bool) (g : A -> A) (rows : list A) (a : A) :
  find p rows = Some a -> q a = true ->
  exists r rows', Db.updateFirst q g rows = Some (r, rows').
Proof.
  induction rows as [| x rest IH]; cbn; [discriminate |].
  intros Hfind Hq. destruct (q x) eqn:Hqx; [eauto |].
  destruct (p x).
  - injection Hfind as ->. congruence.
  - destruct (IH Hfind Hq) as (r & rows' & ->). eauto.
Qed.

(** [executeDefense] submits the active defense whenever the alert and
    the defense are on record and the store answers. *)
Lemma executeDefense_submits (env : Env) (alertId reviewId : string) (w : World)
      (alert : Db.Alert) (defense : Db.Defense) :
  dbFault env (tick w) = false ->
  dbFault env (S (tick w)) = false ->
  dbFault env (S (S (tick w))) = false ->
  find (fun a => String.eqb (Db.alert_id a) alertId) (Db.alerts (db w)) = Some alert ->
  find (fun d => String.eqb (Db.defense_reviewId d) reviewId && Db.isActive d)
       (Db.defenses (db w)) = Some defense ->
  submitted (snd (executeDefense env alertId reviewId w))
    = submitted w ++ [(Db.defense_targetKey defense, Db.defense_score defense,
                       Db.defense_comment defense)].
Proof.
  intros F0 F1 F2 Halert Hdefense.
  unfold executeDefense, tryCatch.
  rewrite (bind_step _ _ w (advance (setDb (db w) w)) (Some alert));
    [| apply query_run; [exact F0 | unfold Db.getAlertById; now rewrite Halert]].
  set (w1 := advance (setDb (db w) w)).
  rewrite (bind_step _ _ w1 (advance (setDb (db w1) w1)) (Some defense));
    [| apply query_run; [exact F1 | unfold Db.getPendingDefense; cbn [db w1 advance setDb];
                                    now rewrite Hdefense]].
  set (w2 := advance (setDb (db w1) w1)).
  unfold updateDefenseStatus at 1.
  destruct (query env (Db.updateDefenseStatus (Db.defense_id defense) Db.CONFIRMED
                         Db.noExtra (mkDate 0)) w2) as [[confirmed | e] w3] eqn:E3.
  2: { exfalso. apply query_inv in E3 as [(Hf & _) | (_ & s & Hq & _)].
       - cbn in Hf. congruence.
       - unfold Db.updateDefenseStatus in Hq. cbn [db w2 w1 advance setDb] in Hq.
         match type of Hq with
         | context [Db.updateFirst ?q ?g ?l] =>
             destruct (updateFirst_exists _ q g l defense Hdefense (String.eqb_refl _))
               as (r1 & rows1 & Hu); rewrite Hu in Hq
         end.
         discriminate. }
  assert (Hs3 : submitted w3 = submitted w).
  { apply query_sameSubmitted in E3. exact E3. }
  rewrite (bind_step _ _ w2 w3 confirmed E3).
  unfold bind at 1, postReview.
  set (result := EthosService.postReview _ _ _ _).
  set (w4 := addSubmitted _ w3).
  match goal with
  | |- context [(if EthosService.success result then ?m1 else ?m2) w4] =>
      assert (Hk : respects sameSubmitted
                     (if EthosService.success result then m1 else m2));
      [| destruct ((if EthosService.success result then m1 else m2) w4)
           as [[b | e] w5] eqn:E; apply Hk in E; unfold ret; cbn [snd];
         rewrite E; unfold w4; cbn [submitted addSubmitted]; now rewrite Hs3]
  end.
  destruct (EthosService.success result).
  - apply (respects_bind _ sameSubmitted_trans);
      [apply updateDefenseStatus_sameSubmitted | intros _].
    apply (respects_bind _ sameSubmitted_trans);
      [apply updateAlertStatus_sameSubmitted | intros _].
    apply (respects_ret _ sameSubmitted_refl).
  - apply (respects_bind _ sameSubmitted_trans);
      [apply updateDefenseStatus_sameSubmitted | intros _].
    apply (respects_ret _ sameSubmitted_refl).
Qed.

Lemma updateFirst_In {A} (q : A -> bool) (g : A -> A) (rows rows' : list A) (r : A) :
  Db.updateFirst q g rows = Some (r, rows') ->
  In r rows' /\ exists a, In a rows /\ q a = true /\ r = g a.
Proof.
  revert rows'. induction rows as [| x rest IH]; intros rows'; cbn [Db.updateFirst];
    [discriminate |].
  destruct (q x) eqn:Hq.
  - intros H. injection H as <- <-. split; [now left |]. exists x. auto using in_eq.
  - destruct (Db.updateFirst q g rest) as [[r' rest'] |]; [| discriminate].
    intros H. injection H as <- <-. destruct (IH rest' eq_refl) as (Hin & a & Ha & Hqa & ->).
    split; [now right |]. exists a. auto using in_cons.
Qed.

Lemma updateFirst_of_In {A} (q : A -> bool) (g : A -> A) (rows : list A) (a : A) :
  In a rows -> q a = true -> exists r rows', Db.updateFirst q g rows = Some (r, rows').
Proof.
  induction rows as [| x rest IH]; cbn [Db.updateFirst]; [intros [] |].
  intros Hin Hq. destruct (q x) eqn:Hqx; [eauto |].
  destruct Hin as [-> | Hin]; [congruence |].
  destruct (IH Hin Hq) as (r & rows' & ->). eauto.
Qed.

(** A refusal by the network: [executeDefense] returns [false], and when
    the store takes the write the defense is on record as failed, with
    the message of the network. *)
Lemma executeDefense_refused (env : Env) (alertId reviewId : string) (w : World)
      (alert : Db.Alert) (defense : Db.Defense) (message : string) :
  dbFault env (tick w) = false ->
  dbFault env (S (tick w)) = false ->
  dbFault env (S (S (tick w))) = false ->
  find (fun a => String.eqb (Db.alert_id a) alertId) (Db.alerts (db w)) = Some alert ->
  find (fun d => String.eqb (Db.defense_reviewId d) reviewId && Db.isActive d)
       (Db.defenses (db w)) = Some defense ->
  postReviews env (Db.defense_targetKey defense) (Db.defense_score defense)
              (Db.defense_comment defense) = EthosService.ReviewError message ->
  exists w',
    executeDefense env alertId reviewId w = (Ok false, w')
    /\ (dbFault env (S (S (S (tick w)))) = false ->
        exists d,
          In d (Db.defenses (db w'))
          /\ Db.defense_id d = Db.defense_id defense
          /\ Db.defense_status d = Db.FAILED
          /\ Db.defense_error d = Some message).
Proof.
  intros F0 F1 F2 Halert Hdefense Hrefused.
  unfold executeDefense, tryCatch.
  rewrite (bind_step _ _ w (advance (setDb (db w) w)) (Some alert));
    [| apply query_run; [exact F0 | unfold Db.getAlertById; now rewrite Halert]].
  set (w1 := advance (setDb (db w) w)).
  rewrite (bind_step _ _ w1 (advance (setDb (db w1) w1)) (Some defense));
    [| apply query_run; [exact F1 | unfold Db.getPendingDefense; cbn [db w1 advance setDb];
                                    now rewrite Hdefense]].
  set (w2 := advance (setDb (db w1) w1)).
  unfold updateDefenseStatus at 1.
  destruct (query env (Db.updateDefenseStatus (Db.defense_id defense) Db.CONFIRMED
                         Db.noExtra (mkDate 0)) w2) as [[confirmed | e] w3] eqn:E3.
  2: { exfalso. apply query_inv in E3 as [(Hf & _) | (_ & s & Hq & _)].
       - cbn in Hf. congruence.
       - unfold Db.updateDefenseStatus in Hq. cbn [db w2 w1 advance setDb] in Hq.
         match type of Hq with
         | context [Db.updateFirst ?q ?g ?l] =>
             destruct (updateFirst_exists _ q g l defense Hdefense (String.eqb_refl _))
               as (r1 & rows1 & Hu); rewrite Hu in Hq
         end.
         discriminate. }
  rewrite (bind_step _ _ w2 w3 confirmed E3).
  unfold bind at 1, postReview, EthosService.postReview. rewrite Hrefused.
  cbn [EthosService.success EthosService.error].
  set (w4 := addSubmitted _ w3).
  unfold updateDefenseStatus.
  apply query_Ok in E3 as (_ & s3 & Hq3 & Hw3).
  unfold Db.updateDefenseStatus in Hq3. cbn [db w2 w1 advance setDb] in Hq3.
  destruct (Db.updateFirst _ _ (Db.defenses (db w))) as [[r1 rows1] |] eqn:U1;
    [| discriminate].
  injection Hq3 as <- <-.
  apply updateFirst_In in U1 as (Hin1 & a1 & _ & Hq1 & Hr1).
  assert (Hid1 : String.eqb (Db.defense_id r1) (Db.defense_id defense) = true)
    by (rewrite Hr1; exact Hq1).
  unfold bind.
  destruct (query env (Db.updateDefenseStatus (Db.defense_id defense) Db.FAILED _
                                              (mkDate 0)) w4) as [[failed | e] w5] eqn:E5;
    unfold ret; eexists; (split; [reflexivity |]); intros F3.
  - apply query_Ok in E5 as (_ & s5 & Hq5 & ->).
    unfold Db.updateDefenseStatus in Hq5.
    destruct (Db.updateFirst _ _ (Db.defenses (db w4))) as [[r5 rows5] |] eqn:U5;
      [| discriminate].
    injection Hq5 as <- <-.
    apply updateFirst_In in U5 as (Hin5 & a5 & _ & Hq5 & ->).
    eexists. split; [cbn [db advance setDb Db.defenses]; exact Hin5 |].
    cbn [Db.defense_id Db.defense_status Db.defense_error Db.extra_error Db.written].
    apply String.eqb_eq in Hq5. auto.
  - exfalso. apply query_inv in E5 as [(Hf & _) | (_ & s & Hq & _)].
    + unfold w4 in Hf. rewrite Hw3 in Hf. cbn in Hf. congruence.
    + unfold Db.updateDefenseStatus in Hq.
      unfold w4 in Hq. rewrite Hw3 in Hq. cbn [db advance setDb addSubmitted Db.defenses] in Hq.
      match type of Hq with
      | context [Db.updateFirst ?q ?g ?l] =>
          destruct (updateFirst_of_In q g l r1 Hin1 Hid1) as (r & rows' & Hu);
            rewrite Hu in Hq
      end.
      discriminate.
Qed.

Lemma postCustomDefense_refused (env : Env) (targetUserkey : string) (score : Z)
      (comment : string) (reviewId : option string) (w : World) (message : string) :
  postReviews env targetUserkey score comment = EthosService.ReviewError message ->
  fst (postCustomDefense env targetUserkey score comment reviewId w)
  = Ok {| EthosService.success := false; EthosService.reviewId := None;
          EthosService.txHash := None; EthosService.error := Some message |}.
Proof.
  intros H. unfold postCustomDefense, tryCatch, bind, postReview,
              EthosService.postReview.
  rewrite H. reflexivity.
Qed.

(** C5, as amended. [executeDefense] and [postCustomDefense] never
    consult the credential watchdog: each does the same whatever token
    state is held, expired or not. [postCustomDefense] always submits the
    review to the network, and [executeDefense] submits the active defense
    whenever the alert and the defense are on record and the store
    answers. When the network refuses the submission, as it does for an
    expired token, the caller gets the network-layer failure:
    [executeDefense] returns [false], and the defense is on record as
    [FAILED] with the message of the network when the store takes that
    write; [postCustomDefense] returns the refusal of the network,
    [success: false] with its message. *)
Theorem defense_submission_ignores_token
        (env : Env) (alertId reviewId : string) (w : World)
        (alert : Db.Alert) (defense : Db.Defense) (t : TokenService.State) :
  dbFault env (tick w) = false ->
  dbFault env (S (tick w)) = false ->
  dbFault env (S (S (tick w))) = false ->
  find (fun a => String.eqb (Db.alert_id a) alertId) (Db.alerts (db w)) = Some alert ->
  find (fun d => String.eqb (Db.defense_reviewId d) reviewId && Db.isActive d)
       (Db.defenses (db w)) = Some defense ->
  executeDefense env alertId reviewId (setToken t w)
    = (let '(o, w') := executeDefense env alertId reviewId w in (o, setToken t w'))
  /\ submitted (snd (executeDefense env alertId reviewId (setToken t w)))
     = submitted w ++ [(Db.defense_targetKey defense, Db.defense_score defense,
                        Db.defense_comment defense)]
  /\ (forall message,
        postReviews env (Db.defense_targetKey defense) (Db.defense_score defense)
                    (Db.defense_comment defense) = EthosService.ReviewError message ->
        fst (executeDefense env alertId reviewId (setToken t w)) = Ok false
        /\ (dbFault env (S (S (S (tick w)))) = false ->
            exists d,
              In d (Db.defenses
                      (db (snd (executeDefense env alertId reviewId (setToken t w)))))
              /\ Db.defense_id d = Db.defense_id defense
              /\ Db.defense_status d = Db.FAILED
              /\ Db.defense_error d = Some message))
  /\ (forall targetUserkey score comment linked,
        postCustomDefense env targetUserkey score comment linked (setToken t w)
          = (let '(o, w') := postCustomDefense env targetUserkey score comment linked w
             in (o, setToken t w'))
        /\ submitted (snd (postCustomDefense env targetUserkey score comment linked
                                             (setToken t w)))
           = submitted w ++ [(targetUserkey, score, comment)]
        /\ (forall message,
              postReviews env targetUserkey score comment
                = EthosService.ReviewError message ->
              fst (postCustomDefense env targetUserkey score comment linked
                                     (setToken t w))
              = Ok {| EthosService.success := false; EthosService.reviewId := None;
                      EthosService.txHash := None;
                      EthosService.error := Some message |})).
Proof.
  intros F0 F1 F2 Halert Hdefense.
  split; [apply executeDefense_tokenBlind |].
  split; [apply (executeDefense_submits env alertId reviewId (setToken t w) alert defense);
          assumption |].
  split.
  - intros message Hrefused.
    destruct (executeDefense_refused env alertId reviewId (setToken t w) alert defense
                                     message F0 F1 F2 Halert Hdefense Hrefused)
      as (w' & -> & Hrow).
    split; [reflexivity | exact Hrow].
  - intros targetUserkey score comment linked.
    split; [apply postCustomDefense_tokenBlind |].
    split; [rewrite postCustomDefense_submits; reflexivity |].
    intros message. apply postCustomDefense_refused.
Qed.

Lemma defense_submission_ignores_token_witness :
  executeDefense (Sample.quiet Sample.tokenNow) "row0" "review_5"
                 (setToken Sample.holdingStale (world Sample.afterFirstPass))
    = (let '(o, w') := executeDefense (Sample.quiet Sample.tokenNow) "row0" "review_5"
                                      (world Sample.afterFirstPass)
       in (o, setToken Sample.holdingStale w'))
  /\ submitted (snd (executeDefense (Sample.quiet Sample.tokenNow) "row0" "review_5"
                                    (setToken Sample.holdingStale
                                              (world Sample.afterFirstPass))))
     = submitted (world Sample.afterFirstPass)
       ++ [("profileId:12", 3,
            "Trusted and reliable community member. I vouch for their credibility.")]
  /\ (forall message,
        postReviews (Sample.quiet Sample.tokenNow) "profileId:12" 3
          "Trusted and reliable community member. I vouch for their credibility."
        = EthosService.ReviewError message ->
        fst (executeDefense (Sample.quiet Sample.tokenNow) "row0" "review_5"
                            (setToken Sample.holdingStale
                                      (world Sample.afterFirstPass))) = Ok false
        /\ (dbFault (Sample.quiet Sample.tokenNow)
                    (S (S (S (tick (world Sample.afterFirstPass))))) = false ->
            exists d,
              In d (Db.defenses
                      (db (snd (executeDefense (Sample.quiet Sample.tokenNow) "row0"
                                               "review_5"
                                               (setToken Sample.holdingStale
                                                  (world Sample.afterFirstPass))))))
              /\ Db.defense_id d = "row2"
              /\ Db.defense_status d = Db.FAILED
              /\ Db.defense_error d = Some message))
  /\ (forall targetUserkey score comment linked,
        postCustomDefense (Sample.quiet Sample.tokenNow) targetUserkey score comment
                          linked (setToken Sample.holdingStale
                                           (world Sample.afterFirstPass))
          = (let '(o, w') := postCustomDefense (Sample.quiet Sample.tokenNow)
                                               targetUserkey score comment linked
                                               (world Sample.afterFirstPass)
             in (o, setToken Sample.holdingStale w'))
        /\ submitted (snd (postCustomDefense (Sample.quiet Sample.tokenNow)
                                             targetUserkey score comment linked
                                             (setToken Sample.holdingStale
                                                       (world Sample.afterFirstPass))))
           = submitted (world Sample.afterFirstPass)
             ++ [(targetUserkey, score, comment)]
        /\ (forall message,
              postReviews (Sample.quiet Sample.tokenNow) targetUserkey score comment
                = EthosService.ReviewError message ->
              fst (postCustomDefense (Sample.quiet Sample.tokenNow) targetUserkey score
                                     comment linked
                                     (setToken Sample.holdingStale
                                               (world Sample.afterFirstPass)))
              = Ok {| EthosService.success := false; EthosService.reviewId := None;
                      EthosService.txHash := None;
                      EthosService.error := Some message |})).
Proof.
  apply (defense_submission_ignores_token
           (Sample.quiet Sample.tokenNow) "row0" "review_5"
           (world Sample.afterFirstPass)
           {| Db.alert_id := "row0"; Db.alert_reviewId := "review_5";
              Db.alert_relationId := "12"; Db.alert_type := NEGATIVE_REVIEW;
              Db.alert_channel := Db.TELEGRAM; Db.alert_messageId := Some "501";
              Db.alert_status := Db.ALERT_PENDING; Db.alert_respondedAt := None |}
           {| Db.defense_id := "row2"; Db.defense_reviewId := "review_5";
              Db.defense_targetKey := "profileId:12"; Db.defense_score := 3;
              Db.defense_comment :=
                "Trusted and reliable community member. I vouch for their credibility.";
              Db.defense_status := Db.PENDING; Db.defense_ethosReviewId := None;
              Db.defense_txHash := None; Db.defense_error := None;
              Db.defense_postedAt := None |}
           Sample.holdingStale);
    vm_compute; reflexivity.
Defined.

(** C5 as stated fails: the watchdog reports the token expired, and both
    operations still call the review-submission operation of the network
    client; the refusal of the network is what the caller gets. *)
Lemma expired_token_still_submits :
  TokenService.isExpired
    (TokenService.getStatus (token Sample.expiredWorld)
                            (clock (Sample.quiet Sample.tokenNow)
                                   (tick Sample.expiredWorld))) = true
  /\ (let '(o, w') := executeDefense (Sample.quiet Sample.tokenNow) "row0" "review_5"
                                     Sample.expiredWorld in
      o = Ok false
      /\ submitted Sample.expiredWorld = []
      /\ submitted w'
         = [("profileId:12", 3,
             "Trusted and reliable community member. I vouch for their credibility.")]
      /\ map Db.defense_error (Db.defenses (db w')) = [Some "Unauthorized"])
  /\ (let '(o, w') := postCustomDefense (Sample.quiet Sample.tokenNow) "profileId:12" 2
                                        "Reliable." None Sample.expiredWorld in
      o = Ok {| EthosService.success := false; EthosService.reviewId := None;
                EthosService.txHash := None;
                EthosService.error := Some "Unauthorized" |}
      /\ submitted w' = [("profileId:12", 2, "Reliable.")]).
Proof. vm_compute. repeat split. Qed.

End DefenseSubmission.

(** ** Failed listings inside a cycle *)

Section ListingInCycle.
Import Js Control Types Config EthosService MonitorService.
Import Notions.

(** The cycle sees of the relationship endpoint only what [getVouches]
    returns. *)
Lemma runMonitorCycle_vouches_only (env : Env) (w : World)
      (answer1 answer2 : Z -> Http) :
  getVouches answer1 (nowIso env) (ethos_userKey (cfg env))
    = getVouches answer2 (nowIso env) (ethos_userKey (cfg env)) ->
  runMonitorCycle (withPostVouches answer1 env) w
    = runMonitorCycle (withPostVouches answer2 env) w.
Proof.
  intros H. unfold runMonitorCycle, enterCycle, finishCycle, cycleBody.
  cbn [postVouches nowIso cfg withPostVouches]. rewrite H. reflexivity.
Qed.

Lemma ingestRelation_activities_only (env : Env) (answer1 answer2 : string -> Http)
      (vouch : EthosVouch) (relationUserkey : string) (profileData : ProfileData) :
  (forall userkey,
     getReceivedActivities answer1 userkey = getReceivedActivities answer2 userkey) ->
  ingestRelation (withPostReceived answer1 env) vouch relationUserkey profileData
    = ingestRelation (withPostReceived answer2 env) vouch relationUserkey profileData.
Proof.
  intros H. unfold ingestRelation. cbn [postReceived withPostReceived].
  rewrite H. reflexivity.
Qed.

Lemma processRelation_activities_only (env : Env) (answer1 answer2 : string -> Http)
      (vouch : EthosVouch) :
  (forall userkey,
     getReceivedActivities answer1 userkey = getReceivedActivities answer2 userkey) ->
  processRelation (withPostReceived answer1 env) vouch
    = processRelation (withPostReceived answer2 env) vouch.
Proof.
  intros H. unfold processRelation, ingestRelation.
  cbn [postReceived withPostReceived]. rewrite H. reflexivity.
Qed.

Lemma cycleBody_activities_only (env : Env) (answer1 answer2 : string -> Http)
      (startTime : Z) (c : Cycle) :
  (forall userkey,
     getReceivedActivities answer1 userkey = getReceivedActivities answer2 userkey) ->
  cycleBody (withPostReceived answer1 env) startTime c
    = cycleBody (withPostReceived answer2 env) startTime c.
Proof.
  intros H. unfold cycleBody.
  cbn [postVouches nowIso cfg asVouch withPostReceived].
  apply bind_cong. intros vouches c1.
  rewrite (forEach_ext (map (asVouch env) vouches)
             (fun vouch =>
                tryCatch (processRelation (withPostReceived answer1 env) vouch)
                         (fun error => bump (pushError (relationError vouch error))))
             (fun vouch =>
                tryCatch (processRelation (withPostReceived answer2 env) vouch)
                         (fun error => bump (pushError (relationError vouch error))))).
  - reflexivity.
  - intros vouch. now rewrite (processRelation_activities_only env answer1 answer2).
Qed.

(** The cycle sees of the activity endpoint only what
    [getReceivedActivities] returns. *)
Lemma runMonitorCycle_activities_only (env : Env) (w : World)
      (answer1 answer2 : string -> Http) :
  (forall userkey,
     getReceivedActivities answer1 userkey = getReceivedActivities answer2 userkey) ->
  runMonitorCycle (withPostReceived answer1 env) w
    = runMonitorCycle (withPostReceived answer2 env) w.
Proof.
  intros H. unfold runMonitorCycle.
  transitivity
    (bind (enterCycle env)
          (fun entry => match entry with
                        | Skip result => ret result
                        | Enter startTime =>
                            finishCycle (withPostReceived answer2 env) startTime
                        end) w).
  - apply bind_cong. intros [result | startTime] w0; [reflexivity |].
    unfold finishCycle.
    apply withResult_cong, bind_cong_l. unfold finally_, tryCatch.
    now rewrite (cycleBody_activities_only env answer1 answer2 _ _ H).
  - reflexivity.
Qed.

(** A cycle that is listed no relation checks nothing and reports no
    error, provided the store takes the log row. *)
Lemma runMonitorCycle_no_vouches (env : Env) (w : World) :
  getVouches (postVouches env) (nowIso env) (ethos_userKey (cfg env)) = Ok [] ->
  isRunning w = false ->
  dbFault env (S (S (S (tick w)))) = false ->
  exists r w',
    runMonitorCycle env w = (Ok r, w')
    /\ errors r = []
    /\ relationsChecked r = 0 /\ reviewsFound r = 0
    /\ newNegative r = 0 /\ alertsSent r = 0
    /\ Db.monitorLogs (db w') = Db.monitorLogs (db w) ++ [logOf r]
    /\ Db.log_errors (logOf r) = None.
Proof.
  intros Hv Hidle Hf.
  unfold runMonitorCycle, enterCycle, finishCycle, withResult, finally_, tryCatch,
    cycleBody.
  rewrite Hv.
  cbv [bind gets ret modify liftOutcome dateNow newDate inWorld bump forEach map query].
  rewrite Hidle.
  cbn [world result tick advance setIsRunning setResult setLastRunAt db clearIsRunning].
  rewrite Hf.
  cbn [world result tick advance setIsRunning setResult setLastRunAt db clearIsRunning
       Db.logMonitorRun].
  eexists. eexists. split; [reflexivity |]. repeat split.
Qed.

(** C10. [getVouches] and [getReceivedActivities] always return a list
    and never raise. They return the empty list when the transport
    throws, when no profile id can be extracted from the user key, and
    for every response body that is not of the expected shape (only an
    object whose [values], or for activities else [activities], is an
    array yields any item). Inside a cycle only the returned list is
    seen: a failed listing gives the same run as an empty one, and a
    cycle that is listed no relation reports no error. *)
Theorem list_operations_fail_empty (env : Env) (w : World) :
  (forall post iso userkey, exists vouches, getVouches post iso userkey = Ok vouches)
  /\ (forall post userkey,
        exists activities, getReceivedActivities post userkey = Ok activities)
  /\ (forall post iso userkey,
        profileIdFalsy (extractProfileId userkey) = true ->
        getVouches post iso userkey = Ok [])
  /\ (forall post iso userkey n status message,
        extractProfileId userkey = PidNum n -> post n = HttpError status message ->
        getVouches post iso userkey = Ok [])
  /\ (forall post iso userkey vouches,
        getVouches post iso userkey = Ok vouches -> vouches <> [] ->
        exists n fields items,
          extractProfileId userkey = PidNum n /\ n <> 0
          /\ post n = HttpOk (VJson (JObj fields))
          /\ lookup "values" fields = VJson (JArr items)
          /\ mapThrowing (convertVouch iso) items = Ok vouches)
  /\ (forall post userkey status message,
        post userkey = HttpError status message ->
        getReceivedActivities post userkey = Ok [])
  /\ (forall post userkey activities,
        getReceivedActivities post userkey = Ok activities -> activities <> [] ->
        exists fields,
          post userkey = HttpOk (VJson (JObj fields))
          /\ (lookup "values" fields = VJson (JArr activities)
              \/ (toBoolean (lookup "values" fields) = false
                  /\ lookup "activities" fields = VJson (JArr activities))))
  /\ (forall failing empty,
        getVouches failing (nowIso env) (ethos_userKey (cfg env)) = Ok [] ->
        getVouches empty (nowIso env) (ethos_userKey (cfg env)) = Ok [] ->
        runMonitorCycle (withPostVouches failing env) w
          = runMonitorCycle (withPostVouches empty env) w)
  /\ (forall failing empty,
        (forall userkey, getReceivedActivities failing userkey = Ok []) ->
        (forall userkey, getReceivedActivities empty userkey = Ok []) ->
        runMonitorCycle (withPostReceived failing env) w
          = runMonitorCycle (withPostReceived empty env) w)
  /\ (getVouches (postVouches env) (nowIso env) (ethos_userKey (cfg env)) = Ok [] ->
      isRunning w = false ->
      dbFault env (S (S (S (tick w)))) = false ->
      exists r w',
        runMonitorCycle env w = (Ok r, w')
        /\ errors r = []
        /\ Db.monitorLogs (db w') = Db.monitorLogs (db w) ++ [logOf r]
        /\ Db.log_errors (logOf r) = None).
Proof.
  split; [intros; apply getVouches_returns |].
  split; [intros; apply getReceivedActivities_returns |].
  split; [intros; now apply getVouches_no_profileId |].
  split; [intros; eapply getVouches_transport_error; eassumption |].
  split; [intros; now apply getVouches_nonempty_shape |].
  split; [intros; eapply getReceivedActivities_transport_error; eassumption |].
  split; [intros; now apply getReceivedActivities_nonempty_shape |].
  split; [intros failing empty H1 H2; apply runMonitorCycle_vouches_only; congruence |].
  split; [intros failing empty H1 H2; apply runMonitorCycle_activities_only;
          intros userkey; now rewrite H1, H2 |].
  intros Hv Hidle Hf.
  destruct (runMonitorCycle_no_vouches env w Hv Hidle Hf)
    as (r & w' & Hrun & He & _ & _ & _ & _ & Hlog & Hle).
  exists r, w'. auto.
Qed.

Lemma list_operations_fail_empty_witness :
  exists r w',
    runMonitorCycle (Sample.unreachable 1000) Sample.world0 = (Ok r, w')
    /\ errors r = []
    /\ Db.monitorLogs (db w') = Db.monitorLogs (db Sample.world0) ++ [logOf r]
    /\ Db.log_errors (logOf r) = None.
Proof.
  destruct (list_operations_fail_empty (Sample.unreachable 1000) Sample.world0)
    as (_ & _ & _ & _ & _ & _ & _ & _ & _ & H).
  apply H; reflexivity.
Defined.

(** A cycle against an API that times out on every call and a cycle
    against an API that lists nothing end in the same result and world. *)
Lemma unreachable_api_looks_empty :
  runMonitorCycle (Sample.unreachable 1000) Sample.world0
    = runMonitorCycle (Sample.quiet 1000) Sample.world0.
Proof. vm_compute. reflexivity. Qed.

(** A cycle that lists one relation and cannot fetch its activities
    checks the relation, finds nothing and reports no error, like a cycle
    whose relation has received nothing. *)
Lemma failed_fetch_adds_no_error :
  let failing :=
    withPostReceived (fun _ => HttpError None "timeout of 30000ms exceeded")
                     (Sample.listing Sample.negativeReview 1000) in
  let nothing :=
    withPostReceived (fun _ => HttpOk (VJson (JObj [("values", JArr [])])))
                     (Sample.listing Sample.negativeReview 1000) in
  runMonitorCycle failing Sample.world0 = runMonitorCycle nothing Sample.world0
  /\ fst (runMonitorCycle failing Sample.world0)
     = Ok {| relationsChecked := 1; reviewsFound := 0; newNegative := 0;
             alertsSent := 0; errors := []; duration := 2 |}.
Proof. vm_compute. split; reflexivity. Qed.

End ListingInCycle.

Section TokenStatusFacts.
Import Js Control TokenService TokenExpiry.

(** The two flags of a status and its verdict. *)
Lemma getStatus_flags (st : State) (nowMs : Z) :
  valid (getStatus st nowMs) = negb (isExpired (getStatus st nowMs))
  /\ (isExpired (getStatus st nowMs) = true ->
      isExpiringSoon (getStatus st nowMs) = true).
Proof.
  unfold getStatus.
  destruct (truthy strTruthy (currentToken st));
    [destruct (tokenPayload st) as [payload |] |]; cbn; auto.
  split; [reflexivity |].
  destruct (exp payload) as [| | e |]; cbn; auto.
  intros H. apply Z.leb_le in H. apply Z.ltb_lt. lia.
Qed.

(** A status that is not expired, by the expiry of the held payload. *)
Lemma getStatus_live (st : State) (nowMs : Z) :
  isExpired (getStatus st nowMs) = false ->
  exists token payload,
    currentToken st = Some token /\ token <> ""
    /\ tokenPayload st = Some payload
    /\ userId (getStatus st nowMs) = sub payload
    /\ match exp payload with
       | Finite e =>
           nowMs / 1000 < e
           /\ expiresIn (getStatus st nowMs) = Some (Finite (e - nowMs / 1000))
           /\ isExpiringSoon (getStatus st nowMs) = (e - nowMs / 1000 <? 3600)
       | Infinity =>
           expiresIn (getStatus st nowMs) = Some Infinity
           /\ isExpiringSoon (getStatus st nowMs) = false
       | NaN =>
           expiresIn (getStatus st nowMs) = Some NaN
           /\ isExpiringSoon (getStatus st nowMs) = false
       | NegInfinity => False
       end.
Proof.
  unfold getStatus.
  destruct (currentToken st) as [token |]; cbn [truthy];
    [destruct (strTruthy token) eqn:Ht |];
    [destruct (tokenPayload st) as [payload |] | |];
    cbn [isExpired]; try discriminate.
  intros H. exists token, payload.
  split; [reflexivity |]. split; [intros ->; discriminate |].
  split; [reflexivity |]. split; [reflexivity |].
  cbn [expiresIn isExpiringSoon].
  destruct (exp payload) as [| | e |]; cbn in H |- *; try discriminate; auto.
  apply Z.leb_gt in H. split; [lia |]. split; [| reflexivity].
  do 2 f_equal. lia.
Qed.

(** X1. The status report is coherent at every clock reading: [valid] is the
    negation of [isExpired], an expired token is also expiring soon, and
    the seconds left are never negative. A valid status comes from a held
    token and the payload held with it, whose subject it reports; the
    expiry of that payload is then not at or before the clock: a number
    of seconds strictly after it, with exactly the difference as seconds
    left, or an expiry that is missing or no number (NaN seconds left) or
    infinite (infinitely many), neither of which counts as expiring
    soon. *)
Theorem getStatus_coherent (st : State) (nowMs : Z) :
  let status := getStatus st nowMs in
  valid status = negb (isExpired status)
  /\ (isExpired status = true -> isExpiringSoon status = true)
  /\ (forall n, expiresIn status = Some (Finite n) -> 0 <= n)
  /\ expiresIn status <> Some NegInfinity
  /\ (valid status = true ->
      exists token payload,
        currentToken st = Some token /\ token <> ""
        /\ tokenPayload st = Some payload
        /\ userId status = sub payload
        /\ match exp payload with
           | Finite e =>
               nowMs / 1000 < e
               /\ expiresIn status = Some (Finite (e - nowMs / 1000))
           | Infinity =>
               expiresIn status = Some Infinity /\ isExpiringSoon status = false
           | NaN =>
               expiresIn status = Some NaN /\ isExpiringSoon status = false
           | NegInfinity => False
           end).
Proof.
  intros status.
  destruct (getStatus_flags st nowMs) as [Hv Hs]. fold status in Hv, Hs.
  split; [exact Hv |]. split; [exact Hs |].
  split; [| split].
  - unfold status, getStatus.
    destruct (truthy strTruthy (currentToken st));
      [destruct (tokenPayload st) as [payload |] |]; cbn; intros n H;
      try discriminate H.
    all: destruct (exp payload) as [| | e |]; cbn in H; try discriminate H.
    all: injection H as <-; lia.
  - unfold status, getStatus.
    destruct (truthy strTruthy (currentToken st));
      [destruct (tokenPayload st) as [payload |] |]; cbn; try discriminate.
    destruct (exp payload) as [| | e |]; cbn; discriminate.
  - intros V. rewrite V in Hv.
    assert (X : isExpired (getStatus st nowMs) = false)
      by (fold status; destruct (isExpired status); [discriminate | reflexivity]).
    destruct (getStatus_live st nowMs X) as (token & payload & Hc & Ht & Hp & Hu & He).
    exists token, payload. fold status in Hu, He.
    repeat (split; [assumption |]).
    destruct (exp payload) as [| | e |]; tauto.
Qed.

End TokenStatusFacts.

Section TokenUpdateFacts.
Import Js Control TokenService TokenExpiry TokenRoute.

Variable jwtDecode : string -> Decoded.

(** An expiry that can be printed is a number of seconds. *)
Lemma printable_expiry (n : Num) :
  dateValid (dateOf (numMul n (Finite 1000))) = true ->
  exists e, n = Finite e /\ dateValid (mkDate (e * 1000)) = true.
Proof. destruct n as [| | e |]; cbn; try discriminate. eauto. Qed.

(** The three ways [updateToken] ends. *)
Lemma updateToken_cases (st : State) (newToken : string) (nowCheck nowStatus : Z) :
  (exists payload e,
     jwtDecode newToken = DecodePayload payload
     /\ exp payload = Finite e
     /\ dateValid (mkDate (e * 1000)) = true
     /\ nowCheck / 1000 < e
     /\ updateToken jwtDecode st newToken nowCheck nowStatus
        = ({| success := true;
              status := getStatus {| currentToken := Some newToken;
                                     tokenPayload := Some payload |} nowStatus;
              error := None |},
           {| currentToken := Some newToken; tokenPayload := Some payload |},
           [EthosSetToken newToken; EnvFileWrite newToken]))
  \/ (exists payload e st',
        jwtDecode newToken = DecodePayload payload
        /\ exp payload = Finite e
        /\ e <= nowCheck / 1000
        /\ currentToken st' = currentToken st
        /\ updateToken jwtDecode st newToken nowCheck nowStatus
           = ({| success := false; status := getStatus st' nowStatus;
                 error := Some "Token is already expired" |}, st', []))
  \/ (exists st',
        (forall payload, jwtDecode newToken = DecodePayload payload ->
                         dateValid (dateOf (numMul (exp payload) (Finite 1000)))
                         = false)
        /\ currentToken st' = currentToken st
        /\ updateToken jwtDecode st newToken nowCheck nowStatus
           = ({| success := false; status := getStatus st' nowStatus;
                 error := Some "Invalid token format" |}, st', [])).
Proof.
  unfold updateToken, decodeToken.
  destruct (jwtDecode newToken) as [e | | payload] eqn:D.
  - right. right. exists st. repeat split. intros p H. discriminate.
  - right. right. exists st. repeat split. intros p H. discriminate.
  - destruct (dateValid (dateOf (numMul (exp payload) (Finite 1000)))) eqn:V.
    + destruct (printable_expiry _ V) as (e & He & Ve). rewrite He. cbn [numLeb].
      destruct (e <=? nowCheck / 1000) eqn:E.
      * right. left. apply Z.leb_le in E.
        exists payload, e, {| currentToken := currentToken st;
                              tokenPayload := Some payload |}.
        repeat split; assumption.
      * left. apply Z.leb_gt in E. exists payload, e. repeat split; assumption.
    + right. right.
      exists {| currentToken := currentToken st; tokenPayload := Some payload |}.
      split; [| split; reflexivity].
      intros p H. injection H as <-. exact V.
Qed.

(** X2. [updateToken] accepts a token exactly when it decodes to a payload
    whose expiry is a number of seconds that can be printed as a date and
    lies strictly after the clock. An accepted token becomes the held one
    and is passed on to the Ethos client and to the .env file, once each;
    a refused token is passed on to neither, the held token string stays,
    and the answer carries an error message. *)
Theorem updateToken_accepts_iff (st : State) (newToken : string)
        (nowCheck nowStatus : Z) :
  let '(result, st', sent) := updateToken jwtDecode st newToken nowCheck nowStatus in
  (success result = true <->
   exists payload e,
     jwtDecode newToken = DecodePayload payload
     /\ exp payload = Finite e
     /\ dateValid (mkDate (e * 1000)) = true
     /\ nowCheck / 1000 < e)
  /\ (success result = true ->
      currentToken st' = Some newToken
      /\ (exists payload, jwtDecode newToken = DecodePayload payload
                          /\ tokenPayload st' = Some payload)
      /\ sent = [EthosSetToken newToken; EnvFileWrite newToken]
      /\ error result = None)
  /\ (success result = false ->
      currentToken st' = currentToken st
      /\ sent = []
      /\ (error result = Some "Invalid token format"
          \/ error result = Some "Token is already expired")).
Proof.
  destruct (updateToken_cases st newToken nowCheck nowStatus)
    as [(payload & e & D & X & V & E & ->)
       | [(payload & e & st' & D & X & E & C & ->) | (st' & V & C & ->)]];
    cbn [success error].
  - split; [split; [intros _; eauto 6 | reflexivity] |].
    split; [intros _; repeat split; eauto | discriminate].
  - split; [split; [discriminate |] |].
    + intros (p & e' & Dp & Xp & _ & Ep). rewrite D in Dp. injection Dp as <-.
      rewrite X in Xp. injection Xp as <-. lia.
    + split; [discriminate | intros _; auto].
  - split; [split; [discriminate |] |].
    + intros (p & e' & Dp & Xp & Vp & _). specialize (V p Dp).
      rewrite Xp in V. cbn in V. rewrite Vp in V. discriminate.
    + split; [discriminate | intros _; auto].
Qed.



End TokenUpdateFacts.

Section TokenExpiryFacts.
Import Js Control TokenService TokenExpiry.

Lemma minutes_range (n : Z) :
  0 <= n -> 0 <= Z.rem n 3600 / 60 <= 59 /\
            3600 * (n / 3600) + 60 * (Z.rem n 3600 / 60) <= n
              < 3600 * (n / 3600) + 60 * (Z.rem n 3600 / 60) + 60.
Proof.
  intros H. rewrite Z.rem_mod_nonneg by lia.
  pose proof (Z.mod_pos_bound n 3600 ltac:(lia)) as Hm.
  pose proof (Z.div_mod n 3600 ltac:(lia)) as Hd.
  pose proof (Z.div_mod (n mod 3600) 60 ltac:(lia)) as Hd2.
  pose proof (Z.mod_pos_bound (n mod 3600) 60 ltac:(lia)) as Hm2.
  lia.
Qed.

(** X4. The periodic check calls the registered callback once, with the
    status, exactly when that status says expiring soon (an expired token
    counts), and logs one line then; a token with an hour or more left
    causes no call and no line. When the check warns about a token that
    has not expired, the time it prints is zero hours and the whole
    minutes left, below sixty. *)
Theorem checkTokenExpiration_calls (st : State) (registered : bool) (nowMs : Z) :
  let status := getStatus st nowMs in
  let '(logs, calls) := checkTokenExpiration st registered nowMs in
  calls = (if registered && isExpiringSoon status then [status] else [])
  /\ (isExpiringSoon status = false -> logs = [])
  /\ (isExpired status = true ->
      logs = [(LogError, "TOKEN EXPIRED! Please update your Privy token.")])
  /\ (isExpired status = false -> isExpiringSoon status = true ->
      exists minutes seconds,
        secondsLeft status = Finite seconds
        /\ 0 <= minutes <= 59
        /\ 60 * minutes <= seconds < 60 * minutes + 60
        /\ logs = [(LogWarn, ("Token expiring soon! 0h " ++ numToString minutes
                              ++ "m remaining.")%string)]).
Proof.
  intros status. unfold checkTokenExpiration. fold status.
  destruct (isExpired status) eqn:X.
  - assert (S : isExpiringSoon status = true).
    { apply (getStatus_flags st nowMs). exact X. }
    rewrite S, andb_true_r. repeat split; try discriminate.
  - destruct (isExpiringSoon status) eqn:S.
    + rewrite andb_true_r. split; [reflexivity |].
      split; [discriminate |]. split; [discriminate |]. intros _ _.
      destruct (getStatus_live st nowMs X) as (token & payload & _ & _ & _ & _ & He).
      fold status in He. rewrite S in He.
      destruct (exp payload) as [| | e |];
        [destruct He; discriminate | destruct He | | destruct He; discriminate].
      destruct He as (Hpos & Hin & Hsoon). symmetry in Hsoon. apply Z.ltb_lt in Hsoon.
      unfold secondsLeft. rewrite Hin. cbn [hoursOf minutesOf numberToString].
      destruct (minutes_range (e - nowMs / 1000)) as [Hm Hb]; [lia |].
      assert (Hh : (e - nowMs / 1000) / 3600 = 0) by (apply Z.div_small; lia).
      rewrite Hh in *.
      exists (Z.rem (e - nowMs / 1000) 3600 / 60), (e - nowMs / 1000).
      split; [reflexivity |]. split; [exact Hm |]. split; [lia | reflexivity].
    + rewrite andb_false_r. repeat split; try discriminate.
Qed.

(** X5. The display line says expired or invalid exactly when the status is
    not valid. Otherwise a payload is held, and when its expiry is a
    number of seconds the line prints the whole hours and the whole
    further minutes, below sixty, of the seconds left until then; for an
    expiry that is missing or no number the line prints zero hours and
    zero minutes, and for an infinite one [Infinityh NaNm]. *)
Theorem formatStatus_reading (st : State) (nowMs : Z) :
  (valid (getStatus st nowMs) = false ->
   formatStatus st nowMs = "Token: EXPIRED or INVALID")
  /\ (valid (getStatus st nowMs) = true ->
      exists payload,
        tokenPayload st = Some payload
        /\ match exp payload with
           | Finite e =>
               exists hours minutes,
                 formatStatus st nowMs
                 = ("Token: Valid (expires in " ++ numToString hours ++ "h "
                    ++ numToString minutes ++ "m)")%string
                 /\ 0 <= hours /\ 0 <= minutes <= 59
                 /\ 3600 * hours + 60 * minutes <= e - nowMs / 1000
                      < 3600 * hours + 60 * minutes + 60
           | NaN => formatStatus st nowMs = "Token: Valid (expires in 0h 0m)"
           | Infinity =>
               formatStatus st nowMs = "Token: Valid (expires in Infinityh NaNm)"
           | NegInfinity => False
           end).
Proof.
  unfold formatStatus. split; intros V; rewrite V; cbn [negb]; [reflexivity |].
  assert (X : isExpired (getStatus st nowMs) = false).
  { destruct (getStatus_flags st nowMs) as [Hv _]. rewrite V in Hv.
    destruct (isExpired (getStatus st nowMs)); [discriminate | reflexivity]. }
  destruct (getStatus_live st nowMs X) as (token & payload & _ & _ & Hp & _ & He).
  exists payload. split; [exact Hp |]. unfold secondsLeft.
  destruct (exp payload) as [| | e |].
  - destruct He as [-> _]. reflexivity.
  - exact He.
  - destruct He as (Hpos & -> & _). cbn [hoursOf minutesOf numberToString].
    destruct (minutes_range (e - nowMs / 1000)) as [Hm Hb]; [lia |].
    exists ((e - nowMs / 1000) / 3600), (Z.rem (e - nowMs / 1000) 3600 / 60).
    split; [reflexivity |]. split; [apply Z.div_pos; lia |]. split; [exact Hm |]. lia.
  - destruct He as [-> _]. reflexivity.
Qed.

End TokenExpiryFacts.

Section UserkeyFacts.
Import Js Control Types EthosService MonitorService Userkeys.

Lemma substring_all (s : string) : String.substring 0 (String.length s) s = s.
Proof. induction s as [| c s IH]; cbn; [reflexivity | now rewrite IH]. Qed.

Lemma substring_skip (p s : string) (n : nat) :
  String.substring (String.length p) n (p ++ s) = String.substring 0 n s.
Proof. induction p as [| c p IH]; cbn; [reflexivity | exact IH]. Qed.

Lemma prefix_append (p s : string) : String.prefix p (p ++ s) = true.
Proof.
  induction p as [| c p IH]; cbn; [now destruct s |].
  destruct (ascii_dec c c) as [_ | N]; [exact IH | now elim N].
Qed.

Lemma length_append (p s : string) :
  String.length (p ++ s) = (String.length p + String.length s)%nat.
Proof. induction p as [| c p IH]; cbn; [reflexivity | now rewrite IH]. Qed.

(** Removing a non-empty prefix with [replace]. *)
Lemma replace_prefix (p s : string) :
  p <> "" -> replace p "" (p ++ s) = s.
Proof.
  intros Hp. unfold replace.
  assert (Hi : String.index 0 p (p ++ s) = Some 0%nat).
  { destruct p as [| c p]; [now elim Hp |].
    change (String c p ++ s)%string with (String c (p ++ s)).
    cbn [String.index].
    change (String c (p ++ s)) with (String c p ++ s)%string.
    now rewrite prefix_append. }
  rewrite Hi. cbn [Nat.add].
  assert (H0 : String.substring 0 0 (p ++ s) = "") by now destruct (p ++ s)%string.
  rewrite H0, length_append.
  replace (String.length p + String.length s - String.length p)%nat
    with (String.length s) by lia.
  rewrite substring_skip. cbn [append]. apply substring_all.
Qed.

Lemma leadingDigits_step (c : ascii) (rest : string) (acc : option Z) (k : Z) :
  isDigit c = true -> digitValue c = k ->
  leadingDigits (String c rest) acc
  = leadingDigits rest (Some (10 * match acc with Some a => a | None => 0 end + k)).
Proof. intros H <-. cbn [leadingDigits]. now rewrite H. Qed.

Lemma leadingDigits_acc (d : Decimal.uint) (acc : positive) :
  leadingDigits (NilEmpty.string_of_uint d) (Some (Z.pos acc))
  = Some (Z.pos (Pos.of_uint_acc d acc)).
Proof.
  revert acc. induction d; intros acc; cbn [NilEmpty.string_of_uint Pos.of_uint_acc];
    [reflexivity | ..];
    erewrite leadingDigits_step by reflexivity;
    rewrite <- IHd; do 2 f_equal;
    match goal with
    | |- context [digitValue ?c] =>
        let v := eval vm_compute in (digitValue c) in
        change (digitValue c) with v
    end; lia.
Qed.

Lemma leadingDigits_zero (d : Decimal.uint) (acc : option Z) :
  acc = None \/ acc = Some 0 -> d <> Decimal.Nil \/ acc = Some 0 ->
  leadingDigits (NilEmpty.string_of_uint d) acc
  = Some (Z.of_N (Pos.of_uint d)).
Proof.
  revert acc. induction d; intros acc Hacc Hd;
    cbn [NilEmpty.string_of_uint Pos.of_uint];
    [destruct Hd as [Hd | ->]; [now elim Hd | reflexivity] | ..];
    erewrite leadingDigits_step by reflexivity;
    match goal with
    | |- context [digitValue ?c] =>
        let v := eval vm_compute in (digitValue c) in
        change (digitValue c) with v
    end;
    [destruct Hacc as [-> | ->]; apply IHd; auto | ..];
    destruct Hacc as [-> | ->]; apply leadingDigits_acc.
Qed.

(** [parseInt] reads back what [String] printed. *)
Lemma parseInt_numToString (n : Z) : parseInt (numToString n) = Some n.
Proof.
  unfold numToString. destruct n as [| p | p]; [reflexivity | |];
    cbn [Z.to_int NilZero.string_of_int];
    pose proof (DecimalPos.Unsigned.of_to p) as Hp;
    assert (Hnil : Pos.to_uint p <> Decimal.Nil)
      by (intros E; rewrite E in Hp; discriminate);
    assert (Hs : NilZero.string_of_uint (Pos.to_uint p)
                 = NilEmpty.string_of_uint (Pos.to_uint p))
      by (destruct (Pos.to_uint p); [now elim Hnil | reflexivity ..]);
    rewrite Hs.
  - assert (Hl := leadingDigits_zero (Pos.to_uint p) None (or_introl eq_refl)
                                     (or_introl Hnil)).
    rewrite Hp in Hl. unfold parseInt.
    destruct (Pos.to_uint p); [now elim Hnil | ..]; exact Hl.
  - unfold parseInt. cbn [trimStart].
    change (isSpace "-") with false. cbv beta iota.
    rewrite (leadingDigits_zero (Pos.to_uint p) None (or_introl eq_refl)
                                (or_introl Hnil)), Hp.
    reflexivity.
Qed.

(** X6. A userkey made by [profileIdToUserkey] is read back by
    [extractProfileId] as the same profile id. Hence [getVouches] on such
    a key asks the API for that profile and no other, except for the
    profile id zero, which it takes for a missing id: it then returns the
    empty list without a request. *)
Theorem extractProfileId_profileIdToUserkey (n : Z) :
  printsPlain n ->
  extractProfileId (profileIdToUserkey n) = PidNum n
  /\ (n = 0 -> forall post iso, getVouches post iso (profileIdToUserkey n) = Ok [])
  /\ (n <> 0 -> forall post post' iso,
        post n = post' n ->
        getVouches post iso (profileIdToUserkey n)
        = getVouches post' iso (profileIdToUserkey n)).
Proof.
  intros _.
  assert (H : extractProfileId (profileIdToUserkey n) = PidNum n).
  { unfold extractProfileId, profileIdToUserkey, startsWith.
    rewrite prefix_append, replace_prefix by discriminate.
    now rewrite parseInt_numToString. }
  split; [exact H |]. split.
  - intros -> post iso. reflexivity.
  - intros Hn post post' iso Hp. unfold getVouches, getVouches_try.
    rewrite H. cbn [profileIdFalsy]. unfold numTruthy.
    destruct (n =? 0) eqn:E; [apply Z.eqb_eq in E; contradiction |].
    cbn [negb]. now rewrite Hp.
Qed.

Lemma extractProfileId_profileIdToUserkey_witness :
  extractProfileId (profileIdToUserkey 7) = PidNum 7
  /\ (7 = 0 -> forall post iso, getVouches post iso (profileIdToUserkey 7) = Ok [])
  /\ (7 <> 0 -> forall post post' iso,
        post 7 = post' 7 ->
        getVouches post iso (profileIdToUserkey 7)
        = getVouches post' iso (profileIdToUserkey 7)).
Proof.
  apply (extractProfileId_profileIdToUserkey 7). vm_compute. reflexivity.
Defined.

(** X7. A userkey made by [addressToUserkey] sends [getProfile] to the wallet
    endpoint with the bare address; whatever failure that lookup ends in,
    the profiles endpoint is asked with the whole key, where a 404 gives
    [null] and any other error is thrown on. The same key in the
    [userkeys] of a vouch gives the cycle the bare address when the vouch
    has no primary address. *)
Theorem getProfile_addressToUserkey
        (getWallet getProfiles : string -> ProfileHttp) (address : string) :
  getProfile getWallet getProfiles (addressToUserkey address)
  = match getWallet address with
    | ProfileOk data => Ok data
    | ProfileError _ _ =>
        match getProfiles (addressToUserkey address) with
        | ProfileOk data => Ok data
        | ProfileError (Some 404) _ => Ok None
        | ProfileError _ message => Throw message
        end
    end
  /\ (forall vouch subjectUser keys,
        vouch_subjectUser vouch = Some subjectUser ->
        truthy strTruthy (su_primaryAddress subjectUser) = false ->
        su_userkeys subjectUser = Some keys ->
        find (startsWith "address:") keys = Some (addressToUserkey address) ->
        pd_address (embeddedProfile vouch) = Some address).
Proof.
  split.
  - unfold getProfile, addressToUserkey, startsWith.
    rewrite prefix_append, replace_prefix by discriminate. reflexivity.
  - intros vouch subjectUser keys Hu Hp Hk Hf. unfold embeddedProfile.
    rewrite Hu, Hk, Hf. cbn [pd_address]. unfold orElse. rewrite Hp.
    unfold addressToUserkey at 1. cbn [append strTruthy].
    unfold addressToUserkey. now rewrite replace_prefix by discriminate.
Qed.

End UserkeyFacts.

Section CycleFrame.
Import Js Control Types Config MonitorService.
Import Notions Accounting.

Variable env : Env.
Variable R : Cycle -> Cycle -> Prop.
Hypothesis R_refl : forall c, R c c.
Hypothesis R_trans : forall c1 c2 c3, R c1 c2 -> R c2 c3 -> R c1 c3.
Hypothesis R_reads :
  forall A (m : M World A), respects sameDb m -> respects R (inWorld m).
Hypothesis R_reviewExists :
  forall activityId, respects R (inWorld (query env (Db.reviewExists activityId))).
Hypothesis R_createReview :
  forall data, respects R (inWorld (query env (Db.createReview data))).
Hypothesis R_getRelationById :
  forall id, respects R (inWorld (query env (Db.getRelationById id))).
Hypothesis R_upsertRelation :
  forall id userkey name address avatarUrl,
    respects R (inWorld (query env (Db.upsertRelation id userkey name address avatarUrl))).
Hypothesis R_createDefense :
  forall reviewId targetKey score comment status,
    respects R (inWorld (query env (Db.createDefense (freshId env) reviewId targetKey
                                                     score comment status))).
Hypothesis R_markReviewAlerted :
  forall id, respects R (inWorld (query env (Db.markReviewAlerted id))).
Hypothesis R_storeAlert :
  forall review relationId payload channel messageId,
    channel = Db.TELEGRAM \/ channel = Db.DISCORD ->
    respects R (storeAlert env review relationId payload channel messageId).
Hypothesis R_incNewNegative : respects R (bump incNewNegative).
Hypothesis R_addReviewsFound : forall n, respects R (bump (addReviewsFound n)).
Hypothesis R_incRelationsChecked : respects R (bump incRelationsChecked).
Hypothesis R_pushError : forall e, respects R (bump (pushError e)).
Hypothesis R_setDuration : forall d, respects R (bump (setDuration d)).
Hypothesis R_logMonitorRun :
  forall data, respects R (inWorld (query env (Db.logMonitorRun data))).

Lemma dispatchAlert_frame activity relationId review relation :
  respects R (dispatchAlert env activity relationId review relation).
Proof.
  unfold dispatchAlert.
  apply (respects_bind _ R_trans);
    [apply R_reads, mathRandom_sameDb | intros rnd].
  destruct (getRandomDefenseMessage _ rnd) as [defense |];
    [| apply (respects_throw _ R_refl)].
  apply (respects_bind _ R_trans); [apply R_reads, newDate_sameDb | intros now].
  apply (respects_bind _ R_trans); [apply R_reads, sendAlert_sameDb | intros results].
  apply (respects_bind _ R_trans); [apply R_storeAlert; auto | intros _].
  apply (respects_bind _ R_trans); [apply R_storeAlert; auto | intros _].
  apply (respects_bind _ R_trans).
  - unfold storeDefense. destruct (autoDefense_enabled (cfg env));
      [destruct (sg_message defense) as [message |] |].
    + apply (respects_bind _ R_trans);
        [apply R_createDefense | intros _; apply (respects_ret _ R_refl)].
    + apply (respects_throw _ R_refl).
    + apply (respects_ret _ R_refl).
  - intros _. apply (respects_bind _ R_trans);
      [apply R_markReviewAlerted | intros _; apply (respects_ret _ R_refl)].
Qed.

Lemma processActivity_frame activity relationId :
  respects R (processActivity env activity relationId).
Proof.
  unfold processActivity.
  apply (respects_bind _ R_trans);
    [apply R_reads, activityIdOf_sameDb | intros activityId].
  apply (respects_bind _ R_trans); [apply R_reviewExists | intros exists_].
  destruct exists_; [apply (respects_ret _ R_refl) |].
  apply (respects_bind _ R_trans);
    [apply R_reads, parseActivityTimestamp_sameDb | intros createdAt].
  apply (respects_bind _ R_trans); [apply R_createReview | intros review].
  destruct (isNegativeOf activity); [| apply (respects_ret _ R_refl)].
  unfold alertNegative.
  apply (respects_bind _ R_trans); [apply R_incNewNegative | intros _].
  apply (respects_bind _ R_trans); [apply R_getRelationById | intros relation].
  destruct relation as [relation |];
    [apply dispatchAlert_frame | apply (respects_ret _ R_refl)].
Qed.

Lemma ingestRelation_frame vouch relationUserkey profileData :
  respects R (ingestRelation env vouch relationUserkey profileData).
Proof.
  unfold ingestRelation.
  destruct (pd_address profileData) as [address |];
    [destruct (strTruthy address) |]; try apply (respects_ret _ R_refl).
  apply (respects_bind _ R_trans); [apply R_upsertRelation | intros _].
  apply (respects_bind _ R_trans);
    [apply (respects_liftOutcome _ R_refl) | intros activities].
  apply (respects_bind _ R_trans); [apply R_addReviewsFound | intros _].
  apply (respects_forEach _ R_refl R_trans). intros activity.
  apply processActivity_frame.
Qed.

(** The body of the loop over the relations, after its first statement
    has counted the relation. *)
Lemma processRelation_frame vouch (c c' : Cycle) (o : Outcome unit) :
  processRelation env vouch c = (o, c') ->
  R (setResult (incRelationsChecked (result c)) c) c'.
Proof.
  unfold processRelation, bind at 1, bump, modify. cbv beta iota.
  match goal with
  | |- ?k ?c1 = _ -> _ => assert (Hk : respects R k); [| intros H; eapply Hk, H]
  end.
  destruct (truthy strTruthy (pd_address (embeddedProfile vouch)));
    [apply ingestRelation_frame |].
  apply (respects_bind _ R_trans);
    [apply (respects_liftOutcome _ R_refl) | intros [profile |]];
    [apply ingestRelation_frame | apply (respects_ret _ R_refl)].
Qed.

Lemma relationLoop_frame (vouches : list EthosVouch) :
  respects R
    (forEach vouches
       (fun vouch =>
          tryCatch (processRelation env vouch)
                   (fun error => bump (pushError (relationError vouch error))))).
Proof.
  apply (respects_forEach _ R_refl R_trans). intros vouch.
  apply (respects_tryCatch _ R_trans); [| intros e; apply R_pushError].
  intros c o c' H. apply processRelation_frame in H.
  eapply R_trans; [| exact H]. eapply R_incRelationsChecked. reflexivity.
Qed.

Lemma setLastRunAt_sameDb (d : Date) : respects sameDb (modify (setLastRunAt d)).
Proof. intros w o w' H. injection H as _ <-. reflexivity. Qed.

Lemma cycleBody_frame (startTime : Z) : respects R (cycleBody env startTime).
Proof.
  unfold cycleBody.
  apply (respects_bind _ R_trans);
    [apply (respects_liftOutcome _ R_refl) | intros vouches].
  apply (respects_bind _ R_trans); [apply relationLoop_frame | intros _].
  apply (respects_bind _ R_trans); [apply R_reads, dateNow_sameDb | intros endTime].
  apply (respects_bind _ R_trans); [apply R_setDuration | intros _].
  apply (respects_bind _ R_trans); [apply R_reads, newDate_sameDb | intros lastRun].
  apply (respects_bind _ R_trans);
    [apply R_reads, setLastRunAt_sameDb | intros _].
  apply (respects_bind _ R_trans); [apply (respects_gets _ R_refl) | intros r].
  apply (respects_bind _ R_trans);
    [apply R_logMonitorRun | intros _; apply (respects_ret _ R_refl)].
Qed.

End CycleFrame.

Section CycleShape.
Import Js Control Types Config MonitorService.
Import Notions Accounting.

(** The rest of a cycle in terms of its body: the result object is
    returned with the note of the outer [catch] if the body threw. *)
Lemma finishCycle_inv (env : Env) (startTime : Z) (w w' : World)
      (o : Outcome MonitorResult) :
  finishCycle env startTime w = (o, w') ->
  exists o1 c1,
    cycleBody env startTime {| world := w; result := freshResult |} = (o1, c1)
    /\ w' = setIsRunning false (world c1)
    /\ o = Ok match o1 with
              | Ok _ => result c1
              | Throw e => pushError ("Cycle failed: " ++ e)%string (result c1)
              end.
Proof.
  unfold finishCycle, bind, withResult, finally_, tryCatch, gets.
  destruct (cycleBody env startTime {| world := w; result := freshResult |})
    as [[[] | e] c1] eqn:E; cbn; intros H; injection H as <- <-;
    eexists _, c1; repeat split.
Qed.

(** A step that respects a relation, inside a sequence. *)
Lemma bind_respects {S A B} (R : S -> S -> Prop) (m : M S A) (k : A -> M S B)
      (s s' : S) (o : Outcome B) :
  respects R m -> bind m k s = (o, s') ->
  (exists a s1, R s s1 /\ m s = (Ok a, s1) /\ k a s1 = (o, s'))
  \/ (R s s' /\ exists e, o = Throw e).
Proof.
  intros Hm H. destruct (bind_inv _ _ _ _ _ H) as [(a & s1 & H1 & H2) | (e & H1 & ->)].
  - left. exists a, s1. split; [eapply Hm, H1 | auto].
  - right. split; [eapply Hm, H1 | eauto].
Qed.

End CycleShape.

(** A query writes only the tables its definition names. *)
Ltac store_frame :=
  intros;
  match goal with
  | H : _ = (_, _) |- _ =>
      unfold Db.upsertRelation, Db.createReview, Db.markReviewAlerted,
        Db.createDefense, Db.createAlert, Db.logMonitorRun, Db.reviewExists,
        Db.getRelationById in H;
      repeat match type of H with
             | context [match ?x with _ => _ end] => destruct x
             end;
      injection H as _ <-; reflexivity
  end.

Section AlertAccounting.
Import Js Control Types Config MonitorService.
Import Notions Accounting.

Lemma sameAlertRows_refl (s : Db.Store) : sameAlertRows s s.
Proof. reflexivity. Qed.

Lemma sameAlertRows_trans (s1 s2 s3 : Db.Store) :
  sameAlertRows s1 s2 -> sameAlertRows s2 s3 -> sameAlertRows s1 s3.
Proof. unfold sameAlertRows. congruence. Qed.

Lemma sameAlertsSent_refl (r : MonitorResult) : sameAlertsSent r r.
Proof. reflexivity. Qed.

Lemma sameAlertsSent_trans (r1 r2 r3 : MonitorResult) :
  sameAlertsSent r1 r2 -> sameAlertsSent r2 r3 -> sameAlertsSent r1 r3.
Proof. unfold sameAlertsSent. congruence. Qed.

Lemma alertsAppended_refl (c : Cycle) : alertsAppended c c.
Proof. exists []. rewrite app_nil_r. cbn. repeat split; [lia | constructor]. Qed.

Lemma alertsAppended_trans (c1 c2 c3 : Cycle) :
  alertsAppended c1 c2 -> alertsAppended c2 c3 -> alertsAppended c1 c3.
Proof.
  intros (rows1 & Ha1 & Hs1 & Hf1) (rows2 & Ha2 & Hs2 & Hf2).
  exists (rows1 ++ rows2). rewrite Ha2, Ha1, app_assoc, Hs2, Hs1, length_app.
  repeat split; [lia | apply Forall_app; auto].
Qed.

(** A step that writes no alert row and leaves the count alone. *)
Lemma alertsAppended_quiet {A} (m : M Cycle A) :
  respects (storeRel sameAlertRows sameAlertsSent) m -> respects alertsAppended m.
Proof.
  intros Hm c o c' H. apply Hm in H as [Ha Hs]. exists [].
  rewrite app_nil_r, Ha, Hs. cbn. repeat split; [lia | constructor].
Qed.

Lemma alertsAppended_query {A} (env : Env) (q : Db.Query A) :
  (forall s o s', q s = (o, s') -> sameAlertRows s s') ->
  respects alertsAppended (inWorld (query env q)).
Proof.
  intros Hq. apply alertsAppended_quiet, storeRel_query;
    auto using sameAlertRows_refl, sameAlertsSent_refl.
Qed.

Lemma alertsAppended_bump (f : MonitorResult -> MonitorResult) :
  (forall r, alertsSent (f r) = alertsSent r) ->
  respects alertsAppended (bump f).
Proof.
  intros Hf. apply alertsAppended_quiet, storeRel_bump;
    auto using sameAlertRows_refl.
Qed.

(** One [if (alertResults.x)] block, whether the store takes the row or
    rejects it. *)
Lemma storeAlert_appends (env : Env) (review : Db.Review) (relationId : string)
      (payload : AlertPayload) (channel : Db.AlertChannel)
      (messageId : option string) :
  channel = Db.TELEGRAM \/ channel = Db.DISCORD ->
  respects alertsAppended
           (storeAlert env review relationId payload channel messageId).
Proof.
  intros Hch c o c'. unfold storeAlert.
  destruct (truthy strTruthy messageId);
    [| intros H; injection H as _ <-; apply alertsAppended_refl].
  intros H. apply bind_inv in H as [(row & c1 & H1 & H) | (e & H1 & _)];
    apply inWorld_inv in H1 as [H1 Hr1];
    apply query_inv in H1 as [(_ & Hw & e0 & He) | (_ & s & Hq & Hw)].
  - discriminate He.
  - unfold Db.createAlert in Hq. injection Hq as Hrow Hs.
    injection H as _ <-. exists [row]. cbn [world result setResult].
    rewrite Hw, <- Hs, <- Hrow, Hr1. cbn. repeat split; auto.
  - exists []. rewrite app_nil_r, Hw, Hr1. cbn. repeat split; [lia | constructor].
  - unfold Db.createAlert in Hq. discriminate.
Qed.

Lemma cycleBody_appends (env : Env) (startTime : Z) :
  respects alertsAppended (cycleBody env startTime).
Proof.
  apply cycleBody_frame;
    try (intros; apply alertsAppended_query; store_frame);
    try (intros; apply alertsAppended_bump; reflexivity).
  - apply alertsAppended_refl.
  - apply alertsAppended_trans.
  - intros A m Hm. apply alertsAppended_quiet, storeRel_reads;
      auto using sameAlertRows_refl, sameAlertsSent_refl.
  - intros. now apply storeAlert_appends.
Qed.

(** X8. Whatever a call of [runMonitorCycle] is fed and however its steps
    fail, the Alert table grows at its end only, and the count of alerts
    sent that the call returns is the number of rows it added; each of
    these rows is pending and is for Telegram or for Discord. *)
Theorem runMonitorCycle_alertsSent_counts_rows
        (env : Env) (w w' : World) (r : MonitorResult) :
  runMonitorCycle env w = (Ok r, w') ->
  exists rows,
    Db.alerts (db w') = Db.alerts (db w) ++ rows
    /\ alertsSent r = Z.of_nat (List.length rows)
    /\ Forall (fun row => Db.alert_status row = Db.ALERT_PENDING
                          /\ (Db.alert_channel row = Db.TELEGRAM
                              \/ Db.alert_channel row = Db.DISCORD)) rows.
Proof.
  intros H. destruct (isRunning w) eqn:Hrun.
  - rewrite runMonitorCycle_skips in H by exact Hrun. injection H as <- <-.
    exists []. rewrite app_nil_r. repeat split. constructor.
  - rewrite runMonitorCycle_idle in H by exact Hrun.
    apply finishCycle_inv in H as (o1 & c1 & Hbody & -> & Hr).
    apply cycleBody_appends in Hbody as (rows & Ha & Hs & Hf).
    exists rows. cbn [world result db setIsRunning advance] in *.
    split; [exact Ha |]. split; [| exact Hf].
    injection Hr as ->. destruct o1; cbn [alertsSent pushError]; rewrite Hs; cbn; lia.
Qed.

Lemma runMonitorCycle_alertsSent_counts_rows_witness :
  exists rows,
    Db.alerts (db (snd Runs.run1)) = Db.alerts (db Sample.world0) ++ rows
    /\ alertsSent (Runs.reported (fst Runs.run1)) = Z.of_nat (List.length rows)
    /\ Forall (fun row => Db.alert_status row = Db.ALERT_PENDING
                          /\ (Db.alert_channel row = Db.TELEGRAM
                              \/ Db.alert_channel row = Db.DISCORD)) rows.
Proof.
  apply (runMonitorCycle_alertsSent_counts_rows
           Runs.env1 Sample.world0 (snd Runs.run1) (Runs.reported (fst Runs.run1)));
    vm_compute; reflexivity.
Defined.

End AlertAccounting.

Section RelationAccounting.
Import Js Control Types Config MonitorService.
Import Notions Accounting.

Lemma anyStore_refl (s : Db.Store) : anyStore s s.
Proof. exact I. Qed.

Lemma anyStore_trans (s1 s2 s3 : Db.Store) :
  anyStore s1 s2 -> anyStore s2 s3 -> anyStore s1 s3.
Proof. intros _ _. exact I. Qed.

Lemma sameChecked_refl (r : MonitorResult) : sameChecked r r.
Proof. split; reflexivity. Qed.

Lemma sameChecked_trans (r1 r2 r3 : MonitorResult) :
  sameChecked r1 r2 -> sameChecked r2 r3 -> sameChecked r1 r3.
Proof. unfold sameChecked. intros [] []. split; congruence. Qed.

Lemma sameLogs_refl (s : Db.Store) : sameLogs s s.
Proof. reflexivity. Qed.

Lemma sameLogs_trans (s1 s2 s3 : Db.Store) :
  sameLogs s1 s2 -> sameLogs s2 s3 -> sameLogs s1 s3.
Proof. unfold sameLogs. congruence. Qed.

Let C := storeRel anyStore sameChecked.
Let C_refl := storeRel_refl _ _ anyStore_refl sameChecked_refl.
Let C_trans := storeRel_trans _ _ anyStore_trans sameChecked_trans.

Lemma checked_reads {A} (m : M World A) :
  respects sameDb m -> respects C (inWorld m).
Proof. apply storeRel_reads; [apply anyStore_refl | apply sameChecked_refl]. Qed.

Lemma checked_query {A} (env : Env) (q : Db.Query A) :
  respects C (inWorld (query env q)).
Proof.
  apply storeRel_query; [apply anyStore_refl | apply sameChecked_refl |].
  intros s o s' _. exact I.
Qed.

Lemma checked_bump (f : MonitorResult -> MonitorResult) :
  (forall r, sameChecked r (f r)) -> respects C (bump f).
Proof. apply storeRel_bump, anyStore_refl. Qed.

(** One relation: it is counted, and what follows in the [try] neither
    counts nor notes an error. *)
Lemma processRelation_checked (env : Env) (vouch : EthosVouch) (c c' : Cycle)
      (o : Outcome unit) :
  processRelation env vouch c = (o, c') ->
  relationsChecked (result c') = relationsChecked (result c) + 1
  /\ errors (result c') = errors (result c).
Proof.
  intros H.
  apply (processRelation_frame env C C_refl C_trans) in H;
    try (intros; apply checked_query);
    try (intros; apply checked_bump; intros r; split; reflexivity).
  - destruct H as [_ [H1 H2]]. cbn in H1, H2. auto.
  - intros A m. apply checked_reads.
  - intros review relationId payload channel messageId _.
    apply (storeAlert_respects env anyStore sameChecked
             anyStore_refl anyStore_trans sameChecked_refl sameChecked_trans).
    + intros. exact I.
    + intros r. split; reflexivity.
Qed.

(** The loop over the relations never throws; it counts every relation
    and notes at most one error for each. *)
Lemma relationLoop_checked (env : Env) (vouches : list EthosVouch) (c c' : Cycle)
      (o : Outcome unit) :
  forEach vouches
    (fun vouch =>
       tryCatch (processRelation env vouch)
                (fun error => bump (pushError (relationError vouch error)))) c
  = (o, c') ->
  o = Ok tt
  /\ relationsChecked (result c')
     = relationsChecked (result c) + Z.of_nat (List.length vouches)
  /\ exists entries,
       errors (result c') = errors (result c) ++ entries
       /\ (List.length entries <= List.length vouches)%nat
       /\ Forall (relationFailure vouches) entries.
Proof.
  revert c. induction vouches as [| vouch rest IH]; intros c H.
  - injection H as <- <-. split; [reflexivity |]. split; [cbn; lia |].
    exists []. rewrite app_nil_r. repeat split; [cbn; lia | constructor].
  - cbn [forEach] in H. unfold bind at 1, tryCatch at 1 in H.
    destruct (processRelation env vouch c) as [[[] | e] c1] eqn:E;
      apply processRelation_checked in E as [Hc He].
    + apply IH in H as (-> & Hc' & entries & He' & Hl & Hf).
      split; [reflexivity |]. split; [rewrite Hc', Hc; cbn [List.length]; lia |].
      exists entries. rewrite He', He. split; [reflexivity |].
      split; [cbn [List.length]; lia |].
      eapply Forall_impl; [| exact Hf].
      intros entry (v & msg & Hin & ->). exists v, msg. split; [now right | reflexivity].
    + unfold bump, modify in H. cbv beta iota in H.
      apply IH in H as (-> & Hc' & entries & He' & Hl & Hf).
      cbn [result setResult pushError relationsChecked errors] in Hc', He'.
      split; [reflexivity |]. split; [rewrite Hc', Hc; cbn [List.length]; lia |].
      exists (relationError vouch e :: entries).
      rewrite He', He, <- app_assoc. split; [reflexivity |].
      split; [cbn [List.length]; lia |].
      constructor.
      * exists vouch, e. split; [now left | reflexivity].
      * eapply Forall_impl; [| exact Hf].
        intros entry (v & msg & Hin & ->). exists v, msg.
        split; [now right | reflexivity].
Qed.

Let L := storeRel sameLogs anyResult.
Let L_refl := storeRel_refl _ _ sameLogs_refl anyResult_refl.
Let L_trans := storeRel_trans _ _ sameLogs_trans anyResult_trans.

Lemma logs_reads {A} (m : M World A) :
  respects sameDb m -> respects L (inWorld m).
Proof. apply storeRel_reads; [apply sameLogs_refl | apply anyResult_refl]. Qed.

Lemma logs_query {A} (env : Env) (q : Db.Query A) :
  (forall s o s', q s = (o, s') -> sameLogs s s') ->
  respects L (inWorld (query env q)).
Proof. apply storeRel_query; [apply sameLogs_refl | apply anyResult_refl]. Qed.

Lemma logs_bump (f : MonitorResult -> MonitorResult) : respects L (bump f).
Proof.
  apply storeRel_bump; [apply sameLogs_refl | intros r; exact I].
Qed.

Lemma relationLoop_logs (env : Env) (vouches : list EthosVouch) :
  respects L
    (forEach vouches
       (fun vouch =>
          tryCatch (processRelation env vouch)
                   (fun error => bump (pushError (relationError vouch error))))).
Proof.
  apply (relationLoop_frame env L L_refl L_trans);
    try (intros; apply logs_query; store_frame);
    try (intros; apply logs_bump).
  - intros A m. apply logs_reads.
  - intros review relationId payload channel messageId _.
    apply (storeAlert_respects env sameLogs anyResult
             sameLogs_refl sameLogs_trans anyResult_refl anyResult_trans).
    + store_frame.
    + intros r. exact I.
Qed.

(** The body of the outer [try], step by step: the loop returns; the
    steps before the log row leave the counts of relations and the errors
    alone and write no log row; the body throws only if the store
    rejects the log row. *)
Lemma cycleBody_inv (env : Env) (startTime : Z) (c c' : Cycle) (o : Outcome unit) :
  cycleBody env startTime c = (o, c') ->
  forall vouches,
    EthosService.getVouches (postVouches env) (nowIso env) (ethos_userKey (cfg env))
    = Ok vouches ->
    relationsChecked (result c')
    = relationsChecked (result c) + Z.of_nat (List.length vouches)
    /\ (exists entries,
          errors (result c') = errors (result c) ++ entries
          /\ (List.length entries <= List.length vouches)%nat
          /\ Forall (relationFailure (map (asVouch env) vouches)) entries)
    /\ ((o = Ok tt
         /\ Db.monitorLogs (db (world c'))
            = Db.monitorLogs (db (world c)) ++ [logOf (result c')])
        \/ ((exists e, o = Throw e)
            /\ Db.monitorLogs (db (world c')) = Db.monitorLogs (db (world c)))).
Proof.
  intros H vouches Hv. unfold cycleBody in H. rewrite Hv in H.
  unfold bind at 1, liftOutcome at 1 in H.
  apply bind_inv in H as [([] & c1 & H1 & H) | (e & H1 & _)].
  2: { apply relationLoop_checked in H1 as [H1 _]. discriminate. }
  pose proof (relationLoop_logs env _ _ _ _ H1) as [Hl1 _].
  apply relationLoop_checked in H1 as (_ & Hc1 & entries & He1 & Hn1 & Hf1).
  rewrite length_map in Hc1, Hn1.
  assert (Hstay : forall c2 : Cycle,
             C c1 c2 ->
             relationsChecked (result c2)
             = relationsChecked (result c) + Z.of_nat (List.length vouches)
             /\ exists entries,
                  errors (result c2) = errors (result c) ++ entries
                  /\ (List.length entries <= List.length vouches)%nat
                  /\ Forall (relationFailure (map (asVouch env) vouches)) entries).
  { intros c2 [_ [Hc He]]. rewrite Hc, He. split; [exact Hc1 | eauto]. }
  assert (Hframe : forall c2 : Cycle, C c1 c2 -> L c1 c2 ->
             Db.monitorLogs (db (world c2)) = Db.monitorLogs (db (world c))).
  { intros c2 _ [Hl _]. unfold sameLogs in *. congruence. }
  assert (Hboth : forall A (m : M Cycle A), respects C m -> respects L m ->
             respects (fun a b => C a b /\ L a b) m).
  { intros A m Hc Hl a o' b Hm. split; [eapply Hc, Hm | eapply Hl, Hm]. }
  assert (Hreads : forall A (m : M World A), respects sameDb m ->
             respects (fun a b => C a b /\ L a b) (inWorld m)).
  { intros A m Hm. apply Hboth; [apply checked_reads | apply logs_reads]; exact Hm. }
  assert (Hbump : forall d, respects (fun a b => C a b /\ L a b) (bump (setDuration d))).
  { intros d. apply Hboth; [apply checked_bump | apply logs_bump].
    intros r. split; reflexivity. }
  assert (Htrans : forall a b d : Cycle,
             C a b /\ L a b -> C b d /\ L b d -> C a d /\ L a d).
  { intros a b d [] []. split; [eapply C_trans | eapply L_trans]; eassumption. }
  assert (Hstop : forall e, C c1 c' /\ L c1 c' -> o = Throw e ->
             relationsChecked (result c')
             = relationsChecked (result c) + Z.of_nat (List.length vouches)
             /\ (exists entries,
                   errors (result c') = errors (result c) ++ entries
                   /\ (List.length entries <= List.length vouches)%nat
                   /\ Forall (relationFailure (map (asVouch env) vouches)) entries)
             /\ ((o = Ok tt
                  /\ Db.monitorLogs (db (world c'))
                     = Db.monitorLogs (db (world c)) ++ [logOf (result c')])
                 \/ ((exists e, o = Throw e)
                     /\ Db.monitorLogs (db (world c'))
                        = Db.monitorLogs (db (world c))))).
  { intros e [Hc Hl] ->. destruct (Hstay c' Hc) as [Ha Hb].
    split; [exact Ha |]. split; [exact Hb |]. right. split; [eauto |].
    apply Hframe; assumption. }
  assert (R11 : C c1 c1 /\ L c1 c1) by (split; [apply C_refl | apply L_refl]).
  apply (bind_respects _ _ _ _ _ _ (Hreads _ _ (dateNow_sameDb env))) in H
    as [(endTime & c2 & R2 & _ & H) | (R2 & e & He)];
    [| eapply Hstop; eauto].
  apply (bind_respects _ _ _ _ _ _ (Hbump _)) in H
    as [([] & c3 & R3 & _ & H) | (R3 & e & He)];
    [| eapply Hstop; eauto].
  pose proof (Htrans _ _ _ R2 R3) as R13.
  apply (bind_respects _ _ _ _ _ _ (Hreads _ _ (newDate_sameDb env))) in H
    as [(lastRun & c4 & R4 & _ & H) | (R4 & e & He)];
    [| eapply Hstop; eauto].
  pose proof (Htrans _ _ _ R13 R4) as R14.
  apply (bind_respects _ _ _ _ _ _ (Hreads _ _ (setLastRunAt_sameDb lastRun))) in H
    as [([] & c5 & R5 & _ & H) | (R5 & e & He)];
    [| eapply Hstop; eauto].
  pose proof (Htrans _ _ _ R14 R5) as R15.
  unfold bind at 1, gets at 1 in H.
  apply bind_inv in H as [(row & c6 & H6 & H) | (e & H6 & ->)];
    apply inWorld_inv in H6 as [H6 Hr6];
    apply query_inv in H6 as [(_ & Hw & e0 & He0) | (_ & s & Hq & Hw)];
    try discriminate.
  - injection H as <- <-. unfold Db.logMonitorRun in Hq. injection Hq as _ <-.
    destruct R15 as [Hc Hl]. destruct (Hstay c5 Hc) as [Ha Hb].
    rewrite Hr6. split; [exact Ha |]. split; [exact Hb |]. left.
    split; [reflexivity |]. rewrite Hw. cbn [db advance setDb Db.monitorLogs].
    now rewrite (Hframe c5 Hc Hl).
  - destruct R15 as [Hc Hl]. destruct (Hstay c5 Hc) as [Ha Hb].
    rewrite Hr6. split; [exact Ha |]. split; [exact Hb |]. right.
    split; [eauto |]. rewrite Hw. cbn [db advance]. apply Hframe; assumption.
Qed.

(** X9. A call of [runMonitorCycle] that finds the flag down counts every
    relation that [getVouches] listed, whatever happens while each is
    processed. The errors it reports are at most one per relation, each
    made by the [catch] of the loop for one of the listed relations,
    followed by at most one note of the outer [catch]. *)
Theorem runMonitorCycle_counts_relations
        (env : Env) (w w' : World) (r : MonitorResult)
        (vouches : list EthosService.VouchObject) :
  isRunning w = false ->
  runMonitorCycle env w = (Ok r, w') ->
  EthosService.getVouches (postVouches env) (nowIso env) (ethos_userKey (cfg env))
  = Ok vouches ->
  relationsChecked r = Z.of_nat (List.length vouches)
  /\ exists entries tail,
       errors r = entries ++ tail
       /\ (List.length entries <= List.length vouches)%nat
       /\ Forall (relationFailure (map (asVouch env) vouches)) entries
       /\ (tail = [] \/ exists e, tail = [("Cycle failed: " ++ e)%string]).
Proof.
  intros Hrun H Hv. rewrite runMonitorCycle_idle in H by exact Hrun.
  apply finishCycle_inv in H as (o1 & c1 & Hbody & _ & Hr).
  destruct (cycleBody_inv _ _ _ _ _ Hbody vouches Hv)
    as (Hc & (entries & He & Hn & Hf) & _).
  cbn [result relationsChecked errors freshResult app] in Hc, He.
  injection Hr as ->. destruct o1 as [[] | e].
  - split; [exact Hc |]. exists entries, []. rewrite app_nil_r. auto.
  - cbn [pushError relationsChecked errors]. split; [exact Hc |].
    exists entries, [("Cycle failed: " ++ e)%string]. rewrite He.
    repeat split; eauto.
Qed.

Lemma runMonitorCycle_counts_relations_witness :
  relationsChecked (Runs.reported (fst Runs.run1))
  = Z.of_nat (List.length (Runs.listed Runs.env1))
  /\ exists entries tail,
       errors (Runs.reported (fst Runs.run1)) = entries ++ tail
       /\ (List.length entries <= List.length (Runs.listed Runs.env1))%nat
       /\ Forall (relationFailure (map (asVouch Runs.env1) (Runs.listed Runs.env1)))
                 entries
       /\ (tail = [] \/ exists e, tail = [("Cycle failed: " ++ e)%string]).
Proof.
  apply (runMonitorCycle_counts_relations
           Runs.env1 Sample.world0 (snd Runs.run1) (Runs.reported (fst Runs.run1))
           (Runs.listed Runs.env1));
    vm_compute; reflexivity.
Defined.

(** X10. A call of [runMonitorCycle] that finds the flag down either appends
    one row to the log of runs, carrying exactly the counts, the joined
    errors and the duration of the result it returns, or appends none and
    returns a result whose last error is the note of the outer [catch]. *)
Theorem runMonitorCycle_logs_its_result
        (env : Env) (w w' : World) (r : MonitorResult) :
  isRunning w = false ->
  runMonitorCycle env w = (Ok r, w') ->
  Db.monitorLogs (db w') = Db.monitorLogs (db w) ++ [logOf r]
  \/ (Db.monitorLogs (db w') = Db.monitorLogs (db w)
      /\ exists entries e, errors r = entries ++ [("Cycle failed: " ++ e)%string]).
Proof.
  intros Hrun H. rewrite runMonitorCycle_idle in H by exact Hrun.
  apply finishCycle_inv in H as (o1 & c1 & Hbody & -> & Hr).
  destruct (EthosService.getVouches (postVouches env) (nowIso env)
                                    (ethos_userKey (cfg env))) as [vouches | e] eqn:Hv.
  2: { unfold EthosService.getVouches in Hv.
       destruct (EthosService.getVouches_try _ _ _); discriminate. }
  destruct (cycleBody_inv _ _ _ _ _ Hbody vouches Hv)
    as (_ & (entries & He & _) & [[-> Hl] | [[e ->] Hl]]);
    injection Hr as ->; cbn [world db advance setIsRunning] in *.
  - left. exact Hl.
  - right. split; [exact Hl |]. exists (errors (result c1)), e. reflexivity.
Qed.

Lemma runMonitorCycle_logs_its_result_witness :
  Db.monitorLogs (db (snd Runs.run1))
  = Db.monitorLogs (db Sample.world0) ++ [logOf (Runs.reported (fst Runs.run1))]
  \/ (Db.monitorLogs (db (snd Runs.run1)) = Db.monitorLogs (db Sample.world0)
      /\ exists entries e,
           errors (Runs.reported (fst Runs.run1))
           = entries ++ [("Cycle failed: " ++ e)%string]).
Proof.
  apply (runMonitorCycle_logs_its_result
           Runs.env1 Sample.world0 (snd Runs.run1) (Runs.reported (fst Runs.run1)));
    vm_compute; reflexivity.
Defined.

End RelationAccounting.

Section UpdateFacts.
Import Js Control Types Config MonitorService.
Import Notions DefenseNotions.

(** [update] rewrites the first row that has the key and no other. *)
Lemma updateFirst_spec {A} (p : A -> bool) (g : A -> A) (rows rows' : list A) (r : A) :
  Db.updateFirst p g rows = Some (r, rows') ->
  exists pre a post,
    rows = pre ++ a :: post
    /\ (forall x, In x pre -> p x = false)
    /\ p a = true /\ r = g a /\ rows' = pre ++ g a :: post.
Proof.
  revert r rows'. induction rows as [| x rest IH]; intros r rows' H; cbn in H;
    [discriminate |].
  destruct (p x) eqn:Hp.
  - injection H as <- <-. exists [], x, rest. cbn. repeat split; auto.
    intros y [].
  - destruct (Db.updateFirst p g rest) as [[r1 rest1] |]; [| discriminate].
    injection H as <- <-.
    destruct (IH _ _ eq_refl) as (pre & a & post & -> & Hpre & Ha & -> & ->).
    exists (x :: pre), a, post. cbn. repeat split; auto.
    intros y [<- | Hy]; auto.
Qed.

Lemma updateFirst_None {A} (p : A -> bool) (g : A -> A) (rows : list A) :
  Db.updateFirst p g rows = None <-> find p rows = None.
Proof.
  induction rows as [| x rest IH]; cbn; [tauto |].
  destruct (p x); [split; discriminate |].
  destruct (Db.updateFirst p g rest) as [[r1 rest1] |].
  - split; [discriminate |]. intros H. apply IH in H. discriminate.
  - split; [intros _; now apply IH | reflexivity].
Qed.

Lemma find_first {A} (p : A -> bool) (pre post : list A) (a : A) :
  (forall x, In x pre -> p x = false) -> p a = true ->
  find p (pre ++ a :: post) = Some a.
Proof.
  intros Hpre Ha. induction pre as [| x pre IH]; cbn; [now rewrite Ha |].
  rewrite (Hpre x) by now left. apply IH. intros y Hy. apply Hpre. now right.
Qed.

Lemma find_none_all {A} (p : A -> bool) (rows : list A) :
  (forall x, In x rows -> p x = false) -> find p rows = None.
Proof.
  intros H. induction rows as [| x rest IH]; cbn; [reflexivity |].
  rewrite (H x) by now left. apply IH. intros y Hy. apply H. now right.
Qed.

End UpdateFacts.

Section DefenseExecution.
Import Js Control Types Config MonitorService.
Import Notions DefenseNotions.

(** A status write of a defense: it submits nothing; it either fails and
    leaves the store as it was, or is the store's update. *)
Lemma updateDefenseStatus_run (env : Env) (id : string) (status : Db.DefenseStatus)
      (extra : Db.DefenseExtra) (w w' : World) (o : Outcome Db.Defense) :
  updateDefenseStatus env id status extra w = (o, w') ->
  submitted w' = submitted w
  /\ ((exists e, o = Throw e /\ db w' = db w)
      \/ (exists d now,
            o = Ok d
            /\ Db.updateDefenseStatus id status extra now (db w) = (Ok d, db w')
            /\ (status <> Db.POSTED -> now = mkDate 0))).
Proof.
  intros H. split; [eapply updateDefenseStatus_sameSubmitted, H |].
  assert (Hq : forall now w0 w1,
             db w0 = db w ->
             query env (Db.updateDefenseStatus id status extra now) w0 = (o, w1) ->
             (exists e, o = Throw e /\ db w1 = db w)
             \/ (exists d, o = Ok d
                           /\ Db.updateDefenseStatus id status extra now (db w)
                              = (Ok d, db w1))).
  { intros now w0 w1 Hdb Hq.
    apply query_inv in Hq as [(_ & -> & e & ->) | (_ & s & Hs & ->)].
    - left. exists e. split; [reflexivity | exact Hdb].
    - rewrite Hdb in Hs. destruct o as [d | e].
      + right. exists d. split; [reflexivity | exact Hs].
      + left. exists e. split; [reflexivity |]. cbn.
        unfold Db.updateDefenseStatus in Hs.
        destruct (Db.updateFirst _ _ (Db.defenses (db w))) as [[d rows] |];
          [discriminate | now injection Hs as _ <-]. }
  unfold updateDefenseStatus in H. destruct status.
  - destruct (Hq _ _ _ eq_refl H) as [? | (d & -> & Hd)]; [now left |].
    right. exists d, (mkDate 0). auto.
  - destruct (Hq _ _ _ eq_refl H) as [? | (d & -> & Hd)]; [now left |].
    right. exists d, (mkDate 0). auto.
  - unfold bind at 1, newDate, bind, dateNow, ret in H.
    destruct (Hq _ (advance w) _ eq_refl H) as [? | (d & -> & Hd)]; [now left |].
    right. exists d, (mkDate (clock env (tick w))). split; [reflexivity |].
    split; [exact Hd | intros N; now elim N].
  - destruct (Hq _ _ _ eq_refl H) as [? | (d & -> & Hd)]; [now left |].
    right. exists d, (mkDate 0). auto.
Qed.

Lemma updateAlertStatus_run (env : Env) (id : string) (status : Db.AlertStatus)
      (w w' : World) (o : Outcome Db.Alert) :
  updateAlertStatus env id status w = (o, w') ->
  submitted w' = submitted w
  /\ ((exists e, o = Throw e /\ db w' = db w)
      \/ (exists a now,
            o = Ok a /\ Db.updateAlertStatus id status now (db w) = (Ok a, db w'))).
Proof.
  intros H. split; [eapply updateAlertStatus_sameSubmitted, H |].
  unfold updateAlertStatus, bind at 1, newDate, bind, dateNow, ret in H.
  apply query_inv in H as [(_ & -> & e & ->) | (_ & s & Hs & ->)].
  - left. exists e. split; reflexivity.
  - cbn [db advance] in Hs. destruct o as [a | e].
    + right. exists a, (mkDate (clock env (tick w))). split; [reflexivity | exact Hs].
    + left. exists e. split; [reflexivity |]. cbn.
      unfold Db.updateAlertStatus in Hs.
      destruct (Db.updateFirst _ _ (Db.alerts (db w))) as [[a rows] |];
        [discriminate | now injection Hs as _ <-].
Qed.

(** A read of the store from a method. *)
Lemma query_read {A} (env : Env) (q : Db.Query A) (f : Db.Store -> A)
      (w w' : World) (o : Outcome A) :
  (forall s, q s = (Ok (f s), s)) ->
  query env q w = (o, w') ->
  db w' = db w /\ submitted w' = submitted w
  /\ ((exists e, o = Throw e) \/ o = Ok (f (db w))).
Proof.
  intros Hq H. pose proof (query_sameSubmitted env q _ _ _ H) as Hsub.
  apply query_inv in H as [(_ & -> & e & ->) | (_ & s & Hs & ->)].
  - split; [reflexivity |]. split; [exact Hsub | left; eauto].
  - rewrite Hq in Hs. injection Hs as <- <-.
    split; [reflexivity |]. split; [exact Hsub | right; reflexivity].
Qed.

(** What a call of [executeDefense] that returns [true] has done. *)
Lemma executeDefense_inv (env : Env) (alertId reviewId : string) (w w' : World) :
  executeDefense env alertId reviewId w = (Ok true, w') ->
  exists alert defense postedAt respondedAt,
    find (fun a => String.eqb (Db.alert_id a) alertId) (Db.alerts (db w)) = Some alert
    /\ find (pendingFor reviewId) (Db.defenses (db w)) = Some defense
    /\ EthosService.success
         (EthosService.postReview (postReviews env) (Db.defense_targetKey defense)
            (Db.defense_score defense) (Db.defense_comment defense)) = true
    /\ submitted w'
       = submitted w ++ [(Db.defense_targetKey defense, Db.defense_score defense,
                          Db.defense_comment defense)]
    /\ confirmedThen (db w) (Db.defense_id defense) alertId
         {| Db.extra_ethosReviewId :=
              EthosService.reviewId
                (EthosService.postReview (postReviews env)
                   (Db.defense_targetKey defense) (Db.defense_score defense)
                   (Db.defense_comment defense));
            Db.extra_txHash :=
              EthosService.txHash
                (EthosService.postReview (postReviews env)
                   (Db.defense_targetKey defense) (Db.defense_score defense)
                   (Db.defense_comment defense));
            Db.extra_error := None |}
         postedAt respondedAt (db w').
Proof.
  unfold executeDefense, tryCatch.
  match goal with
  | |- (let '(_, _) := ?m w in _) = _ -> _ => destruct (m w) as [[b | e] w0] eqn:E
  | |- match ?m w with _ => _ end = _ -> _ => destruct (m w) as [[b | e] w0] eqn:E
  end; intros H; [| discriminate].
  injection H as -> ->.
  apply bind_Ok in E as (alert & w1 & H1 & E).
  apply (query_read env _ (fun s => find (fun a => String.eqb (Db.alert_id a) alertId)
                                         (Db.alerts s))) in H1
    as (Hd1 & Hs1 & [[e He] | Ha]); [discriminate He | | reflexivity].
  injection Ha as ->.
  destruct (find _ (Db.alerts (db w))) as [alert |] eqn:Halert; [| discriminate].
  apply bind_Ok in E as (pending & w2 & H2 & E).
  apply (query_read env _ (fun s => find (pendingFor reviewId) (Db.defenses s))) in H2
    as (Hd2 & Hs2 & [[e He] | Hp]); [discriminate He | | reflexivity].
  injection Hp as ->. rewrite Hd1 in E.
  destruct (find (pendingFor reviewId) (Db.defenses (db w))) as [defense |] eqn:Hdef;
    [| discriminate].
  apply bind_Ok in E as (d1 & w3 & H3 & E).
  apply updateDefenseStatus_run in H3
    as (Hs3 & [(e & He & _) | (d1' & now1 & Hd1' & Hq3 & Hn1)]); [discriminate |].
  injection Hd1' as <-. rewrite (Hn1 ltac:(discriminate)) in Hq3.
  unfold bind at 1, postReview at 1 in E.
  set (result := EthosService.postReview _ _ _ _) in *.
  destruct (EthosService.success result) eqn:Hok.
  2: { apply bind_Ok in E as (d & w5 & _ & E). discriminate. }
  apply bind_Ok in E as (d2 & w5 & H5 & E).
  apply updateDefenseStatus_run in H5
    as (Hs5 & [(e & He & _) | (d2' & now2 & Hd2' & Hq5 & _)]); [discriminate |].
  injection Hd2' as <-.
  apply bind_Ok in E as (a & w6 & H6 & E).
  apply updateAlertStatus_run in H6
    as (Hs6 & [(e & He & _) | (a' & now3 & Ha' & Hq6)]); [discriminate |].
  injection Ha' as <-. injection E as <-.
  exists alert, defense, now2, now3.
  split; [reflexivity |]. split; [reflexivity |]. split; [exact Hok |].
  split.
  - rewrite Hs6, Hs5. cbn [submitted addSubmitted]. now rewrite Hs3, Hs2, Hs1.
  - exists d1, (db w3), d2, (db w5), a.
    cbn [db addSubmitted] in Hq5. rewrite Hd2, Hd1 in Hq3.
    split; [exact Hq3 |]. split; [exact Hq5 | exact Hq6].
Qed.

(** A call of [executeDefense] for which the alert or an active defense
    is not on record. *)
Lemma executeDefense_no_record (env : Env) (alertId reviewId : string) (w : World) :
  find (fun a => String.eqb (Db.alert_id a) alertId) (Db.alerts (db w)) = None
  \/ find (pendingFor reviewId) (Db.defenses (db w)) = None ->
  exists w',
    executeDefense env alertId reviewId w = (Ok false, w')
    /\ db w' = db w /\ submitted w' = submitted w.
Proof.
  intros Hnone. unfold executeDefense, tryCatch.
  match goal with
  | |- context [match ?m w with _ => _ end] =>
      destruct (m w) as [o w0] eqn:E;
      assert (Hgoal : (o = Ok false \/ exists e, o = Throw e)
                      /\ db w0 = db w /\ submitted w0 = submitted w)
  end.
  { apply bind_inv in E as [(alert & w1 & H1 & E) | (e & H1 & ->)];
      apply (query_read env _
               (fun s => find (fun a => String.eqb (Db.alert_id a) alertId)
                              (Db.alerts s))) in H1
        as (Hd1 & Hs1 & Ha); try reflexivity.
    2: { split; [right; eauto | auto]. }
    destruct Ha as [[e He] | Ha]; [discriminate He |]. injection Ha as ->.
    destruct (find _ (Db.alerts (db w))) as [alert |] eqn:Halert.
    - destruct Hnone as [Hnone | Hnone]; [discriminate |].
      apply bind_inv in E as [(pending & w2 & H2 & E) | (e & H2 & ->)];
        apply (query_read env _ (fun s => find (pendingFor reviewId) (Db.defenses s)))
          in H2 as (Hd2 & Hs2 & Hp); try reflexivity.
      2: { split; [right; eauto | split; congruence]. }
      destruct Hp as [[e He] | Hp]; [discriminate He |]. injection Hp as ->.
      rewrite Hd1, Hnone in E. injection E as <- <-.
      split; [now left | split; congruence].
    - injection E as <- <-. split; [now left | auto]. }
  destruct Hgoal as ([-> | [e ->]] & Hd & Hs); exists w0; auto.
Qed.

Lemma NoDup_map_mid {A B} (f : A -> B) (pre post : list A) (a x : A) :
  NoDup (map f (pre ++ a :: post)) -> In x (pre ++ post) -> f x <> f a.
Proof.
  rewrite map_app. cbn [map]. intros H Hin Heq.
  apply NoDup_remove_2 in H. apply H. rewrite <- Heq, <- map_app.
  now apply in_map.
Qed.

(** The store after the three writes of a confirmed defense. *)
Lemma confirmedThen_effects (s s' : Db.Store) (defenseId alertId : string)
      (extra : Db.DefenseExtra) (postedAt respondedAt : Date) :
  confirmedThen s defenseId alertId extra postedAt respondedAt s' ->
  (exists d,
     find (fun d => String.eqb (Db.defense_id d) defenseId) (Db.defenses s') = Some d
     /\ Db.defense_status d = Db.POSTED
     /\ Db.defense_postedAt d = Some postedAt
     /\ (forall x, Db.extra_ethosReviewId extra = Some x ->
                   Db.defense_ethosReviewId d = Some x))
  /\ (exists a,
        find (fun a => String.eqb (Db.alert_id a) alertId) (Db.alerts s') = Some a
        /\ Db.alert_status a = Db.ALERT_CONFIRMED
        /\ Db.alert_respondedAt a = Some respondedAt)
  /\ Db.relations s' = Db.relations s /\ Db.reviews s' = Db.reviews s
  /\ map Db.defense_id (Db.defenses s') = map Db.defense_id (Db.defenses s)
  /\ map Db.alert_id (Db.alerts s') = map Db.alert_id (Db.alerts s)
  /\ (NoDup (map Db.defense_id (Db.defenses s)) ->
      forall reviewId,
        (forall d1 d2, In d1 (Db.defenses s) -> In d2 (Db.defenses s) ->
                       pendingFor reviewId d1 = true -> pendingFor reviewId d2 = true ->
                       d1 = d2) ->
        (exists d, In d (Db.defenses s) /\ Db.defense_id d = defenseId
                   /\ pendingFor reviewId d = true) ->
        find (pendingFor reviewId) (Db.defenses s') = None).
Proof.
  intros (d1 & s1 & d2 & s2 & a & H1 & H2 & H3).
  unfold Db.updateDefenseStatus in H1, H2. unfold Db.updateAlertStatus in H3.
  destruct (Db.updateFirst _ _ (Db.defenses s)) as [[r1 rows1] |] eqn:U1;
    [| discriminate].
  injection H1 as <- <-. cbn [Db.defenses Db.alerts] in *.
  destruct (Db.updateFirst _ _ rows1) as [[r2 rows2] |] eqn:U2; [| discriminate].
  injection H2 as <- <-. cbn [Db.defenses Db.alerts] in *.
  destruct (Db.updateFirst _ _ (Db.alerts s)) as [[r3 rows3] |] eqn:U3;
    [| discriminate].
  injection H3 as <- <-. cbn [Db.defenses Db.alerts Db.relations Db.reviews].
  assert (M1 : map Db.defense_id rows1 = map Db.defense_id (Db.defenses s))
    by (eapply updateFirst_map; [| exact U1]; reflexivity).
  assert (M2 : map Db.defense_id rows2 = map Db.defense_id rows1)
    by (eapply updateFirst_map; [| exact U2]; reflexivity).
  assert (M3 : map Db.alert_id rows3 = map Db.alert_id (Db.alerts s))
    by (eapply updateFirst_map; [| exact U3]; reflexivity).
  apply updateFirst_spec in U1 as (pre1 & a1 & post1 & E1 & P1 & Q1 & -> & ->).
  apply updateFirst_spec in U2 as (pre2 & a2 & post2 & E2 & P2 & Q2 & -> & ->).
  apply updateFirst_spec in U3 as (pre3 & a3 & post3 & E3 & P3 & Q3 & -> & ->).
  split.
  { eexists. split; [apply find_first; [exact P2 | exact Q2] |].
    cbn. repeat split. intros x Hx. now rewrite Hx. }
  split.
  { eexists. split; [apply find_first; [exact P3 | exact Q3] |].
    cbn. repeat split. }
  split; [reflexivity |]. split; [reflexivity |].
  split; [congruence |]. split; [exact M3 |].
  intros Hnd reviewId Hone (d0 & Hin0 & Hid0 & Hp0).
  apply find_none_all. intros x Hx.
  destruct (pendingFor reviewId x) eqn:Hpx; [exfalso | reflexivity].
  assert (Hnd1 : NoDup (map Db.defense_id (pre2 ++ a2 :: post2))).
  { rewrite <- E2, M1. exact Hnd. }
  apply String.eqb_eq in Q1, Q2. cbn [Db.defense_id] in Q2.
  apply in_app_or in Hx as [Hx | [<- | Hx]].
  - (* a row before the one written *)
    assert (Hx1 : In x (pre2 ++ a2 :: post2)) by (apply in_or_app; now left).
    rewrite <- E2 in Hx1.
    apply in_app_or in Hx1 as [Hx1 | [<- | Hx1]].
    + assert (x = d0).
      { apply Hone; auto. rewrite E1. apply in_or_app. now left. }
      subst x. rewrite E1 in Hnd.
      apply (NoDup_map_mid Db.defense_id pre1 post1 a1 d0 Hnd);
        [apply in_or_app; now left | congruence].
    + eapply (NoDup_map_mid Db.defense_id pre2 post2 a2 _ Hnd1);
        [apply in_or_app; left; exact Hx | cbn [Db.defense_id]; congruence].
    + assert (x = d0).
      { apply Hone; auto. rewrite E1. apply in_or_app. right. now right. }
      subst x. rewrite E1 in Hnd.
      apply (NoDup_map_mid Db.defense_id pre1 post1 a1 d0 Hnd);
        [apply in_or_app; now right | congruence].
  - unfold pendingFor, Db.isActive in Hpx. cbn [Db.defense_status] in Hpx.
    rewrite andb_false_r in Hpx. discriminate.
  - assert (Hx1 : In x (pre2 ++ a2 :: post2))
      by (apply in_or_app; right; now right).
    rewrite <- E2 in Hx1.
    apply in_app_or in Hx1 as [Hx1 | [<- | Hx1]].
    + assert (x = d0).
      { apply Hone; auto. rewrite E1. apply in_or_app. now left. }
      subst x. rewrite E1 in Hnd.
      apply (NoDup_map_mid Db.defense_id pre1 post1 a1 d0 Hnd);
        [apply in_or_app; now left | congruence].
    + eapply (NoDup_map_mid Db.defense_id pre2 post2 a2 _ Hnd1);
        [apply in_or_app; right; exact Hx | cbn [Db.defense_id]; congruence].
    + assert (x = d0).
      { apply Hone; auto. rewrite E1. apply in_or_app. right. now right. }
      subst x. rewrite E1 in Hnd.
      apply (NoDup_map_mid Db.defense_id pre1 post1 a1 d0 Hnd);
        [apply in_or_app; now right | congruence].
Qed.

(** X11. When [executeDefense] returns [true], the active defense of the
    review has been submitted to the network, once and as the last
    submission; the defense is on record as posted, with the time of
    posting and the review id the network returned, the alert as
    confirmed, with the time of the response; reviews and relations are
    as before. *)
Theorem executeDefense_true_is_posted
        (env : Env) (alertId reviewId : string) (w w' : World) :
  executeDefense env alertId reviewId w = (Ok true, w') ->
  exists defense,
    find (pendingFor reviewId) (Db.defenses (db w)) = Some defense
    /\ submitted w'
       = submitted w ++ [(Db.defense_targetKey defense, Db.defense_score defense,
                          Db.defense_comment defense)]
    /\ (exists d,
          find (fun d => String.eqb (Db.defense_id d) (Db.defense_id defense))
               (Db.defenses (db w')) = Some d
          /\ Db.defense_status d = Db.POSTED
          /\ Db.defense_postedAt d <> None
          /\ (forall x,
                EthosService.reviewId
                  (EthosService.postReview (postReviews env)
                     (Db.defense_targetKey defense) (Db.defense_score defense)
                     (Db.defense_comment defense)) = Some x ->
                Db.defense_ethosReviewId d = Some x))
    /\ (exists a,
          find (fun a => String.eqb (Db.alert_id a) alertId) (Db.alerts (db w'))
          = Some a
          /\ Db.alert_status a = Db.ALERT_CONFIRMED
          /\ Db.alert_respondedAt a <> None)
    /\ Db.reviews (db w') = Db.reviews (db w)
    /\ Db.relations (db w') = Db.relations (db w).
Proof.
  intros H.
  apply executeDefense_inv in H
    as (alert & defense & postedAt & respondedAt & _ & Hdef & _ & Hsub & Hthen).
  apply confirmedThen_effects in Hthen
    as ((d & Hd & Hst & Hat & Hid) & (a & Ha & Hsa & Hra) & Hrel & Hrev & _).
  exists defense. split; [exact Hdef |]. split; [exact Hsub |].
  split; [exists d; repeat split; auto; congruence |].
  split; [exists a; repeat split; auto; congruence | auto].
Qed.

Lemma executeDefense_true_is_posted_witness :
  exists defense,
    find (pendingFor "review_5") (Db.defenses (db Confirmations.alerted)) = Some defense
    /\ submitted Confirmations.confirmed
       = submitted Confirmations.alerted
         ++ [(Db.defense_targetKey defense, Db.defense_score defense,
              Db.defense_comment defense)]
    /\ (exists d,
          find (fun d => String.eqb (Db.defense_id d) (Db.defense_id defense))
               (Db.defenses (db Confirmations.confirmed)) = Some d
          /\ Db.defense_status d = Db.POSTED
          /\ Db.defense_postedAt d <> None
          /\ (forall x,
                EthosService.reviewId
                  (EthosService.postReview (postReviews (Confirmations.accepting 5000))
                     (Db.defense_targetKey defense) (Db.defense_score defense)
                     (Db.defense_comment defense)) = Some x ->
                Db.defense_ethosReviewId d = Some x))
    /\ (exists a,
          find (fun a => String.eqb (Db.alert_id a) "row0")
               (Db.alerts (db Confirmations.confirmed)) = Some a
          /\ Db.alert_status a = Db.ALERT_CONFIRMED
          /\ Db.alert_respondedAt a <> None)
    /\ Db.reviews (db Confirmations.confirmed) = Db.reviews (db Confirmations.alerted)
    /\ Db.relations (db Confirmations.confirmed)
       = Db.relations (db Confirmations.alerted).
Proof.
  apply (executeDefense_true_is_posted (Confirmations.accepting 5000) "row0" "review_5"
           Confirmations.alerted Confirmations.confirmed).
  vm_compute. reflexivity.
Defined.

(** X12. [executeDefense] for an alert that is not on record, or for a review
    without a pending or confirmed defense, returns [false], writes
    nothing to the store and submits nothing, whether the store answers
    or not. *)
Theorem executeDefense_without_record
        (env : Env) (alertId reviewId : string) (w : World) :
  find (fun a => String.eqb (Db.alert_id a) alertId) (Db.alerts (db w)) = None
  \/ find (pendingFor reviewId) (Db.defenses (db w)) = None ->
  fst (executeDefense env alertId reviewId w) = Ok false
  /\ db (snd (executeDefense env alertId reviewId w)) = db w
  /\ submitted (snd (executeDefense env alertId reviewId w)) = submitted w.
Proof.
  intros H. destruct (executeDefense_no_record env alertId reviewId w H)
    as (w' & -> & Hd & Hs). auto.
Qed.

Lemma executeDefense_without_record_witness :
  fst (executeDefense (Confirmations.accepting 5000) "row7" "review_5"
                      Confirmations.alerted) = Ok false
  /\ db (snd (executeDefense (Confirmations.accepting 5000) "row7" "review_5"
                             Confirmations.alerted)) = db Confirmations.alerted
  /\ submitted (snd (executeDefense (Confirmations.accepting 5000) "row7" "review_5"
                                    Confirmations.alerted))
     = submitted Confirmations.alerted.
Proof.
  apply (executeDefense_without_record (Confirmations.accepting 5000) "row7" "review_5"
           Confirmations.alerted).
  left. vm_compute. reflexivity.
Defined.

(** X13. A defense is not posted twice: after [executeDefense] has returned
    [true], in a store where defense ids are unique and the review had
    one active defense, every further call for the same alert and review
    returns [false], writes nothing and submits nothing. *)
Theorem confirmed_defense_not_posted_again
        (env env' : Env) (alertId reviewId : string) (w w' : World) :
  executeDefense env alertId reviewId w = (Ok true, w') ->
  NoDup (map Db.defense_id (Db.defenses (db w))) ->
  (forall d1 d2, In d1 (Db.defenses (db w)) -> In d2 (Db.defenses (db w)) ->
                 pendingFor reviewId d1 = true -> pendingFor reviewId d2 = true ->
                 d1 = d2) ->
  fst (executeDefense env' alertId reviewId w') = Ok false
  /\ db (snd (executeDefense env' alertId reviewId w')) = db w'
  /\ submitted (snd (executeDefense env' alertId reviewId w')) = submitted w'.
Proof.
  intros H Hnd Hone.
  apply executeDefense_inv in H
    as (alert & defense & postedAt & respondedAt & _ & Hdef & _ & _ & Hthen).
  apply confirmedThen_effects in Hthen as (_ & _ & _ & _ & _ & _ & Hgone).
  assert (Hnone : find (pendingFor reviewId) (Db.defenses (db w')) = None).
  { apply Hgone; [exact Hnd | exact Hone |]. exists defense.
    pose proof (find_some _ _ Hdef) as [Hin Hp]. auto. }
  destruct (executeDefense_no_record env' alertId reviewId w' (or_intror Hnone))
    as (w'' & -> & Hd & Hs). auto.
Qed.

Lemma confirmed_defense_not_posted_again_witness :
  fst (executeDefense (Confirmations.accepting 9000) "row0" "review_5"
                      Confirmations.confirmed) = Ok false
  /\ db (snd (executeDefense (Confirmations.accepting 9000) "row0" "review_5"
                             Confirmations.confirmed)) = db Confirmations.confirmed
  /\ submitted (snd (executeDefense (Confirmations.accepting 9000) "row0" "review_5"
                                    Confirmations.confirmed))
     = submitted Confirmations.confirmed.
Proof.
  apply (confirmed_defense_not_posted_again
           (Confirmations.accepting 5000) (Confirmations.accepting 9000)
           "row0" "review_5" Confirmations.alerted Confirmations.confirmed).
  - vm_compute. reflexivity.
  - vm_compute. repeat constructor. intros [].
  - vm_compute. intros d1 d2 [<- | []] [<- | []] _ _. reflexivity.
Defined.

End DefenseExecution.

Section TelegramCallbacks.
Import Js Control Types Config MonitorService.
Import Notions DefenseNotions TelegramButtons.

(** X14. Every callback button of an alert message names a registered action
    and carries the id of the review in the place of the alert id as well.
    So unless an alert has that very id, a click on it writes nothing to
    the store and submits no review: the confirm button is answered as
    processed, the ignore button as an error. *)
Theorem telegram_buttons_carry_review_id
        (frontendUrl : string) (payload : AlertPayload) (row : list Button)
        (label : string) (data : TelegramCallbackData) :
  In row (createTelegramButtons frontendUrl payload) ->
  In (CallbackButton label data) row ->
  alertId data = payload_reviewId payload
  /\ reviewId data = payload_reviewId payload
  /\ (action data = "confirm" \/ action data = "edit" \/ action data = "ignore")
  /\ forall env w,
       find (fun a => String.eqb (Db.alert_id a) (payload_reviewId payload))
            (Db.alerts (db w)) = None ->
       db (snd (onCallbackQuery (registerCallbackHandlers env) data w)) = db w
       /\ submitted (snd (onCallbackQuery (registerCallbackHandlers env) data w))
          = submitted w
       /\ fst (onCallbackQuery (registerCallbackHandlers env) data w)
          = Ok (if String.eqb (action data) "ignore"
                then ErrorProcessing else ActionProcessed).
Proof.
  intros Hrow Hbutton.
  assert (Hdata : exists name,
             data = callbackData payload name
             /\ (name = "confirm" \/ name = "edit" \/ name = "ignore")).
  { unfold createTelegramButtons in Hrow.
    destruct (truthy ad_requireConfirm (payload_autoDefense payload));
      cbn [In] in Hrow;
      repeat match goal with
             | H : _ \/ _ |- _ => destruct H as [H | H]
             | H : False |- _ => destruct H
             end; subst row; cbn [In] in Hbutton;
      repeat match goal with
             | H : _ \/ _ |- _ => destruct H as [H | H]
             | H : False |- _ => destruct H
             end; try discriminate; injection Hbutton as _ <-; eauto. }
  destruct Hdata as (name & -> & Hname). cbn [alertId reviewId action callbackData].
  split; [reflexivity |]. split; [reflexivity |]. split; [exact Hname |].
  intros env w Hnone. unfold onCallbackQuery, tryCatch, registerCallbackHandlers,
    onCallback, noHandlers. cbn [alertId reviewId action callbackData].
  destruct Hname as [-> | [-> | ->]];
    change ("confirm" =? "edit")%string with false;
    change ("confirm" =? "ignore")%string with false;
    change ("confirm" =? "confirm")%string with true;
    change ("edit" =? "edit")%string with true;
    change ("edit" =? "ignore")%string with false;
    change ("ignore" =? "edit")%string with false;
    change ("ignore" =? "ignore")%string with true; cbv beta iota;
    cbn [alertId reviewId action callbackData].
  - destruct (executeDefense_no_record env (payload_reviewId payload)
                (payload_reviewId payload) w (or_introl Hnone)) as (w' & Hrun & Hd & Hs).
    unfold bind. rewrite Hrun. cbn. auto.
  - cbn. auto.
  - destruct (updateAlertStatus env (payload_reviewId payload) Db.ALERT_IGNORED w)
      as [o w'] eqn:E.
    destruct (updateAlertStatus_run _ _ _ _ _ _ E)
      as (Hs & [(e & -> & Hd) | (a & now & -> & Hq)]).
    + unfold bind. rewrite E. cbn. auto.
    + exfalso. unfold Db.updateAlertStatus in Hq.
      match type of Hq with
      | context [Db.updateFirst ?p ?g ?rows] =>
          assert (Hu : Db.updateFirst p g rows = None)
            by (apply updateFirst_None; exact Hnone);
          rewrite Hu in Hq
      end.
      discriminate.
Qed.

Lemma telegram_buttons_carry_review_id_witness :
  alertId (callbackData samplePayload "confirm") = payload_reviewId samplePayload
  /\ reviewId (callbackData samplePayload "confirm") = payload_reviewId samplePayload
  /\ (action (callbackData samplePayload "confirm") = "confirm"
      \/ action (callbackData samplePayload "confirm") = "edit"
      \/ action (callbackData samplePayload "confirm") = "ignore")
  /\ forall env w,
       find (fun a => String.eqb (Db.alert_id a) (payload_reviewId samplePayload))
            (Db.alerts (db w)) = None ->
       db (snd (onCallbackQuery (registerCallbackHandlers env)
                                (callbackData samplePayload "confirm") w)) = db w
       /\ submitted (snd (onCallbackQuery (registerCallbackHandlers env)
                                          (callbackData samplePayload "confirm") w))
          = submitted w
       /\ fst (onCallbackQuery (registerCallbackHandlers env)
                               (callbackData samplePayload "confirm") w)
          = Ok (if String.eqb (action (callbackData samplePayload "confirm")) "ignore"
                then ErrorProcessing else ActionProcessed).
Proof.
  apply (telegram_buttons_carry_review_id "http://localhost:3000" samplePayload
           [ CallbackButton "✅ Confirmer défense" (callbackData samplePayload "confirm");
             CallbackButton "✏️ Modifier" (callbackData samplePayload "edit") ]
           "✅ Confirmer défense" (callbackData samplePayload "confirm")).
  - left. reflexivity.
  - left. reflexivity.
Defined.

End TelegramCallbacks.

Section QuietActivities.
Import Js Control Types Config MonitorService.
Import Notions.

(** X15. An activity that is neither of negative score nor a slash is at most
    put on record: a pass over it leaves the counts of the cycle, the
    alerts, the defenses, the relations and the log as they are, and
    either leaves the reviews as they are too or appends one review, for
    the relation, that is flagged neither negative nor alerted. *)
Theorem nonnegative_activity_is_only_recorded
        (env : Env) (activity : EthosActivity) (relationId : string)
        (c c' : Cycle) (o : Outcome unit) :
  isNegativeOf activity = false ->
  processActivity env activity relationId c = (o, c') ->
  result c' = result c
  /\ Db.alerts (db (world c')) = Db.alerts (db (world c))
  /\ Db.defenses (db (world c')) = Db.defenses (db (world c))
  /\ Db.relations (db (world c')) = Db.relations (db (world c))
  /\ Db.monitorLogs (db (world c')) = Db.monitorLogs (db (world c))
  /\ (Db.reviews (db (world c')) = Db.reviews (db (world c))
      \/ exists row,
           Db.reviews (db (world c')) = Db.reviews (db (world c)) ++ [row]
           /\ Db.review_relationId row = relationId
           /\ Db.review_score row = scoreOf activity
           /\ Db.review_isNegative row = false
           /\ Db.review_alerted row = false).
Proof.
  intros Hneg H. unfold processActivity in H. rewrite Hneg in H.
  assert (Hread : forall A (m : M World A), respects sameDb m ->
             respects (fun a b : Cycle => db (world b) = db (world a)
                                          /\ result b = result a) (inWorld m)).
  { intros A m Hm a o' b Hab. apply inWorld_inv in Hab as [Hab Hr].
    apply Hm in Hab. auto. }
  assert (Hquery : forall A (q : Db.Query A),
             (forall s, snd (q s) = s) ->
             respects (fun a b : Cycle => db (world b) = db (world a)
                                          /\ result b = result a)
                      (inWorld (query env q))).
  { intros A q Hq a o' b Hab. apply inWorld_inv in Hab as [Hab Hr].
    split; [| exact Hr].
    apply query_inv in Hab as [(_ & -> & _) | (_ & s & Hs & ->)]; [reflexivity |].
    cbn. specialize (Hq (db (world a))). rewrite Hs in Hq. exact Hq. }
  assert (Hsame :
             db (world c') = db (world c) /\ result c' = result c ->
             result c' = result c
             /\ Db.alerts (db (world c')) = Db.alerts (db (world c))
             /\ Db.defenses (db (world c')) = Db.defenses (db (world c))
             /\ Db.relations (db (world c')) = Db.relations (db (world c))
             /\ Db.monitorLogs (db (world c')) = Db.monitorLogs (db (world c))
             /\ (Db.reviews (db (world c')) = Db.reviews (db (world c))
                 \/ exists row,
                      Db.reviews (db (world c')) = Db.reviews (db (world c)) ++ [row]
                      /\ Db.review_relationId row = relationId
                      /\ Db.review_score row = scoreOf activity
                      /\ Db.review_isNegative row = false
                      /\ Db.review_alerted row = false)).
  { intros [Hd Hr]. rewrite Hd, Hr. repeat split; auto. }
  apply (bind_respects _ _ _ _ _ _ (Hread _ _ (activityIdOf_sameDb env activity))) in H
    as [(activityId & c1 & R1 & _ & H) | (R1 & _)]; [| now apply Hsame].
  apply (bind_respects _ _ _ _ _ _ (Hquery _ (Db.reviewExists activityId)
                                            (fun s => eq_refl))) in H
    as [(exists_ & c2 & R2 & _ & H) | (R2 & _)].
  2: { apply Hsame. destruct R1, R2. split; congruence. }
  destruct exists_.
  { injection H as _ <-. apply Hsame.
    destruct R1, R2. split; congruence. }
  apply (bind_respects _ _ _ _ _ _
           (Hread _ _ (parseActivityTimestamp_sameDb env activity))) in H
    as [(createdAt & c3 & R3 & _ & H) | (R3 & _)].
  2: { apply Hsame. destruct R1, R2, R3. split; congruence. }
  assert (R13 : db (world c3) = db (world c) /\ result c3 = result c)
    by (destruct R1, R2, R3; split; congruence).
  destruct R13 as [Hd Hr].
  apply bind_inv in H as [(review & c4 & H4 & H) | (e & H4 & _)];
    apply inWorld_inv in H4 as [H4 Hr4];
    apply query_inv in H4 as [(_ & Hw & e0 & He0) | (_ & s & Hq & Hw)];
    try discriminate.
  - injection H as _ <-. unfold Db.createReview in Hq.
    destruct (existsb _ (Db.reviews (db (world c3)))); [discriminate |].
    injection Hq as <- <-. rewrite Hr4, Hr, Hw. cbn. rewrite Hd.
    split; [reflexivity |]. repeat split. right. eexists. split; [reflexivity |].
    cbn. repeat split.
    unfold isNegativeOf in Hneg. apply orb_false_iff in Hneg as [Hneg _]. exact Hneg.
  - apply Hsame. rewrite Hr4, Hw. cbn. auto.
  - apply Hsame. rewrite Hr4, Hw. cbn.
    unfold Db.createReview in Hq.
    destruct (existsb _ (Db.reviews (db (world c3))));
      [injection Hq as _ <-; auto | discriminate].
Qed.

Lemma nonnegative_activity_is_only_recorded_witness :
  let c' := snd (processActivity (Sample.quiet 1000) Sample.anonymousReview "12"
                                 Sample.cycle1) in
  result c' = result Sample.cycle1
  /\ Db.alerts (db (world c')) = Db.alerts (db (world Sample.cycle1))
  /\ Db.defenses (db (world c')) = Db.defenses (db (world Sample.cycle1))
  /\ Db.relations (db (world c')) = Db.relations (db (world Sample.cycle1))
  /\ Db.monitorLogs (db (world c')) = Db.monitorLogs (db (world Sample.cycle1))
  /\ (Db.reviews (db (world c')) = Db.reviews (db (world Sample.cycle1))
      \/ exists row,
           Db.reviews (db (world c')) = Db.reviews (db (world Sample.cycle1)) ++ [row]
           /\ Db.review_relationId row = "12"
           /\ Db.review_score row = scoreOf Sample.anonymousReview
           /\ Db.review_isNegative row = false
           /\ Db.review_alerted row = false).
Proof.
  apply (nonnegative_activity_is_only_recorded
           (Sample.quiet 1000) Sample.anonymousReview "12" Sample.cycle1
           (snd (processActivity (Sample.quiet 1000) Sample.anonymousReview "12"
                                 Sample.cycle1))
           (fst (processActivity (Sample.quiet 1000) Sample.anonymousReview "12"
                                 Sample.cycle1))).
  - reflexivity.
  - vm_compute. reflexivity.
Defined.

End QuietActivities.

Section SettingsFacts.
Import Js Control SettingsRoute.

Lemma get_assign (key key' value : string) (o : Obj) :
  get key (assign key' value o)
  = if String.eqb key' key then Some value else get key o.
Proof.
  induction o as [| [k v] rest IH]; cbn [assign get].
  - destruct (String.eqb_spec key' key); reflexivity.
  - destruct (String.eqb_spec k key') as [-> | Hk]; cbn [get].
    + destruct (String.eqb_spec key' key); reflexivity.
    + rewrite IH. destruct (String.eqb_spec k key) as [-> | Hk'];
        [| reflexivity].
      destruct (String.eqb_spec key' key) as [-> | _]; [now elim Hk | reflexivity].
Qed.

Lemma get_delete (key key' : string) (o : Obj) :
  get key (delete key' o) = if String.eqb key' key then None else get key o.
Proof.
  induction o as [| [k v] rest IH]; cbn [delete filter get fst].
  - destruct (String.eqb key' key); reflexivity.
  - fold (delete key' rest).
    destruct (String.eqb_spec k key') as [-> | Hk]; cbn [negb get].
    + rewrite IH. destruct (String.eqb_spec key' key); reflexivity.
    + rewrite IH. destruct (String.eqb_spec k key) as [-> | Hk'];
        [| reflexivity].
      destruct (String.eqb_spec key' key) as [-> | _]; [now elim Hk | reflexivity].
Qed.

Lemma get_setProp (key key' value : string) (o : Obj) :
  String.eqb key' "__proto__" = false ->
  get key (setProp key' value o)
  = if String.eqb key' key then Some value else get key o.
Proof. intros H. unfold setProp. rewrite H. apply get_assign. Qed.

Lemma index_found (p a b : string) :
  p <> "" -> String.index 0 p (a ++ p ++ b) <> None.
Proof.
  intros Hp. induction a as [| c a IH].
  - cbn [append]. destruct p as [| c p]; [now elim Hp |].
    change (String c p ++ b)%string with (String c (p ++ b)).
    cbn [String.index].
    change (String c (p ++ b)) with (String c p ++ b)%string.
    assert (Hpre : String.prefix (String c p) (String c p ++ b) = true).
    { clear. generalize (String c p). intros q.
      induction q as [| d q IH]; cbn; [now destruct b |].
      destruct (ascii_dec d d) as [_ | N]; [exact IH | now elim N]. }
    rewrite Hpre. discriminate.
  - change (String c a ++ p ++ b)%string with (String c (a ++ p ++ b)).
    cbn [String.index].
    destruct (String.prefix p (String c (a ++ p ++ b))); [discriminate |].
    destruct (String.index 0 p (a ++ p ++ b)); [discriminate | now elim IH].
Qed.

Lemma includes_mask (a b : string) : includes "****" (a ++ "****" ++ b) = true.
Proof.
  unfold includes.
  destruct (String.index 0 "****" (a ++ "****" ++ b)) eqn:E; [reflexivity |].
  now apply index_found in E.
Qed.

Lemma length_app_string (a b : string) :
  String.length (a ++ b) = (String.length a + String.length b)%nat.
Proof. induction a as [| c a IH]; cbn; [reflexivity | now rewrite IH]. Qed.

Lemma utf16Length_app (a b : string) :
  utf16Length (a ++ b) = (utf16Length a + utf16Length b)%nat.
Proof. induction a as [| c a IH]; cbn; [reflexivity | rewrite IH; lia]. Qed.

Lemma unitsOf_le (c : ascii) : (unitsOf c <= 2)%nat.
Proof.
  unfold unitsOf.
  destruct (nat_of_ascii c <? 128)%nat; [lia |].
  destruct (nat_of_ascii c <? 192)%nat; [lia |].
  destruct (nat_of_ascii c <? 240)%nat; lia.
Qed.

Lemma isContinuation_units (c : ascii) :
  isContinuation c = true -> unitsOf c = 0%nat.
Proof. unfold isContinuation. apply Nat.eqb_eq. Qed.

(** The second and third byte of a surrogate continue its first. *)
Lemma unitsOf_continuation (x : N) :
  unitsOf (ascii_of_N (128 + x mod 64)) = 0%nat.
Proof.
  pose proof (N.mod_upper_bound x 64 ltac:(lia)) as Hx.
  generalize dependent (x mod 64)%N. intros y Hy.
  unfold unitsOf, nat_of_ascii. rewrite N_ascii_embedding by lia.
  rewrite N2Nat.inj_add. change (N.to_nat 128) with 128%nat.
  assert (Hn : (N.to_nat y < 64)%nat) by lia.
  destruct (128 + N.to_nat y <? 128)%nat eqn:E1;
    [apply Nat.ltb_lt in E1; lia |].
  destruct (128 + N.to_nat y <? 192)%nat eqn:E2;
    [reflexivity | apply Nat.ltb_ge in E2; lia].
Qed.

(** A surrogate is one code unit. *)
Lemma utf16Length_surrogate (u : N) : utf16Length (surrogate u) = 1%nat.
Proof.
  unfold surrogate. cbn [utf16Length]. rewrite !unitsOf_continuation. reflexivity.
Qed.

Lemma utf16Length_highHalf (c : ascii) (rest : string) :
  (utf16Length (highHalf c rest) <= 1)%nat.
Proof.
  unfold highHalf.
  destruct rest as [| b2 [| b3 [| b4 rest]]]; cbn [utf16Length]; try lia.
  rewrite utf16Length_surrogate. lia.
Qed.

Lemma utf16Length_lowHalf (c : ascii) (rest : string) :
  (utf16Length (lowHalf c rest) <= 1)%nat.
Proof.
  unfold lowHalf.
  destruct rest as [| b2 [| b3 [| b4 rest]]]; cbn [utf16Length]; try lia.
  rewrite utf16Length_surrogate. lia.
Qed.

Lemma utf16Length_afterContinuation (s : string) :
  utf16Length (afterContinuation s) = utf16Length s.
Proof.
  induction s as [| c s IH]; cbn [afterContinuation]; [reflexivity |].
  destruct (isContinuation c) eqn:C; [| reflexivity].
  cbn [utf16Length]. rewrite (isContinuation_units c C). exact IH.
Qed.

(** [slice(0, n)] has at most [n] code units. *)
Lemma utf16Length_sliceTo (n : nat) (s : string) :
  (utf16Length (sliceTo n s) <= n)%nat.
Proof.
  revert n. induction s as [| c s IH]; intros n; cbn [sliceTo]; [cbn; lia |].
  destruct (isContinuation c) eqn:C.
  - cbn [utf16Length]. rewrite (isContinuation_units c C). apply IH.
  - destruct (unitsOf c <=? n)%nat eqn:L.
    + apply Nat.leb_le in L. cbn [utf16Length].
      specialize (IH (n - unitsOf c)%nat). lia.
    + destruct n as [| n]; [cbn; lia |].
      pose proof (utf16Length_highHalf c s). lia.
Qed.

(** [slice(n)] has the code units of the string less [n]. *)
Lemma utf16Length_sliceFrom (n : nat) (s : string) :
  (utf16Length (sliceFrom n s) <= utf16Length s - n)%nat.
Proof.
  revert n. induction s as [| c s IH]; intros n; cbn [sliceFrom]; [cbn; lia |].
  destruct (isContinuation c) eqn:C.
  - cbn [utf16Length]. rewrite (isContinuation_units c C). apply IH.
  - destruct n as [| n]; [lia |].
    destruct (unitsOf c <=? S n)%nat eqn:L.
    + apply Nat.leb_le in L. cbn [utf16Length].
      specialize (IH (S n - unitsOf c)%nat). lia.
    + apply Nat.leb_gt in L. pose proof (unitsOf_le c).
      rewrite utf16Length_app, utf16Length_afterContinuation. cbn [utf16Length].
      pose proof (utf16Length_lowHalf c s). lia.
Qed.

(** On ASCII the code units are the bytes. *)
Lemma unitsOf_ascii (c : ascii) :
  (nat_of_ascii c <? 128)%nat = true -> unitsOf c = 1%nat /\ isContinuation c = false.
Proof.
  intros H. unfold isContinuation, unitsOf. rewrite H. split; reflexivity.
Qed.

Lemma utf16Length_ascii (s : string) :
  isAscii s = true -> utf16Length s = String.length s.
Proof.
  induction s as [| c s IH]; cbn [isAscii utf16Length String.length];
    [reflexivity |].
  intros H. apply andb_true_iff in H as [Hc Hs].
  destruct (unitsOf_ascii c Hc) as [-> _]. now rewrite (IH Hs).
Qed.

Lemma sliceTo_ascii (n : nat) (s : string) :
  isAscii s = true -> sliceTo n s = String.substring 0 n s.
Proof.
  revert n. induction s as [| c s IH]; intros n; cbn [isAscii sliceTo].
  - intros _. now destruct n.
  - intros H. apply andb_true_iff in H as [Hc Hs].
    destruct (unitsOf_ascii c Hc) as [-> ->].
    destruct n as [| n]; cbn [Nat.leb String.substring]; [reflexivity |].
    replace (S n - 1)%nat with n by lia. now rewrite (IH n Hs).
Qed.

Lemma sliceFrom_ascii (n : nat) (s : string) :
  isAscii s = true ->
  sliceFrom n s = String.substring n (String.length s - n) s.
Proof.
  revert n. induction s as [| c s IH]; intros n; cbn [isAscii sliceFrom].
  - intros _. now destruct n.
  - intros H. apply andb_true_iff in H as [Hc Hs].
    destruct (unitsOf_ascii c Hc) as [-> ->].
    destruct n as [| n].
    + rewrite Nat.sub_0_r. now rewrite substring_all.
    + cbn [Nat.leb String.length String.substring].
      replace (S n - 1)%nat with n by lia.
      replace (S (String.length s) - S n)%nat with (String.length s - n)%nat by lia.
      apply (IH n Hs).
Qed.

(** A masked value and the secret behind it. *)
Lemma maskValue_cases (value : option string) :
  (truthy strTruthy value = false /\ maskValue value 4 = "")
  \/ (exists v, value = Some v /\ v <> "" /\ (utf16Length v <= 8)%nat
                /\ maskValue value 4 = "****")
  \/ (exists v, value = Some v /\ (8 < utf16Length v)%nat
                /\ maskValue value 4
                   = (sliceTo 4 v ++ "****"
                      ++ sliceFrom (utf16Length v - 4) v)%string).
Proof.
  destruct value as [v |]; [| left; auto]. cbn [truthy maskValue].
  destruct (strTruthy v) eqn:T; [| left; auto]. right.
  change (4 * 2)%nat with 8%nat.
  destruct (utf16Length v <=? 8)%nat eqn:L.
  - left. apply Nat.leb_le in L. exists v. repeat split; auto.
    intros ->. discriminate.
  - right. apply Nat.leb_gt in L. exists v. repeat split; auto.
Qed.

(** A masked value offered as a new secret is not stored. *)
Lemma setSecret_masked (key : string) (value : option string) (env : Obj) :
  setSecret key (SStr (maskValue value 4)) env = Ok env.
Proof.
  destruct (maskValue_cases value)
    as [[Hf ->] | [(v & -> & Hv & Hl & ->) | (v & -> & Hl & ->)]];
    try reflexivity.
  unfold setSecret. cbn [scalarTruthy]. rewrite includes_mask.
  destruct (strTruthy _); reflexivity.
Qed.

(** Beyond ASCII the mask counts and cuts code units, not bytes: five
    letters of two bytes are hidden entirely, of nine the first and the
    last four are shown, and a cut through a character of two code units
    leaves a surrogate on either side. *)
Lemma maskValue_beyond_ascii :
  maskValue (Some (eAcute ++ eAcute ++ eAcute ++ eAcute ++ eAcute)%string) 4
  = "****"
  /\ maskValue (Some (eAcute ++ eAcute ++ eAcute ++ eAcute ++ eAcute
                      ++ eAcute ++ eAcute ++ eAcute ++ eAcute)%string) 4
     = (eAcute ++ eAcute ++ eAcute ++ eAcute ++ "****"
        ++ eAcute ++ eAcute ++ eAcute ++ eAcute)%string
  /\ maskValue (Some ("abc" ++ grin ++ "defgh" ++ grin ++ "xyz")%string) 4
     = ("abc" ++ String "237" (String "160" (String "189" ""))
        ++ "****" ++ String "237" (String "184" (String "128" "")) ++ "xyz")%string.
Proof. vm_compute. repeat split. Qed.

(** X16. The mask shows at most the first four and the last four code units
    of a secret, which for a secret of ASCII characters are its first
    four and its last four characters, and hides a secret of up to eight
    code units entirely; a masked value is empty for a missing or empty
    secret only, has at most twelve code units, and is never stored by
    the save handler: offered as a new secret it leaves the settings as
    they are. *)
Theorem maskValue_hides (value : option string) :
  (maskValue value 4 = "" <-> truthy strTruthy value = false)
  /\ (utf16Length (maskValue value 4) <= 12)%nat
  /\ (forall v, value = Some v -> v <> "" -> (utf16Length v <= 8)%nat ->
                maskValue value 4 = "****")
  /\ (forall v, value = Some v -> (8 < utf16Length v)%nat ->
                maskValue value 4
                = (sliceTo 4 v ++ "****" ++ sliceFrom (utf16Length v - 4) v)%string
                /\ (utf16Length (sliceTo 4 v) <= 4)%nat
                /\ (utf16Length (sliceFrom (utf16Length v - 4) v) <= 4)%nat
                /\ (isAscii v = true ->
                    sliceTo 4 v = String.substring 0 4 v
                    /\ sliceFrom (utf16Length v - 4) v
                       = String.substring (String.length v - 4) 4 v))
  /\ (forall key env, setSecret key (SStr (maskValue value 4)) env = Ok env).
Proof.
  split; [| split; [| split; [| split]]].
  - destruct (maskValue_cases value)
      as [[Hf ->] | [(v & -> & Hv & Hl & ->) | (v & -> & Hl & ->)]].
    + tauto.
    + assert (Ht : truthy strTruthy (Some v) = true)
        by (destruct v; [now elim Hv | reflexivity]).
      split; [discriminate | congruence].
    + assert (Ht : truthy strTruthy (Some v) = true)
        by (destruct v; [cbn in Hl; lia | reflexivity]).
      split; [| congruence]. intros H. apply (f_equal String.length) in H.
      rewrite !length_app_string in H. cbn in H. lia.
  - destruct (maskValue_cases value)
      as [[Hf ->] | [(v & -> & Hv & Hl & ->) | (v & -> & Hl & ->)]];
      [cbn; lia | change (utf16Length "****") with 4%nat; lia |].
    rewrite !utf16Length_app.
    pose proof (utf16Length_sliceTo 4 v).
    pose proof (utf16Length_sliceFrom (utf16Length v - 4) v).
    change (utf16Length "****") with 4%nat. lia.
  - intros v -> Hv Hl. cbn [maskValue].
    destruct v; [now elim Hv |]. cbn [strTruthy].
    change (4 * 2)%nat with 8%nat.
    apply Nat.leb_le in Hl. now rewrite Hl.
  - intros v -> Hl.
    split.
    { cbn [maskValue]. destruct v; [cbn in Hl; lia |]. cbn [strTruthy].
      change (4 * 2)%nat with 8%nat.
      apply Nat.leb_gt in Hl. now rewrite Hl. }
    split; [apply utf16Length_sliceTo |].
    split.
    { pose proof (utf16Length_sliceFrom (utf16Length v - 4) v). lia. }
    intros Ha. split; [now apply sliceTo_ascii |].
    rewrite (sliceFrom_ascii _ _ Ha), (utf16Length_ascii _ Ha).
    rewrite (utf16Length_ascii _ Ha) in Hl. f_equal. lia.
  - intros key env. apply setSecret_masked.
Qed.

(** The keys the save handler can write. *)
Ltac eval_eqb :=
  repeat match goal with
         | |- context [String.eqb ?a ?b] =>
             let v := eval vm_compute in (String.eqb a b) in
             match v with
             | true => change (String.eqb a b) with true
             | false => change (String.eqb a b) with false
             end
         end; cbv beta iota.

Lemma get_setIfTruthy (key key' : string) (v : Scalar) (o : Obj) :
  String.eqb key' "__proto__" = false ->
  get key (setIfTruthy key' v o)
  = if scalarTruthy v && String.eqb key' key then Some (scalarToString v)
    else get key o.
Proof.
  intros H. unfold setIfTruthy. destruct (scalarTruthy v); [| reflexivity].
  now rewrite get_setProp.
Qed.

Lemma get_deleteIfDisabled (key : string) (b : bool) (keys : list string) (o : Obj) :
  get key (deleteIfDisabled (SBool b) keys o)
  = if negb b && existsb (String.eqb key) keys then None else get key o.
Proof.
  destruct b; [reflexivity |]. cbn [deleteIfDisabled negb andb].
  revert o. induction keys as [| k keys IH]; intros o; cbn [fold_left existsb];
    [reflexivity |].
  rewrite IH, get_delete, (String.eqb_sym key k).
  destruct (String.eqb k key), (existsb (String.eqb key) keys); reflexivity.
Qed.

Ltac get_env :=
  repeat first [ rewrite get_setIfTruthy by reflexivity
               | rewrite get_setProp by reflexivity
               | rewrite get_deleteIfDisabled ];
  cbn [existsb]; eval_eqb; cbn [andb orb negb];
  rewrite ?andb_false_r, ?andb_true_r, ?orb_false_r; cbv beta iota.

(** X17. Saving the settings page with the notifications as
    [GET /api/settings] returned them never fails and keeps every secret
    of a channel that was reported enabled: the masked values are not
    stored. For a channel reported disabled it removes the keys of the
    channel, even those that had a value. The three keys of the automatic
    defense get the text of what the page holds, and every key the
    handler does not manage stays as it was. *)
Theorem saving_page_keeps_secrets
        (env : Obj) (autoDefense : AutoDefenseBody) (interval : Scalar) :
  exists env',
    applySettings (pageBody (getSettings env) autoDefense interval) env = Ok env'
    /\ (forall key, In key ["TELEGRAM_BOT_TOKEN"; "TELEGRAM_CHAT_ID"] ->
          get key env' = if telegram_enabled (getSettings env)
                         then get key env else None)
    /\ get "DISCORD_WEBHOOK_URL" env'
       = (if discord_enabled (getSettings env)
          then get "DISCORD_WEBHOOK_URL" env else None)
    /\ (forall key, In key ["TWITTER_API_KEY"; "TWITTER_API_SECRET";
                            "TWITTER_ACCESS_TOKEN"; "TWITTER_ACCESS_SECRET"] ->
          get key env' = if twitter_enabled (getSettings env)
                         then get key env else None)
    /\ get "AUTO_DEFENSE_ENABLED" env' = Some (scalarToString (ad_enabled autoDefense))
    /\ get "AUTO_DEFENSE_REQUIRE_CONFIRM" env'
       = Some (scalarToString (ad_requireConfirm autoDefense))
    /\ get "AUTO_DEFENSE_DEFAULT_SCORE" env'
       = Some (scalarToString (ad_defaultScore autoDefense))
    /\ (forall key,
          ~ In key ["TELEGRAM_BOT_TOKEN"; "TELEGRAM_CHAT_ID"; "DISCORD_WEBHOOK_URL";
                    "TWITTER_API_KEY"; "TWITTER_API_SECRET"; "TWITTER_ACCESS_TOKEN";
                    "TWITTER_ACCESS_SECRET"; "AUTO_DEFENSE_ENABLED";
                    "AUTO_DEFENSE_REQUIRE_CONFIRM"; "AUTO_DEFENSE_DEFAULT_SCORE";
                    "MONITOR_INTERVAL_MINUTES"] ->
          get key env' = get key env).
Proof.
  eexists. split.
  { unfold applySettings, pageBody, getSettings.
    cbn [body_telegram body_discord body_twitter body_autoDefense
         body_monitorInterval tg_enabled tg_botToken tg_chatId dc_enabled
         dc_webhookUrl tw_enabled tw_apiKey tw_apiSecret tw_accessToken
         tw_accessSecret
         telegram_enabled telegram_botToken telegram_chatId discord_enabled
         discord_webhookUrl twitter_enabled twitter_apiKey twitter_apiSecret
         twitter_accessToken twitter_accessSecret].
    repeat (rewrite setSecret_masked; cbn [andThen]).
    reflexivity. }
  cbn [telegram_enabled discord_enabled twitter_enabled getSettings].
  repeat match goal with |- _ /\ _ => split end.
  - intros key [<- | [<- | []]]; get_env.
    + destruct (truthy strTruthy (get "TELEGRAM_BOT_TOKEN" env)),
               (truthy strTruthy (get "TELEGRAM_CHAT_ID" env)); reflexivity.
    + destruct (get "TELEGRAM_CHAT_ID" env) as [v |]; cbn [truthy];
        [| rewrite andb_false_r; reflexivity].
      unfold orString, orElse. cbn [truthy scalarTruthy scalarToString].
      destruct (strTruthy v) eqn:T; cbn [scalarTruthy scalarToString];
        rewrite ?T, ?andb_true_r, ?andb_false_r; cbn [negb];
        destruct (truthy strTruthy (get "TELEGRAM_BOT_TOKEN" env)); reflexivity.
  - get_env. destruct (truthy strTruthy (get "DISCORD_WEBHOOK_URL" env)); reflexivity.
  - intros key [<- | [<- | [<- | [<- | []]]]]; get_env;
      destruct (truthy strTruthy (get "TWITTER_API_KEY" env)); reflexivity.
  - get_env. reflexivity.
  - get_env. reflexivity.
  - get_env. reflexivity.
  - intros key Hkey. cbn [In] in Hkey.
    repeat first [ rewrite get_setIfTruthy by reflexivity
                 | rewrite get_setProp by reflexivity
                 | rewrite get_deleteIfDisabled ].
    cbn [existsb].
    repeat match goal with
           | |- context [String.eqb ?a key] =>
               destruct (String.eqb_spec a key); [exfalso; tauto |]
           | |- context [String.eqb key ?a] =>
               destruct (String.eqb_spec key a); [exfalso; intuition congruence |]
           end.
    cbn [andb orb]. rewrite ?andb_false_r. reflexivity.
Qed.

End SettingsFacts.

Section EnvFileFacts.
Import Js Control SettingsRoute EnvFile.

Lemma split_nonempty (sep : ascii) (s : string) : split sep s <> [].
Proof.
  induction s as [| c s IH]; cbn; [discriminate |].
  destruct (Ascii.eqb c sep); [discriminate |].
  destruct (split sep s); [now elim IH | discriminate].
Qed.

Lemma split_plain (sep : ascii) (s : string) :
  contains sep s = false -> split sep s = [s].
Proof.
  induction s as [| c s IH]; cbn; [reflexivity |].
  intros H. apply orb_false_iff in H as [Hc Hs]. rewrite Hc, (IH Hs). reflexivity.
Qed.

Lemma split_app (sep : ascii) (a b : string) :
  contains sep a = false ->
  split sep (a ++ String sep b) = a :: split sep b.
Proof.
  induction a as [| c a IH]; cbn [append split contains].
  - intros _. now rewrite Ascii.eqb_refl.
  - intros H. apply orb_false_iff in H as [Hc Ha]. rewrite Hc, (IH Ha). reflexivity.
Qed.

(** [split] undoes [join]. *)
Lemma split_concat (sep : ascii) (lines : list string) :
  lines <> [] ->
  Forall (fun line => contains sep line = false) lines ->
  split sep (String.concat (String sep EmptyString) lines) = lines.
Proof.
  induction lines as [| x rest IH]; [intros H; now elim H |].
  intros _ H. inversion H as [| ? ? Hx Hrest]; subst.
  destruct rest as [| y rest]; [cbn; now apply split_plain |].
  change (String.concat (String sep "") (x :: y :: rest))
    with (x ++ String sep (String.concat (String sep "") (y :: rest)))%string.
  rewrite split_app by exact Hx. f_equal. apply IH; [discriminate | exact Hrest].
Qed.

(** [join] undoes [split]. *)
Lemma concat_split (sep : ascii) (s : string) :
  String.concat (String sep EmptyString) (split sep s) = s.
Proof.
  induction s as [| c s IH]; [reflexivity |]. cbn [split].
  pose proof (split_nonempty sep s) as Hne.
  destruct (split sep s) as [| first others] eqn:E; [now elim Hne |].
  destruct (Ascii.eqb_spec c sep) as [-> | _].
  - change (String.concat (String sep "") ("" :: first :: others))
      with (String sep (String.concat (String sep "") (first :: others))).
    now rewrite IH.
  - destruct others as [| y others].
    + cbn in *. now rewrite IH.
    + change (String.concat (String sep "") (String c first :: y :: others))
        with (String c (first ++ String sep (String.concat (String sep "")
                                                              (y :: others))))%string.
      f_equal. exact IH.
Qed.

Lemma trimStart_tight (s : string) :
  notSpace (firstChar s) = true -> EthosService.trimStart s = s.
Proof.
  destruct s as [| c s]; [reflexivity |]. cbn. intros H.
  apply negb_true_iff in H. now rewrite H.
Qed.

Lemma trimEnd_tight (s : string) :
  notSpace (lastChar s) = true -> trimEnd s = s.
Proof.
  induction s as [| c s IH]; [reflexivity |]. cbn [lastChar trimEnd].
  destruct (lastChar s) as [d |] eqn:L.
  - intros H. rewrite (IH H). destruct s; [discriminate | reflexivity].
  - cbn [notSpace]. intros H. apply negb_true_iff in H.
    destruct s as [| e s]; [cbn; now rewrite H |].
    cbn in L. destruct (lastChar s); discriminate.
Qed.

Lemma trim_tight (s : string) : tight s = true -> trim s = s.
Proof.
  unfold tight, trim. intros H. apply andb_true_iff in H as [Hf Hl].
  rewrite trimStart_tight by exact Hf. now apply trimEnd_tight.
Qed.

Lemma lastChar_app (a b : string) :
  lastChar (a ++ b) = match lastChar b with
                      | Some d => Some d
                      | None => lastChar a
                      end.
Proof.
  induction a as [| c a IH]; cbn [append lastChar].
  - now destruct (lastChar b).
  - rewrite IH. destruct (lastChar b); reflexivity.
Qed.

(** A line [key=value] is read as that key and that value. *)
Lemma readLine_entry (env : Obj) (key value : string) :
  keyFits key = true -> valueFits value = true ->
  readLine env (key ++ "=" ++ value) = assign key value env.
Proof.
  unfold keyFits, valueFits. intros Hk Hv.
  repeat match goal with
         | H : _ && _ = true |- _ => apply andb_true_iff in H as [? ?]
         | H : negb _ = true |- _ => apply negb_true_iff in H
         end.
  assert (Hline : tight (key ++ "=" ++ value) = true).
  { unfold tight in *.
    match goal with H : notSpace (firstChar key) && _ = true |- _ =>
      apply andb_true_iff in H as [Hf Hl] end.
    match goal with H : notSpace (firstChar value) && _ = true |- _ =>
      apply andb_true_iff in H as [Hf' Hl'] end.
    apply andb_true_iff. split.
    - destruct key; [discriminate | exact Hf].
    - rewrite lastChar_app. cbn [append lastChar].
      destruct (lastChar value); [exact Hl' | reflexivity]. }
  unfold readLine. rewrite (trim_tight _ Hline).
  assert (Hfirst : exists c rest, key = String c rest)
    by (destruct key; [discriminate | eauto]).
  destruct Hfirst as (c & rest & ->).
  assert (Hhash : startsWith "#" (String c rest ++ "=" ++ value) = false).
  { match goal with H : startsWith "#" (String c rest) = false |- _ =>
      revert H end.
    unfold startsWith. cbn [append String.prefix].
    destruct (ascii_dec "#" c); [| reflexivity].
    destruct rest; cbn [append String.prefix]; discriminate. }
  rewrite Hhash. cbn [strTruthy append andb negb].
  change (String c (rest ++ String "=" value))
    with (String c rest ++ String "=" value)%string.
  rewrite split_app by assumption. cbn [strTruthy].
  rewrite concat_split, !trim_tight by assumption.
  unfold setProp.
  match goal with H : String.eqb _ "__proto__" = false |- _ => now rewrite H end.
Qed.

Lemma fold_entries (entries : list (string * string)) (acc : Obj) :
  Forall fitting entries ->
  fold_left readLine (map entryLine entries) acc = fold_left assignEntry entries acc.
Proof.
  intros H. revert acc. induction H as [| e es [Hk Hv] _ IH]; intros acc;
    [reflexivity |].
  cbn [map fold_left]. unfold entryLine at 1.
  rewrite (readLine_entry _ _ _ Hk Hv). apply IH.
Qed.

Lemma keyLines_present (env : Obj) (keys : list string) :
  flat_map (fun key => match get key env with
                       | Some value => [(key ++ "=" ++ value)%string]
                       | None => []
                       end) keys
  = map entryLine (present env keys).
Proof.
  induction keys as [| k keys IH]; [reflexivity |]. cbn [flat_map present].
  fold (present env keys). rewrite map_app, <- IH.
  destruct (get k env); reflexivity.
Qed.

Lemma heading_skipped (group : string * list string) (acc : Obj) :
  In group groups ->
  readLine acc ("# " ++ capitalize (fst group) ++ " Configuration") = acc.
Proof.
  unfold groups. cbn [In]. intros H.
  repeat (destruct H as [<- | H]; [reflexivity |]). destruct H.
Qed.

Lemma heading_one_line (group : string * list string) :
  In group groups ->
  contains "010" ("# " ++ capitalize (fst group) ++ " Configuration") = false.
Proof.
  unfold groups. cbn [In]. intros H.
  repeat (destruct H as [<- | H]; [reflexivity |]). destruct H.
Qed.

Lemma groups_read (env : Obj) (gs : list (string * list string)) (acc : Obj) :
  incl gs groups ->
  Forall fitting (flat_map (fun group => present env (snd group)) gs) ->
  fold_left readLine (flat_map (groupLines env) gs) acc
  = fold_left assignEntry (flat_map (fun group => present env (snd group)) gs) acc.
Proof.
  revert acc. induction gs as [| g gs IH]; intros acc Hin Hfit; [reflexivity |].
  cbn [flat_map] in *. apply Forall_app in Hfit as [Hg Hgs].
  rewrite !fold_left_app.
  replace (fold_left readLine (groupLines env g) acc)
    with (fold_left assignEntry (present env (snd g)) acc).
  2:{ unfold groupLines. rewrite keyLines_present. cbn [app fold_left].
      rewrite fold_left_app, heading_skipped by (apply Hin; now left).
      now rewrite (fold_entries _ _ Hg). }
  apply IH; [intros x Hx; apply Hin; now right | exact Hgs].
Qed.

Lemma remaining_lines (env : Obj) (added : list string) :
  flat_map (fun entry : string * string =>
              if existsb (String.eqb (fst entry)) added then []
              else [(fst entry ++ "=" ++ snd entry)%string]) env
  = map entryLine
      (filter (fun entry => negb (existsb (String.eqb (fst entry)) added)) env).
Proof.
  induction env as [| e env IH]; [reflexivity |]. cbn [flat_map filter].
  destruct (existsb (String.eqb (fst e)) added); cbn [negb app map];
    now rewrite IH.
Qed.

Lemma contains_app (c : ascii) (a b : string) :
  contains c (a ++ b) = contains c a || contains c b.
Proof.
  induction a as [| d a IH]; [reflexivity |]. cbn [append contains].
  now rewrite IH, orb_assoc.
Qed.

Lemma entryLine_one_line (entry : string * string) :
  fitting entry -> contains "010" (entryLine entry) = false.
Proof.
  unfold fitting, keyFits, valueFits, entryLine. intros [Hk Hv].
  repeat match goal with
         | H : _ && _ = true |- _ => apply andb_true_iff in H as [? ?]
         | H : negb _ = true |- _ => apply negb_true_iff in H
         end.
  rewrite !contains_app.
  repeat match goal with H : contains "010" _ = false |- _ => rewrite H; clear H end.
  reflexivity.
Qed.

Lemma groupLines_one_line (env : Obj) (gs : list (string * list string)) :
  incl gs groups ->
  Forall fitting (flat_map (fun group => present env (snd group)) gs) ->
  Forall (fun line => contains "010" line = false) (flat_map (groupLines env) gs).
Proof.
  induction gs as [| g gs IH]; intros Hin Hfit; [constructor |].
  cbn [flat_map] in *. apply Forall_app in Hfit as [Hg Hgs].
  apply Forall_app. split.
  - unfold groupLines. rewrite keyLines_present. cbn [app]. constructor.
    + apply heading_one_line, Hin. now left.
    + apply Forall_app. split; [| repeat constructor].
      apply Forall_map. eapply Forall_impl; [| exact Hg].
      intros e. apply entryLine_one_line.
  - apply IH; [intros x Hx; apply Hin; now right | exact Hgs].
Qed.

(** What is read from the entriesWritten file is the entriesWritten entries assigned
    in their order. *)
Lemma read_written (env : Obj) :
  Forall fitting (entriesWritten env) ->
  readEnvFile (Some (writeEnvFile env)) = fold_left assignEntry (entriesWritten env) [].
Proof.
  unfold entriesWritten. intros H. pose proof H as H'. apply Forall_app in H' as [H1 H2].
  unfold readEnvFile, writeEnvFile. rewrite remaining_lines.
  rewrite split_concat.
  - rewrite fold_left_app, groups_read by (auto using incl_refl).
    rewrite fold_entries by exact H2. now rewrite fold_left_app.
  - unfold groups at 1. cbn [flat_map groupLines app]. discriminate.
  - apply Forall_app. split.
    + apply groupLines_one_line; auto using incl_refl.
    + apply Forall_map. eapply Forall_impl; [| exact H2].
      intros e. apply entryLine_one_line.
Qed.

Lemma distinct_NoDup (keys : list string) :
  distinct keys = true -> NoDup keys.
Proof.
  induction keys as [| k keys IH]; [constructor |]. cbn [distinct].
  intros H. apply andb_true_iff in H as [Hk Hrest]. constructor; [| now apply IH].
  intros Hin. apply negb_true_iff in Hk.
  assert (existsb (String.eqb k) keys = true); [| congruence].
  apply existsb_exists. exists k. split; [exact Hin | apply String.eqb_refl].
Qed.

Lemma get_In (key value : string) (o : Obj) :
  get key o = Some value -> In (key, value) o.
Proof.
  induction o as [| [k v] rest IH]; cbn [get]; [discriminate |].
  destruct (String.eqb_spec k key) as [-> | _].
  - intros [= ->]. now left.
  - intros H. right. now apply IH.
Qed.

Lemma In_get (key value : string) (o : Obj) :
  NoDup (map fst o) -> In (key, value) o -> get key o = Some value.
Proof.
  induction o as [| [k v] rest IH]; cbn [get map fst]; [intros _ [] |].
  intros Hnd [[= -> ->] | Hin].
  - now rewrite String.eqb_refl.
  - inversion Hnd as [| ? ? Hk Hrest]; subst.
    destruct (String.eqb_spec k key) as [-> | _]; [| now apply IH].
    elim Hk. change key with (fst (key, value)). now apply in_map.
Qed.

Lemma get_fold_other (key : string) (entries : list (string * string)) (acc : Obj) :
  ~ In key (map fst entries) ->
  get key (fold_left assignEntry entries acc) = get key acc.
Proof.
  revert acc. induction entries as [| [k v] es IH]; intros acc H; [reflexivity |].
  cbn [fold_left]. rewrite IH by (intros Hin; apply H; now right).
  unfold assignEntry. cbn [fst snd]. rewrite get_assign.
  destruct (String.eqb_spec k key) as [-> | _]; [| reflexivity].
  elim H. now left.
Qed.

Lemma get_fold_entry (key value : string) (entries : list (string * string))
    (acc : Obj) :
  NoDup (map fst entries) -> In (key, value) entries ->
  get key (fold_left assignEntry entries acc) = Some value.
Proof.
  revert acc. induction entries as [| [k v] es IH]; intros acc Hnd Hin;
    [destruct Hin |].
  inversion Hnd as [| ? ? Hk Hrest]; subst. cbn [fold_left].
  destruct Hin as [[= -> ->] | Hin]; [| now apply IH].
  rewrite get_fold_other by exact Hk. unfold assignEntry. cbn [fst snd].
  now rewrite get_assign, String.eqb_refl.
Qed.

Lemma In_present (env : Obj) (keys : list string) (key value : string) :
  In (key, value) (present env keys) <-> In key keys /\ get key env = Some value.
Proof.
  unfold present. rewrite in_flat_map. split.
  - intros (k & Hk & Hin). destruct (get k env) as [v |] eqn:E; [| destruct Hin].
    destruct Hin as [[= -> ->] | []]. auto.
  - intros [Hk Hget]. exists key. rewrite Hget. split; [exact Hk | now left].
Qed.

Lemma keys_present (env : Obj) (keys : list string) :
  map fst (present env keys)
  = filter (fun key => match get key env with
                       | Some _ => true
                       | None => false
                       end) keys.
Proof.
  induction keys as [| k keys IH]; [reflexivity |]. cbn [present flat_map filter].
  fold (present env keys). rewrite map_app, IH. destruct (get k env); reflexivity.
Qed.

Lemma keys_grouped (env : Obj) (gs : list (string * list string)) :
  map fst (flat_map (fun group => present env (snd group)) gs)
  = filter (fun key => match get key env with
                       | Some _ => true
                       | None => false
                       end) (flat_map snd gs).
Proof.
  induction gs as [| g gs IH]; [reflexivity |]. cbn [flat_map].
  now rewrite map_app, filter_app, IH, keys_present.
Qed.

Lemma addedKeys_filter (env : Obj) :
  addedKeys env
  = filter (fun key => match get key env with
                       | Some _ => true
                       | None => false
                       end) (flat_map snd groups).
Proof.
  unfold addedKeys. induction groups as [| g gs IH]; [reflexivity |].
  cbn [flat_map]. now rewrite filter_app, IH.
Qed.

Lemma In_added (env : Obj) (key : string) :
  existsb (String.eqb key) (addedKeys env) = true <-> In key (addedKeys env).
Proof.
  rewrite existsb_exists. split.
  - intros (k & Hin & Hk). apply String.eqb_eq in Hk. now subst.
  - intros H. exists key. split; [exact H | apply String.eqb_refl].
Qed.

Lemma keys_filter (P : string * string -> bool) (o : Obj) :
  NoDup (map fst o) -> NoDup (map fst (filter P o)).
Proof.
  induction o as [| e o IH]; [constructor |]. cbn [map filter].
  intros H. inversion H as [| ? ? Hk Hrest]; subst.
  destruct (P e); [| now apply IH]. cbn [map]. constructor; [| now apply IH].
  intros Hin. apply Hk. apply in_map_iff in Hin as (x & Hx & Hin).
  apply filter_In in Hin as [Hin _]. rewrite <- Hx. now apply in_map.
Qed.

Lemma written_distinct (env : Obj) :
  NoDup (map fst env) -> NoDup (map fst (entriesWritten env)).
Proof.
  intros H. unfold entriesWritten. rewrite map_app. apply NoDup_app.
  - rewrite keys_grouped. apply NoDup_filter, distinct_NoDup. reflexivity.
  - now apply keys_filter.
  - intros key H1 H2. rewrite keys_grouped, <- addedKeys_filter in H1.
    apply in_map_iff in H2 as ([k v] & <- & Hin).
    apply filter_In in Hin as [_ Hin]. cbn [fst] in *.
    apply negb_true_iff in Hin. apply In_added in H1. congruence.
Qed.

Lemma In_written (env : Obj) (key value : string) :
  NoDup (map fst env) ->
  In (key, value) (entriesWritten env) <-> In (key, value) env.
Proof.
  intros Hnd. unfold entriesWritten. rewrite in_app_iff, in_flat_map, filter_In. split.
  - intros [(g & _ & Hin) | [Hin _]]; [| exact Hin].
    apply In_present in Hin as [_ Hget]. now apply get_In.
  - intros Hin. cbn [fst].
    destruct (existsb (String.eqb key) (addedKeys env)) eqn:E; [left | now right].
    apply In_added in E. unfold addedKeys in E.
    apply in_flat_map in E as (g & Hg & Hk). apply filter_In in Hk as [Hk _].
    exists g. split; [exact Hg |]. apply In_present. split; [exact Hk |].
    now apply In_get.
Qed.

Lemma linesOf_one_line (env : Obj) :
  NoDup (map fst env) -> Forall fitting env ->
  Forall (fun line => contains "010" line = false) (linesOf env).
Proof.
  intros Hd Hf. rewrite Forall_forall in Hf.
  assert (H : Forall fitting (entriesWritten env)).
  { apply Forall_forall. intros [k v] Hin.
    apply (proj1 (In_written env k v Hd)) in Hin. now apply Hf. }
  unfold entriesWritten in H. apply Forall_app in H as [H1 H2].
  unfold linesOf. rewrite remaining_lines. apply Forall_app. split.
  - apply groupLines_one_line; auto using incl_refl.
  - apply Forall_map. eapply Forall_impl; [| exact H2].
    intros e. apply entryLine_one_line.
Qed.

Lemma linesOf_nonempty (env : Obj) : linesOf env <> [].
Proof. unfold linesOf, groups. cbn [flat_map groupLines app]. discriminate. Qed.

(** The settings read from the file that was written for them. *)
Lemma read_back (env : Obj) (key : string) :
  NoDup (map fst env) -> Forall fitting env ->
  get key (readEnvFile (Some (writeEnvFile env))) = get key env.
Proof.
  intros Hd Hf. rewrite Forall_forall in Hf. rewrite read_written.
  2:{ apply Forall_forall. intros [k v] Hin.
      apply (proj1 (In_written env k v Hd)) in Hin. now apply Hf. }
  destruct (get key env) as [value |] eqn:E.
  - apply get_fold_entry; [now apply written_distinct |].
    apply (proj2 (In_written env key value Hd)). now apply get_In.
  - rewrite get_fold_other; [reflexivity |].
    intros Hin. apply in_map_iff in Hin as ([k v] & Hk & Hin). cbn [fst] in Hk.
    subst k. apply (proj1 (In_written env key v Hd)) in Hin.
    apply In_get in Hin; [congruence | exact Hd].
Qed.

Lemma fits_inv (env : Obj) :
  fits env = true -> NoDup (map fst env) /\ Forall fitting env.
Proof.
  unfold fits. intros H. apply andb_true_iff in H as [Hd Hf].
  split; [now apply distinct_NoDup |].
  rewrite forallb_forall in Hf. apply Forall_forall. intros e He.
  apply Hf in He. now apply andb_true_iff in He.
Qed.

(** X18. The settings route, reading back the file it wrote: settings whose keys
    are distinct and whose keys and values fit a line of the file (ASCII, no
    white space at the ends, no line break, a key that is not empty, holds
    no [=], does not start with [#] or a digit and is not [__proto__]) come
    back from [readEnvFile] after [writeEnvFile] with the same value under
    every key, whatever the group of the key, and with no key added. *)
Theorem env_file_round_trip (env : Obj) (key : string) :
  fits env = true ->
  get key (readEnvFile (Some (writeEnvFile env))) = get key env.
Proof.
  intros H. apply fits_inv in H as [Hd Hf]. now apply read_back.
Qed.

Lemma env_file_round_trip_witness :
  fits sample = true
  /\ get "ETHOS_PRIVY_TOKEN" (readEnvFile (Some (writeEnvFile sample)))
     = get "ETHOS_PRIVY_TOKEN" sample.
Proof.
  split; [reflexivity | apply env_file_round_trip; reflexivity].
Defined.

End EnvFileFacts.

Section HistoryFacts.
Import Js Control Types Config MonitorService.
Import Notions Accounting History.

Lemma Forall2_same {A} (kept : A -> A -> Prop) (rows : list A) :
  (forall a, kept a a) -> Forall2 kept rows rows.
Proof. intros H. induction rows; constructor; auto. Qed.

Lemma Forall2_chain {A} (kept : A -> A -> Prop) (l1 l2 l3 : list A) :
  (forall a b c, kept a b -> kept b c -> kept a c) ->
  Forall2 kept l1 l2 -> Forall2 kept l2 l3 -> Forall2 kept l1 l3.
Proof.
  intros Ht H. revert l3. induction H as [| a b l1 l2 Hab _ IH]; intros l3 H23;
    inversion H23; subst; constructor; eauto.
Qed.

Lemma extends_refl {A} (kept : A -> A -> Prop) (rows : list A) :
  (forall a, kept a a) -> extends kept rows rows.
Proof.
  intros H. exists rows, []. split; [now rewrite app_nil_r | now apply Forall2_same].
Qed.

Lemma extends_trans {A} (kept : A -> A -> Prop) (l1 l2 l3 : list A) :
  (forall a b c, kept a b -> kept b c -> kept a c) ->
  extends kept l1 l2 -> extends kept l2 l3 -> extends kept l1 l3.
Proof.
  intros Ht (old1 & new1 & -> & H1) (old2 & new2 & -> & H2).
  apply Forall2_app_inv_l in H2 as (k1 & k2 & Hk1 & _ & ->).
  exists k1, (k2 ++ new2). split; [now rewrite app_assoc |].
  eapply Forall2_chain; eauto.
Qed.

Lemma extends_append {A} (kept : A -> A -> Prop) (rows new : list A) :
  (forall a, kept a a) -> extends kept rows (rows ++ new).
Proof. intros H. exists rows, new. split; [reflexivity | now apply Forall2_same]. Qed.

Lemma extends_update {A} (kept : A -> A -> Prop) (p : A -> bool) (f : A -> A)
      (rows rows' : list A) (r : A) :
  (forall a, kept a a) -> (forall a, kept a (f a)) ->
  Db.updateFirst p f rows = Some (r, rows') -> extends kept rows rows'.
Proof.
  intros Hr Hf H. exists rows', []. split; [now rewrite app_nil_r |].
  revert rows' H. induction rows as [| a rows IH]; intros rows' H; [discriminate |].
  cbn [Db.updateFirst] in H. destruct (p a).
  - injection H as _ <-. constructor; [apply Hf | now apply Forall2_same].
  - destruct (Db.updateFirst p f rows) as [[r' rest'] |]; [| discriminate].
    injection H as -> <-. constructor; [apply Hr | now apply IH].
Qed.

Lemma keptRelation_refl (r : Db.Relation) : keptRelation r r.
Proof. repeat split. Qed.

Lemma keptRelation_trans (a b c : Db.Relation) :
  keptRelation a b -> keptRelation b c -> keptRelation a c.
Proof. unfold keptRelation. intuition congruence. Qed.

Lemma keptReview_refl (v : Db.Review) : keptReview v v.
Proof. now left. Qed.

Lemma keptReview_trans (a b c : Db.Review) :
  keptReview a b -> keptReview b c -> keptReview a c.
Proof.
  intros [-> | ->] [-> | ->]; [now left | now right | now right | right].
  reflexivity.
Qed.

Lemma grown_refl (s : Db.Store) : grown s s.
Proof.
  repeat split; apply extends_refl;
    auto using keptRelation_refl, keptReview_refl.
Qed.

Lemma grown_trans (s1 s2 s3 : Db.Store) : grown s1 s2 -> grown s2 s3 -> grown s1 s3.
Proof.
  intros (H1 & H2 & H3) (K1 & K2 & K3). repeat split.
  - eapply extends_trans; eauto using keptRelation_trans.
  - eapply extends_trans; eauto using keptReview_trans.
  - eapply extends_trans; eauto. intros; congruence.
Qed.

(** Each query of a cycle, on the rows it finds. *)
Lemma upsertRelation_grown id userkey name address avatarUrl
      (s s' : Db.Store) (o : Outcome Db.Relation) :
  Db.upsertRelation id userkey name address avatarUrl s = (o, s') -> grown s s'.
Proof.
  unfold Db.upsertRelation.
  destruct (Db.updateFirst _ _ (Db.relations s)) as [[r rows] |] eqn:E;
    intros H; injection H as _ <-; repeat split; cbn;
    try (apply extends_refl; auto using keptReview_refl).
  - eapply extends_update; [apply keptRelation_refl | | exact E].
    intros a. repeat split.
  - apply extends_append, keptRelation_refl.
Qed.

Lemma markReviewAlerted_grown (id : string) (s s' : Db.Store) (o : Outcome Db.Review) :
  Db.markReviewAlerted id s = (o, s') -> grown s s'.
Proof.
  unfold Db.markReviewAlerted.
  destruct (Db.updateFirst _ _ (Db.reviews s)) as [[r rows] |] eqn:E;
    intros H; injection H as _ <-; [| apply grown_refl].
  repeat split; cbn; try (apply extends_refl; auto using keptRelation_refl).
  eapply extends_update; [apply keptReview_refl | | exact E].
  intros a. now right.
Qed.

Lemma createReview_grown (data : Db.ReviewData) (s s' : Db.Store)
      (o : Outcome Db.Review) :
  Db.createReview data s = (o, s') -> grown s s'.
Proof.
  unfold Db.createReview. destruct (existsb _ (Db.reviews s));
    intros H; injection H as _ <-; [apply grown_refl |].
  repeat split; cbn; try (apply extends_refl; auto using keptRelation_refl).
  apply extends_append, keptReview_refl.
Qed.

Lemma createDefense_grown (freshId : nat -> string) reviewId targetKey score comment
      status (s s' : Db.Store) (o : Outcome Db.Defense) :
  Db.createDefense freshId reviewId targetKey score comment status s = (o, s') ->
  grown s s'.
Proof.
  unfold Db.createDefense. intros H. injection H as _ <-.
  repeat split; cbn;
    try (apply extends_refl; auto using keptRelation_refl, keptReview_refl).
  apply extends_append. reflexivity.
Qed.

Lemma grown_same (s s' : Db.Store) :
  Db.relations s' = Db.relations s -> Db.reviews s' = Db.reviews s ->
  Db.defenses s' = Db.defenses s -> grown s s'.
Proof.
  intros H1 H2 H3. unfold grown. rewrite H1, H2, H3. apply grown_refl.
Qed.

Let G := storeRel grown anyResult.
Let G_refl := storeRel_refl _ _ grown_refl anyResult_refl.
Let G_trans := storeRel_trans _ _ grown_trans anyResult_trans.

Lemma grown_query {A} (env : Env) (q : Db.Query A) :
  (forall s o s', q s = (o, s') -> grown s s') ->
  respects G (inWorld (query env q)).
Proof. apply storeRel_query; [apply grown_refl | apply anyResult_refl]. Qed.

Lemma grown_bump (f : MonitorResult -> MonitorResult) : respects G (bump f).
Proof. apply storeRel_bump; [apply grown_refl | intros r; exact I]. Qed.

Lemma cycleBody_grown (env : Env) (startTime : Z) :
  respects G (cycleBody env startTime).
Proof.
  apply cycleBody_frame; try (intros; apply grown_bump).
  - apply G_refl.
  - apply G_trans.
  - intros A m. apply storeRel_reads; [apply grown_refl | apply anyResult_refl].
  - intros. apply grown_query. intros s o s' H. injection H as _ <-. apply grown_refl.
  - intros. apply grown_query. intros s o s'. apply createReview_grown.
  - intros. apply grown_query. intros s o s' H. injection H as _ <-. apply grown_refl.
  - intros. apply grown_query. intros s o s'. apply upsertRelation_grown.
  - intros. apply grown_query. intros s o s'. apply createDefense_grown.
  - intros. apply grown_query. intros s o s'. apply markReviewAlerted_grown.
  - intros review relationId payload channel messageId _.
    apply (storeAlert_respects env grown anyResult
             grown_refl grown_trans anyResult_refl anyResult_trans).
    + intros. apply grown_same; store_frame.
    + intros r. exact I.
  - intros. apply grown_query. intros s o s' H. injection H as _ <-.
    apply grown_same; reflexivity.
Qed.

(** X19. A call of [runMonitorCycle], whatever it is fed and however its steps
    fail, removes no relation, no review and no defense and puts none
    before those it found: each relation it found keeps its id, its
    userkey, its address, its score and its active flag (name and avatar
    may be refreshed), each review is as it was or is marked as alerted,
    and each defense is as it was. *)
Theorem runMonitorCycle_keeps_history (env : Env) (w : World) :
  grown (db w) (db (snd (runMonitorCycle env w))).
Proof.
  destruct (runMonitorCycle env w) as [o w'] eqn:H. cbn [snd].
  destruct (isRunning w) eqn:Hrun.
  - rewrite runMonitorCycle_skips in H by exact Hrun. injection H as _ <-.
    apply grown_refl.
  - rewrite runMonitorCycle_idle in H by exact Hrun.
    apply finishCycle_inv in H as (o1 & c1 & Hbody & -> & _).
    apply cycleBody_grown in Hbody as [Hg _]. exact Hg.
Qed.

End HistoryFacts.

Section TokenFileFacts.
Import Js Control SettingsRoute EnvFile TokenFile.

Lemma exec_eq (key s : string) :
  exec key s
  = match stripPrefix key s with
    | Some rest =>
        let (matched, after) := restOfLine rest in
        Some (EmptyString, (key ++ matched)%string, after)
    | None =>
        match s with
        | EmptyString => None
        | String c rest =>
            match exec key rest with
            | Some (before, matched, after) => Some (String c before, matched, after)
            | None => None
            end
        end
    end.
Proof. destruct s; reflexivity. Qed.

Lemma append_assoc (a b c : string) : ((a ++ b) ++ c = a ++ b ++ c)%string.
Proof. induction a as [| x a IH]; cbn; [reflexivity | now rewrite IH]. Qed.

Lemma stripPrefix_app (p x : string) : stripPrefix p (p ++ x) = Some x.
Proof.
  induction p as [| a p IH]; [reflexivity |]. cbn. now rewrite Ascii.eqb_refl.
Qed.

Lemma stripPrefix_inv (p s rest : string) :
  stripPrefix p s = Some rest -> s = (p ++ rest)%string.
Proof.
  revert s. induction p as [| a p IH]; intros s; cbn.
  - now intros [= ->].
  - destruct s as [| b s]; [discriminate |].
    destruct (Ascii.eqb_spec a b) as [-> | _]; [| discriminate].
    intros H. cbn. f_equal. now apply IH.
Qed.

(** Whether [p] starts a text is settled by the first characters of the
    text, as many as [p] has. *)
Lemma stripPrefix_long (p s x y : string) :
  (String.length p <= String.length s)%nat ->
  stripPrefix p (s ++ x) = None -> stripPrefix p (s ++ y) = None.
Proof.
  revert s. induction p as [| a p IH]; intros s; cbn; [discriminate |].
  destruct s as [| b s]; cbn; [lia |]. intros Hlen.
  destruct (Ascii.eqb a b); [apply IH; lia | reflexivity].
Qed.

(** A pattern on one line does not start in one line and end in the
    next. *)
Lemma stripPrefix_line (p s x : string) :
  contains "010" p = false ->
  stripPrefix p s = None ->
  stripPrefix p (s ++ String "010" x) = None.
Proof.
  revert s. induction p as [| a p IH]; intros s; cbn; [discriminate |].
  intros Hp. apply orb_false_iff in Hp as [Ha Hp].
  destruct s as [| b s]; cbn; [now rewrite Ha |].
  destruct (Ascii.eqb a b); [now apply IH | reflexivity].
Qed.

Lemma restOfLine_split (s matched after : string) :
  restOfLine s = (matched, after) -> s = (matched ++ after)%string.
Proof.
  revert matched. induction s as [| c s IH]; intros matched; cbn [restOfLine].
  - now intros [= <- <-].
  - destruct (atLineTerminator (String c s)); [now intros [= <- <-] |].
    destruct (restOfLine s) as [m a]. intros [= <- <-]. cbn. f_equal. now apply IH.
Qed.

Lemma restOfLine_stop (s matched after : string) :
  restOfLine s = (matched, after) ->
  after = EmptyString \/ atLineTerminator after = true.
Proof.
  revert matched. induction s as [| c s IH]; intros matched; cbn [restOfLine].
  - intros [= <- <-]. now left.
  - destruct (atLineTerminator (String c s)) eqn:E; [intros [= <- <-]; now right |].
    destruct (restOfLine s) as [m a]. intros [= <- <-]. eapply IH. reflexivity.
Qed.

Lemma plain_char (c : ascii) :
  (nat_of_ascii c <? 128)%nat = true -> Ascii.eqb c "226" = false.
Proof.
  intros H. destruct (Ascii.eqb_spec c "226") as [-> | _]; [discriminate | reflexivity].
Qed.

(** [.*] takes the whole of a text on one line. *)
Lemma restOfLine_free (t after : string) :
  plain t = true -> contains "010" t = false -> contains "013" t = false ->
  after = EmptyString \/ atLineTerminator after = true ->
  restOfLine (t ++ after) = (t, after).
Proof.
  intros Hp Hn Hr Ha. induction t as [| c t IH].
  - destruct Ha as [-> | Ha]; [reflexivity |].
    destruct after; [discriminate |]. cbn [append restOfLine]. now rewrite Ha.
  - cbn in Hp, Hn, Hr. apply andb_true_iff in Hp as [Hc Hp].
    apply orb_false_iff in Hn as [Hcn Hn]. apply orb_false_iff in Hr as [Hcr Hr].
    cbn [append restOfLine atLineTerminator].
    rewrite Hcn, Hcr, (plain_char _ Hc). cbn [orb andb].
    now rewrite (IH Hp Hn Hr).
Qed.

Lemma expand_plain (matched before after r : string) :
  contains "$" r = false -> expand matched before after r = r.
Proof.
  induction r as [| c r IH]; [reflexivity |]. cbn [contains expand].
  intros H. apply orb_false_iff in H as [Hc Hr]. rewrite Hc. f_equal. now apply IH.
Qed.

Lemma tokenPlain_inv (t : string) :
  tokenPlain t = true ->
  plain t = true /\ contains "$" t = false
  /\ contains "010" t = false /\ contains "013" t = false.
Proof.
  unfold tokenPlain. intros H.
  repeat match goal with
         | H : _ && _ = true |- _ => apply andb_true_iff in H as [? ?]
         | H : negb _ = true |- _ => apply negb_true_iff in H
         end.
  auto.
Qed.

Lemma expand_token (matched before after t : string) :
  contains "$" t = false ->
  expand matched before after (tokenKey ++ t) = (tokenKey ++ t)%string.
Proof.
  intros H. apply expand_plain. rewrite contains_app, H. reflexivity.
Qed.

(** What a match says about the text. *)
Lemma exec_inv (key s before matched after : string) :
  exec key s = Some (before, matched, after) ->
  exists rest,
    matched = (key ++ rest)%string
    /\ s = (before ++ key ++ rest ++ after)%string
    /\ (after = EmptyString \/ atLineTerminator after = true).
Proof.
  revert before. induction s as [| c s IH]; intros before; rewrite exec_eq.
  - destruct (stripPrefix key "") as [rest |] eqn:E; [| discriminate].
    destruct (restOfLine rest) as [m a] eqn:Er. intros [= <- <- <-].
    exists m. apply stripPrefix_inv in E. apply restOfLine_split in Er as Hs.
    apply restOfLine_stop in Er. subst rest. auto.
  - destruct (stripPrefix key (String c s)) as [rest |] eqn:E.
    + destruct (restOfLine rest) as [m a] eqn:Er. intros [= <- <- <-].
      exists m. apply stripPrefix_inv in E. apply restOfLine_split in Er as Hs.
      apply restOfLine_stop in Er. subst rest. auto.
    + destruct (exec key s) as [[[b m] a] |] eqn:Ex; [| discriminate].
      intros [= <- <- <-]. destruct (IH b eq_refl) as (rest & -> & -> & Ha).
      exists rest. auto.
Qed.

(** The match stays where it is when the text after the key changes. *)
Lemma exec_again (key s before matched after x : string) :
  exec key s = Some (before, matched, after) ->
  exec key (before ++ key ++ x)
  = Some (before, (key ++ fst (restOfLine x))%string, snd (restOfLine x)).
Proof.
  revert before. induction s as [| c s IH]; intros before; rewrite exec_eq.
  - destruct (stripPrefix key "") as [rest |] eqn:E; [| discriminate].
    destruct (restOfLine rest) as [m a]. intros [= <- <- <-].
    cbn [append]. rewrite exec_eq, stripPrefix_app.
    now destruct (restOfLine x).
  - destruct (stripPrefix key (String c s)) as [rest |] eqn:E.
    + destruct (restOfLine rest) as [m a]. intros [= <- <- <-].
      cbn [append]. rewrite exec_eq, stripPrefix_app. now destruct (restOfLine x).
    + destruct (exec key s) as [[[b m] a] |] eqn:Ex; [| discriminate].
      intros [= <- <- <-]. destruct (exec_inv _ _ _ _ _ Ex) as (rest & _ & Hs & _).
      rewrite exec_eq.
      assert (Hnone : stripPrefix key (String c b ++ key ++ x) = None).
      { change (String c s) with (String c EmptyString ++ s)%string in E.
        rewrite Hs in E.
        replace (String c "" ++ b ++ key ++ rest ++ a)%string
          with ((String c b ++ key) ++ rest ++ a)%string in E
          by (cbn; now rewrite append_assoc).
        replace (String c b ++ key ++ x)%string with ((String c b ++ key) ++ x)%string
          by (cbn; now rewrite append_assoc).
        eapply stripPrefix_long; [| exact E].
        rewrite length_app_string. cbn. lia. }
      rewrite Hnone. cbn [append]. now rewrite (IH b eq_refl).
Qed.

(** A line without the pattern is passed over. *)
Lemma exec_skip_line (key line rest : string) :
  contains "010" key = false -> key <> EmptyString ->
  exec key line = None ->
  exec key (line ++ String "010" rest)
  = match exec key rest with
    | Some (before, matched, after) =>
        Some ((line ++ String "010" before)%string, matched, after)
    | None => None
    end.
Proof.
  intros Hk Hne. induction line as [| c line IH]; intros H.
  - cbn [append]. rewrite exec_eq.
    destruct key as [| a key]; [now elim Hne |]. cbn [stripPrefix].
    cbn in Hk. apply orb_false_iff in Hk as [Ha _]. rewrite Ha.
    now destruct (exec (String a key) rest) as [[[b m] x] |].
  - rewrite exec_eq in H.
    destruct (stripPrefix key (String c line)) as [r |] eqn:E;
      [destruct (restOfLine r); discriminate |].
    destruct (exec key line) as [[[b m] a] |] eqn:Ex; [discriminate |].
    rewrite exec_eq, (stripPrefix_line _ _ rest Hk E). cbn [append].
    rewrite (IH eq_refl). now destruct (exec key rest) as [[[b m] x] |].
Qed.

Lemma append_empty (a : string) : (a ++ "")%string = a.
Proof. induction a as [| x a IH]; cbn; [reflexivity | now rewrite IH]. Qed.

Lemma exec_at_key (key x : string) :
  exec key (key ++ x)
  = Some (EmptyString, (key ++ fst (restOfLine x))%string, snd (restOfLine x)).
Proof. rewrite exec_eq, stripPrefix_app. now destruct (restOfLine x). Qed.

Lemma restOfLine_token (t after : string) :
  tokenPlain t = true ->
  after = EmptyString \/ atLineTerminator after = true ->
  restOfLine (t ++ after) = (t, after).
Proof.
  intros H. apply tokenPlain_inv in H as (Hp & _ & Hn & Hr).
  now apply restOfLine_free.
Qed.

(** The file after a token is written over the content [content]. *)
Lemma updateEnvContent_cases (t content : string) :
  tokenPlain t = true ->
  (exists before rest after,
      exec tokenKey content = Some (before, (tokenKey ++ rest)%string, after)
      /\ content = (before ++ tokenKey ++ rest ++ after)%string
      /\ (after = EmptyString \/ atLineTerminator after = true)
      /\ updateEnvContent t content = (before ++ tokenKey ++ t ++ after)%string)
  \/ (exec tokenKey content = None
      /\ updateEnvContent t content
         = (content ++ String "010" EmptyString ++ tokenKey ++ t)%string).
Proof.
  intros Ht. apply tokenPlain_inv in Ht as (_ & Hd & _ & _).
  unfold updateEnvContent.
  destruct (exec tokenKey content) as [[[b m] a] |] eqn:E; [left | now right].
  destruct (exec_inv _ _ _ _ _ E) as (rest & -> & Hs & Ha).
  exists b, rest, a. rewrite expand_token by exact Hd.
  rewrite append_assoc. auto.
Qed.

(** X20. [updateEnvFile]: a token written over another leaves the file as if
    the other had never been written. The tokens are of ASCII characters
    without [$] and without a line break, as the tokens of Privy are;
    the content of the file is any text. *)
Theorem updateEnvFile_overwrites (t1 t2 content : string) :
  tokenPlain t1 = true -> tokenPlain t2 = true ->
  updateEnvContent t2 (updateEnvContent t1 content) = updateEnvContent t2 content.
Proof.
  intros H1 H2.
  destruct (updateEnvContent_cases t1 content H1)
    as [(b & rest & a & E & _ & Ha & ->) | (E & ->)];
    destruct (updateEnvContent_cases t2 content H2)
      as [(b' & rest' & a' & E' & _ & _ & ->) | (E' & ->)];
    try congruence.
  - rewrite E in E'. injection E' as <- _ <-.
    apply tokenPlain_inv in H2 as (_ & Hd & _ & _).
    unfold updateEnvContent.
    rewrite (exec_again _ _ _ _ _ (t1 ++ a) E), (restOfLine_token _ _ H1 Ha).
    cbn [fst snd]. rewrite expand_token by exact Hd. now rewrite append_assoc.
  - apply tokenPlain_inv in H2 as (_ & Hd & _ & _).
    unfold updateEnvContent. cbn [append].
    rewrite exec_skip_line by (reflexivity || discriminate || exact E).
    rewrite exec_at_key.
    assert (Hr : restOfLine t1 = (t1, EmptyString)).
    { pose proof (restOfLine_token t1 EmptyString H1 (or_introl eq_refl)) as Hr.
      now rewrite append_empty in Hr. }
    rewrite Hr. cbn [fst snd]. rewrite expand_token by exact Hd.
    rewrite !append_assoc, append_empty. reflexivity.
Qed.

Lemma updateEnvFile_overwrites_witness :
  tokenPlain "eyJhbGciOiJFUzI1NiJ9.e30.c2ln" = true
  /\ tokenPlain "eyJhbGciOiJFUzI1NiJ9.e30.bmV3" = true
  /\ updateEnvContent "eyJhbGciOiJFUzI1NiJ9.e30.bmV3"
       (updateEnvContent "eyJhbGciOiJFUzI1NiJ9.e30.c2ln" (writeEnvFile sample))
     = updateEnvContent "eyJhbGciOiJFUzI1NiJ9.e30.bmV3" (writeEnvFile sample).
Proof.
  split; [reflexivity |]. split; [reflexivity |].
  apply updateEnvFile_overwrites; reflexivity.
Defined.

Lemma updateEnvContent_skip_line (t line rest : string) :
  tokenPlain t = true -> mentions line = false ->
  updateEnvContent t (line ++ String "010" rest)
  = (line ++ String "010" (updateEnvContent t rest))%string.
Proof.
  intros Ht Hl. apply tokenPlain_inv in Ht as (_ & Hd & _ & _).
  unfold mentions in Hl.
  destruct (exec tokenKey line) as [x |] eqn:E; [discriminate |].
  unfold updateEnvContent.
  rewrite exec_skip_line by (reflexivity || discriminate || exact E).
  destruct (exec tokenKey rest) as [[[b m] a] |].
  - rewrite !expand_token by exact Hd. rewrite append_assoc. reflexivity.
  - rewrite append_assoc. reflexivity.
Qed.

Lemma concat_cons (line : string) (lines : list string) :
  lines <> [] ->
  String.concat (String "010" EmptyString) (line :: lines)
  = (line ++ String "010" (String.concat (String "010" EmptyString) lines))%string.
Proof. destruct lines; [intros H; now elim H | reflexivity]. Qed.

(** The token is replaced on its line when no line before names it. *)
Lemma updateEnvContent_lines (t v : string) (before after : list string) :
  tokenPlain t = true ->
  Forall (fun line => mentions line = false) before ->
  plain v = true -> contains "010" v = false -> contains "013" v = false ->
  updateEnvContent t
    (String.concat (String "010" EmptyString)
                   (before ++ (tokenKey ++ v)%string :: after))
  = String.concat (String "010" EmptyString)
                  (before ++ (tokenKey ++ t)%string :: after).
Proof.
  intros Ht Hb Hp Hn Hr. induction Hb as [| line before Hline _ IH].
  - cbn [app]. apply tokenPlain_inv in Ht as (_ & Hd & _ & _).
    unfold updateEnvContent. destruct after as [| l after].
    + cbn [String.concat]. rewrite exec_at_key.
      assert (Hv : restOfLine v = (v, EmptyString)).
      { pose proof (restOfLine_free v EmptyString Hp Hn Hr (or_introl eq_refl)) as Hv.
        now rewrite append_empty in Hv. }
      rewrite Hv. cbn [fst snd]. rewrite expand_token by exact Hd.
      now rewrite append_empty.
    + rewrite !concat_cons by discriminate. rewrite append_assoc, exec_at_key.
      rewrite restOfLine_free by (auto; now right).
      cbn [fst snd]. rewrite expand_token by exact Hd.
      now rewrite append_assoc.
  - cbn [app]. rewrite !concat_cons by (destruct before; discriminate).
    rewrite updateEnvContent_skip_line by assumption. now rewrite IH.
Qed.

(** Without a line that names the token, the token gets a line at the
    end. *)
Lemma exec_lines_none (lines : list string) :
  Forall (fun line => mentions line = false) lines ->
  exec tokenKey (String.concat (String "010" EmptyString) lines) = None.
Proof.
  intros H. induction H as [| line lines Hline Hrest IH]; [reflexivity |].
  unfold mentions in Hline.
  destruct (exec tokenKey line) as [x |] eqn:E; [discriminate |].
  destruct lines as [| l lines]; [exact E |].
  rewrite concat_cons by discriminate.
  rewrite exec_skip_line by (reflexivity || discriminate || exact E).
  now rewrite IH.
Qed.

Lemma linesOf_token (env : Obj) (v : string) :
  get "ETHOS_PRIVY_TOKEN" env = Some v ->
  linesOf env = linesBefore env ++ (tokenKey ++ v)%string :: linesAfter env.
Proof.
  intros H. unfold linesOf, linesBefore, linesAfter, groups.
  cbn [flat_map skipn]. unfold groupLines at 2. cbn [fst snd flat_map capitalize].
  rewrite H.
  repeat (rewrite app_nil_r || rewrite <- app_assoc || rewrite <- app_comm_cons).
  reflexivity.
Qed.

Lemma get_assign_other (key key' value : string) (o : Obj) :
  String.eqb key' key = false -> get key (assign key' value o) = get key o.
Proof. intros H. now rewrite get_assign, H. Qed.

Lemma addedKeys_assign (env : Obj) (key v t : string) :
  get key env = Some v -> addedKeys (assign key t env) = addedKeys env.
Proof.
  intros H. unfold addedKeys. apply flat_map_ext. intros g. apply filter_ext.
  intros k. rewrite get_assign. destruct (String.eqb_spec key k) as [<- | _];
    [now rewrite H | reflexivity].
Qed.

Lemma remaining_assign (env : Obj) (added : list string) (key t : string) :
  existsb (String.eqb key) added = true ->
  flat_map (fun entry : string * string =>
              if existsb (String.eqb (fst entry)) added then []
              else [(fst entry ++ "=" ++ snd entry)%string]) (assign key t env)
  = flat_map (fun entry : string * string =>
                if existsb (String.eqb (fst entry)) added then []
                else [(fst entry ++ "=" ++ snd entry)%string]) env.
Proof.
  intros H. induction env as [| [k v] env IH]; cbn [assign flat_map fst snd].
  - now rewrite H.
  - destruct (String.eqb_spec k key) as [-> | _]; cbn [flat_map fst snd].
    + now rewrite H.
    + now rewrite IH.
Qed.

Lemma token_added (env : Obj) (v : string) :
  get "ETHOS_PRIVY_TOKEN" env = Some v ->
  existsb (String.eqb "ETHOS_PRIVY_TOKEN") (addedKeys env) = true.
Proof.
  intros H. apply In_added. rewrite addedKeys_filter. apply filter_In.
  split; [cbn; auto 10 | now rewrite H].
Qed.

Lemma linesBefore_assign (env : Obj) (t : string) :
  linesBefore (assign "ETHOS_PRIVY_TOKEN" t env) = linesBefore env.
Proof.
  unfold linesBefore, groupLines. cbn [fst snd flat_map].
  now rewrite !get_assign_other by reflexivity.
Qed.

Lemma linesAfter_assign (env : Obj) (v t : string) :
  get "ETHOS_PRIVY_TOKEN" env = Some v ->
  linesAfter (assign "ETHOS_PRIVY_TOKEN" t env) = linesAfter env.
Proof.
  intros H. unfold linesAfter. rewrite (addedKeys_assign _ _ _ _ H).
  rewrite remaining_assign by (eapply token_added, H).
  unfold groups, groupLines. cbn [fst snd flat_map skipn].
  now rewrite !get_assign_other by reflexivity.
Qed.

Lemma keyLine_quiet (env : Obj) (key : string) :
  (forall value, In (key, value) env -> mentions (key ++ "=" ++ value) = false) ->
  Forall (fun line => mentions line = false)
         match get key env with
         | Some value => [(key ++ "=" ++ value)%string]
         | None => []
         end.
Proof.
  intros H. destruct (get key env) as [value |] eqn:E; [| constructor].
  constructor; [| constructor]. apply H. now apply get_In.
Qed.

Lemma entry_quiet (env : Obj) (key value : string) :
  tokenLineOnly env = true -> String.eqb key "ETHOS_PRIVY_TOKEN" = false ->
  In (key, value) env -> mentions (key ++ "=" ++ value) = false.
Proof.
  unfold tokenLineOnly. intros H Hk Hin. rewrite forallb_forall in H.
  apply H in Hin. cbn [fst snd] in Hin. rewrite Hk in Hin.
  now apply negb_true_iff in Hin.
Qed.

Lemma linesBefore_quiet (env : Obj) :
  tokenLineOnly env = true ->
  Forall (fun line => mentions line = false) (linesBefore env).
Proof.
  intros H. unfold linesBefore, groupLines. cbn [fst snd flat_map].
  repeat first [ apply Forall_nil
               | apply Forall_cons; [reflexivity |]
               | apply Forall_app; split
               | apply keyLine_quiet; intros value;
                 apply (entry_quiet env _ value H); reflexivity ].
Qed.

Lemma token_absent (env : Obj) (key value : string) :
  get "ETHOS_PRIVY_TOKEN" env = None -> In (key, value) env ->
  String.eqb key "ETHOS_PRIVY_TOKEN" = false.
Proof.
  intros H Hin. destruct (String.eqb_spec key "ETHOS_PRIVY_TOKEN") as [-> | _];
    [| reflexivity].
  induction env as [| [k v] env IH]; [destruct Hin |]. cbn [get] in H.
  destruct (String.eqb_spec k "ETHOS_PRIVY_TOKEN") as [-> | Hk]; [discriminate |].
  destruct Hin as [[= -> _] | Hin]; [now elim Hk | now apply IH].
Qed.

Lemma linesOf_quiet (env : Obj) :
  tokenLineOnly env = true -> get "ETHOS_PRIVY_TOKEN" env = None ->
  Forall (fun line => mentions line = false) (linesOf env).
Proof.
  intros H Hnone.
  assert (Hq : forall key value,
             In (key, value) env -> mentions (key ++ "=" ++ value) = false).
  { intros key value Hin. apply (entry_quiet env key value H); [| exact Hin].
    eapply token_absent; eauto. }
  unfold linesOf. apply Forall_app. split.
  - unfold groups, groupLines. cbn [fst snd flat_map].
    repeat first [ apply Forall_nil
                 | apply Forall_cons; [reflexivity |]
                 | apply Forall_app; split
                 | apply keyLine_quiet; intros value; apply Hq ].
  - apply Forall_flat_map. apply Forall_forall. intros [k v] Hin. cbn [fst snd].
    destruct (existsb _ _); constructor; [now apply Hq | constructor].
Qed.

Lemma keys_assign (env : Obj) (key v t : string) :
  get key env = Some v -> map fst (assign key t env) = map fst env.
Proof.
  induction env as [| [k x] env IH]; cbn [get assign]; [discriminate |].
  destruct (String.eqb_spec k key) as [-> | _]; [reflexivity |].
  intros H. cbn [map fst]. now rewrite IH.
Qed.

Lemma fitting_assign (env : Obj) (key t : string) :
  Forall fitting env -> fitting (key, t) -> Forall fitting (assign key t env).
Proof.
  intros H Ht. induction H as [| [k x] env Hk Henv IH]; cbn [assign];
    [constructor; [exact Ht | constructor] |].
  destruct (String.eqb_spec k key) as [-> | _]; constructor; auto.
Qed.

Lemma concat_snoc (lines : list string) (line : string) :
  lines <> [] ->
  String.concat (String "010" EmptyString) (lines ++ [line])
  = (String.concat (String "010" EmptyString) lines
     ++ String "010" EmptyString ++ line)%string.
Proof.
  induction lines as [| l lines IH]; [intros H; now elim H |]. intros _.
  destruct lines as [| l' lines]; [reflexivity |].
  change ((l :: l' :: lines) ++ [line]) with (l :: ((l' :: lines) ++ [line])).
  rewrite !concat_cons by discriminate. rewrite IH by discriminate.
  cbn [append]. now rewrite append_assoc.
Qed.

Lemma token_fitting (t : string) :
  tokenPlain t = true -> tight t = true -> fitting ("ETHOS_PRIVY_TOKEN", t).
Proof.
  intros Ht Htight. apply tokenPlain_inv in Ht as (Hp & _ & Hn & _).
  split; [reflexivity |]. cbn [snd]. unfold valueFits.
  now rewrite Hp, Htight, Hn.
Qed.

(** X21. The token service writing to the file the settings route reads: after
    [updateEnvFile] has put a token into the file that [writeEnvFile]
    wrote for some settings, [readEnvFile] gives the new token under
    [ETHOS_PRIVY_TOKEN] and every other setting as it was, whether the
    settings had a token or not. The settings fit the lines of the file,
    no other line of theirs holds the text [ETHOS_PRIVY_TOKEN=], and the
    tokens are of ASCII characters without [$], white space at the ends
    or a line break. *)
Theorem renewed_token_is_read (env : Obj) (t key : string) :
  fits env = true -> tokenLineOnly env = true ->
  tokenPlain t = true -> tight t = true ->
  get key (readEnvFile (updateEnvFile t (Some (writeEnvFile env)) true))
  = get key (assign "ETHOS_PRIVY_TOKEN" t env).
Proof.
  intros Hfits Hq Ht Htight. apply fits_inv in Hfits as [Hd Hf].
  pose proof (token_fitting t Ht Htight) as Hfit.
  cbn [updateEnvFile]. change (writeEnvFile env)
    with (String.concat (String "010" EmptyString) (linesOf env)).
  destruct (get "ETHOS_PRIVY_TOKEN" env) as [v |] eqn:E.
  - assert (Hv : fitting ("ETHOS_PRIVY_TOKEN", v)).
    { rewrite Forall_forall in Hf. now apply Hf, get_In. }
    destruct Hv as [_ Hv]. cbn [snd] in Hv. unfold valueFits in Hv.
    apply andb_true_iff in Hv as [Hv Hn]. apply andb_true_iff in Hv as [Hp _].
    apply negb_true_iff in Hn.
    assert (Hr : contains "013" v = false).
    { unfold tokenLineOnly in Hq. rewrite forallb_forall in Hq.
      apply get_In, Hq in E as Hr. cbn in Hr. now apply negb_true_iff in Hr. }
    rewrite (linesOf_token env v E).
    rewrite updateEnvContent_lines by (auto using linesBefore_quiet).
    rewrite <- (linesBefore_assign env t), <- (linesAfter_assign env v t E).
    rewrite <- linesOf_token by (now rewrite get_assign, String.eqb_refl).
    apply read_back.
    + now rewrite (keys_assign _ _ _ _ E).
    + now apply fitting_assign.
  - unfold updateEnvContent.
    rewrite exec_lines_none by (now apply linesOf_quiet).
    rewrite <- concat_snoc by apply linesOf_nonempty.
    unfold readEnvFile. rewrite split_concat.
    + rewrite fold_left_app. cbn [fold_left].
      destruct Hfit as [Hk Hvt]. cbn [fst snd] in Hk, Hvt. unfold tokenKey.
      change ("ETHOS_PRIVY_TOKEN=" ++ t)%string
        with ("ETHOS_PRIVY_TOKEN" ++ "=" ++ t)%string.
      rewrite (readLine_entry _ _ _ Hk Hvt), !get_assign.
      destruct (String.eqb "ETHOS_PRIVY_TOKEN" key); [reflexivity |].
      pose proof (read_back env key Hd Hf) as Hb. unfold readEnvFile in Hb.
      rewrite <- Hb. unfold writeEnvFile. rewrite split_concat; [reflexivity | |].
      * apply linesOf_nonempty.
      * now apply linesOf_one_line.
    + destruct (linesOf env); discriminate.
    + apply Forall_app. split; [now apply linesOf_one_line |].
      constructor; [| constructor].
      apply (entryLine_one_line ("ETHOS_PRIVY_TOKEN", t)). exact Hfit.
Qed.

Lemma renewed_token_is_read_witness :
  fits tokenSample = true /\ tokenLineOnly tokenSample = true
  /\ get "ETHOS_PRIVY_TOKEN"
       (readEnvFile (updateEnvFile "eyJhbGciOiJFUzI1NiJ9.e30.bmV3"
                                   (Some (writeEnvFile tokenSample)) true))
     = get "ETHOS_PRIVY_TOKEN"
           (assign "ETHOS_PRIVY_TOKEN" "eyJhbGciOiJFUzI1NiJ9.e30.bmV3" tokenSample).
Proof.
  split; [reflexivity |]. split; [reflexivity |].
  apply renewed_token_is_read; reflexivity.
Defined.

End TokenFileFacts.
